(** * slack-qna-node: the message lifecycle and the markdown converter

    A shallow embedding of [SlackQna] (class of the adapter) and of the
    types of [schema.ts]:

    - [Js]       JavaScript strings as sequences of UTF-16 code units, the
                 string methods the adapter uses ([trim], [slice],
                 [includes]) and truthiness of the values it tests;
    - [Regex]    the backtracking matcher of the regular expressions that
                 occur in [markdownToMrkdwn], and the global
                 [String.prototype.replace];
    - [Mrkdwn]   [markdownToMrkdwn], one [replace] per source line;
    - [Schema]   the records of [schema.ts];
    - [Platform] the calls made on the Slack client, the trace of what an
                 execution did, and the monad of asynchronous code;
    - [SlackQna] the constructor, [registerHandler], [postMessage] and
                 [processMessage];
    - [Plain]    plain text, and a test that a pattern cannot match;
    - [Spec]     the sample inputs and the predicates of the
                 specification;
    - [Text]     text without markup, and the patterns that read the
                 characters of one line;
    - [Runs]     the events of a run of [processMessage], and platforms
                 that reject one kind of call;
    - [Listener] [listen] and the two callbacks it subscribes.

    The facts follow: [JsFacts]; [MrkdwnFacts] and [TextFacts] on the
    Text Transformer; [DispatchFacts] and [DispatchCases] on
    [postMessage]; [LifecycleFacts] and [LifecycleRuns] on the constructor
    and [processMessage]; [ListenerFacts] on the callbacks and
    [listen]. *)

From Stdlib Require Import String Ascii List NArith ZArith Bool Lia.
Import ListNotations.

(* ================================================================== *)
(** ** JavaScript strings *)
(* ================================================================== *)

Module Js.

(** A JavaScript string is a sequence of 16-bit code units. *)
Abbreviation code_unit := N (only parsing).
Abbreviation js_string := (list N).

(** An ASCII literal of the source, as code units. *)
Definition lit (s : string) : js_string :=
  map N_of_ascii (list_ascii_of_string s).
Arguments lit s%_string.

Definition LF : code_unit := 10%N.
(** U+2022 BULLET, the character the list rules write. *)
Definition BULLET : code_unit := 8226%N.

Fixpoint eqb (s t : js_string) : bool :=
  match s, t with
  | [], [] => true
  | c :: s', d :: t' => (c =? d)%N && eqb s' t'
  | _, _ => false
  end.

(** ECMAScript LineTerminator: LF, CR, LS, PS. *)
Definition is_line_terminator (c : code_unit) : bool :=
  (c =? 10)%N || (c =? 13)%N || (c =? 8232)%N || (c =? 8233)%N.

(** ECMAScript WhiteSpace together with LineTerminator: the characters
    of the class [\s] and the ones [trim] removes. *)
Definition is_white_space (c : code_unit) : bool :=
  (c =? 9)%N || (c =? 11)%N || (c =? 12)%N || (c =? 32)%N
  || (c =? 160)%N || (c =? 5760)%N
  || ((8192 <=? c)%N && (c <=? 8202)%N)
  || (c =? 8239)%N || (c =? 8287)%N || (c =? 12288)%N || (c =? 65279)%N
  || is_line_terminator c.

Definition is_digit (c : code_unit) : bool :=
  (48 <=? c)%N && (c <=? 57)%N.

Fixpoint drop_while (p : code_unit -> bool) (s : js_string) : js_string :=
  match s with
  | [] => []
  | c :: s' => if p c then drop_while p s' else s
  end.

Fixpoint take_while (p : code_unit -> bool) (s : js_string) : js_string :=
  match s with
  | [] => []
  | c :: s' => if p c then c :: take_while p s' else []
  end.

(** [String.prototype.trim]. *)
Definition trim (s : js_string) : js_string :=
  rev (drop_while is_white_space (rev (drop_while is_white_space s))).

(** [String.prototype.slice(start, end)]: a negative index counts from
    the end, both are clamped to the string. *)
Definition clamp_index (len i : Z) : Z :=
  if (i <? 0)%Z then Z.max (len + i) 0 else Z.min i len.

Definition slice (s : js_string) (from to : Z) : js_string :=
  let len := Z.of_nat (length s) in
  let a := clamp_index len from in
  let b := clamp_index len to in
  firstn (Z.to_nat (Z.max (b - a) 0)) (skipn (Z.to_nat a) s).

Fixpoint starts_with (s prefix : js_string) : bool :=
  match prefix, s with
  | [], _ => true
  | d :: prefix', c :: s' => (c =? d)%N && starts_with s' prefix'
  | _ :: _, [] => false
  end.

(** [String.prototype.includes]. *)
Fixpoint includes (s search : js_string) : bool :=
  starts_with s search
  || match s with
     | [] => false
     | _ :: s' => includes s' search
     end.

(** Truthiness of a string: only the empty string is falsy. *)
Definition truthy_string (s : js_string) : bool :=
  match s with [] => false | _ :: _ => true end.

(** Truthiness of an optional string property: [undefined] is falsy. *)
Definition truthy_opt (o : option js_string) : bool :=
  match o with None => false | Some s => truthy_string s end.

(** [a || d] for an optional string [a] and a string default [d]. *)
Definition or_default (a : option js_string) (d : js_string) : js_string :=
  match a with
  | Some s => if truthy_string s then s else d
  | None => d
  end.

End Js.

(* ================================================================== *)
(** ** Regular expressions of [markdownToMrkdwn] *)
(* ================================================================== *)

Module Regex.
Import Js.

(** Character classes that occur in the source. *)
Inductive cls : Type :=
| Chr (c : code_unit)      (* a literal or escaped character *)
| Space                    (* \s *)
| Digit                    (* \d *)
| Dot                      (* .  : anything but a line terminator *)
| AnyChar                  (* [\s\S] *)
| NotChr (c : code_unit).  (* [^c] *)

Definition cls_mem (k : cls) (c : code_unit) : bool :=
  match k with
  | Chr d => (c =? d)%N
  | Space => is_white_space c
  | Digit => is_digit c
  | Dot => negb (is_line_terminator c)
  | AnyChar => true
  | NotChr d => negb (c =? d)%N
  end.

(** A pattern is a sequence of terms. Every quantifier of the source is
    applied to a single character class; the capture groups are not
    nested and are numbered in the order in which they open. *)
Inductive term : Type :=
| One (k : cls)                          (* k *)
| Rep (k : cls) (min : nat) (greedy : bool)
                                         (* k* k+ (greedy), k*? (lazy) *)
| Bol                                    (* ^ *)
| Eol                                    (* $ *)
| Open                                   (* ( *)
| Close.                                 (* ) *)

Record regex : Type := {
  body : list term;
  multiline : bool          (* the m flag; every pattern has the g flag *)
}.

(** Matching state: the input is a zipper, [pre] the code units before
    the current position (nearest first) and [rest] the ones after it. *)
Record mstate : Type := {
  pre : js_string;
  rest : js_string;
  opened : option nat;        (* where the open group started *)
  caps : list js_string       (* closed groups, first group first *)
}.

Definition advance (c : code_unit) (st : mstate) (rest' : js_string) : mstate :=
  {| pre := c :: pre st; rest := rest'; opened := opened st; caps := caps st |}.

(** The repeat matcher for a class: [min] mandatory characters, then as
    many as possible (greedy) or as few as possible (lazy), giving back
    or taking one more when the continuation [k] fails. *)
Fixpoint rep (k : cls) (greedy : bool) (cont : mstate -> option mstate)
    (min : nat) (st : mstate) (input : js_string) {struct input}
  : option mstate :=
  let here := {| pre := pre st; rest := input;
                 opened := opened st; caps := caps st |} in
  match min with
  | S m =>
      match input with
      | c :: input' =>
          if cls_mem k c then rep k greedy cont m (advance c st input') input'
          else None
      | [] => None
      end
  | O =>
      if greedy then
        match input with
        | c :: input' =>
            if cls_mem k c then
              match rep k greedy cont 0 (advance c st input') input' with
              | Some r => Some r
              | None => cont here
              end
            else cont here
        | [] => cont here
        end
      else
        match cont here with
        | Some r => Some r
        | None =>
            match input with
            | c :: input' =>
                if cls_mem k c
                then rep k greedy cont 0 (advance c st input') input'
                else None
            | [] => None
            end
        end
  end.

Definition at_bol (m : bool) (st : mstate) : bool :=
  match pre st with
  | [] => true
  | c :: _ => m && is_line_terminator c
  end.

Definition at_eol (m : bool) (st : mstate) : bool :=
  match rest st with
  | [] => true
  | c :: _ => m && is_line_terminator c
  end.

(** The text between the start of the open group and the position. *)
Definition captured (st : mstate) : js_string :=
  match opened st with
  | Some start => rev (firstn (length (pre st) - start) (pre st))
  | None => []
  end.

(** The backtracking matcher: [Some] final state of the first way, in
    priority order, in which the terms match from the position of [st]. *)
Fixpoint run (m : bool) (ts : list term) (st : mstate) : option mstate :=
  match ts with
  | [] => Some st
  | One k :: ts' =>
      match rest st with
      | c :: rest' =>
          if cls_mem k c then run m ts' (advance c st rest') else None
      | [] => None
      end
  | Rep k min greedy :: ts' => rep k greedy (run m ts') min st (rest st)
  | Bol :: ts' => if at_bol m st then run m ts' st else None
  | Eol :: ts' => if at_eol m st then run m ts' st else None
  | Open :: ts' =>
      run m ts' {| pre := pre st; rest := rest st;
                   opened := Some (length (pre st)); caps := caps st |}
  | Close :: ts' =>
      run m ts' {| pre := pre st; rest := rest st;
                   opened := None; caps := caps st ++ [captured st] |}
  end.

(** A match at a position: the matched text and the captures. *)
Record found : Type := { matched : js_string; groups : list js_string }.

Definition match_at (re : regex) (before after : js_string) : option found :=
  match run (multiline re) (body re)
            {| pre := before; rest := after; opened := None; caps := [] |} with
  | Some st =>
      Some {| matched := firstn (length (pre st) - length before) after;
              groups := caps st |}
  | None => None
  end.

(** The second argument of [replace]: a replacement pattern, in which
    [$n] stands for the n-th capture, or a function of the match. *)
Inductive piece : Type :=
| Text (s : js_string)
| Ref (n : nat).

Inductive replacement : Type :=
| Pattern (ps : list piece)
| Replacer (f : js_string -> js_string).

Definition expand_piece (f : found) (p : piece) : js_string :=
  match p with
  | Text s => s
  | Ref n => nth (n - 1) (groups f) []
  end.

Definition expand (r : replacement) (f : found) : js_string :=
  match r with
  | Pattern ps => flat_map (expand_piece f) ps
  | Replacer g => g (matched f)
  end.

(** [String.prototype.replace] with a global pattern. The matcher is tried
    at each index from [lastIndex] on, up to and including the end of the
    string; a match is replaced and the search goes on from its end, or
    one further when the match was empty. [skip] counts the code units
    still inside the last match; [before] is the original input, so [^]
    sees the character before the position whatever was replaced. *)
Fixpoint replace_from (re : regex) (r : replacement) (skip : nat)
    (before after : js_string) {struct after} : js_string :=
  match skip with
  | S k =>
      match after with
      | c :: after' => replace_from re r k (c :: before) after'
      | [] => []
      end
  | O =>
      match match_at re before after with
      | Some f =>
          expand r f ++
          match length (matched f) with
          | O =>
              match after with
              | c :: after' => c :: replace_from re r 0 (c :: before) after'
              | [] => []
              end
          | S k =>
              match after with
              | c :: after' => replace_from re r k (c :: before) after'
              | [] => []
              end
          end
      | None =>
          match after with
          | c :: after' => c :: replace_from re r 0 (c :: before) after'
          | [] => []
          end
      end
  end.

Definition replace (s : js_string) (re : regex) (r : replacement) : js_string :=
  replace_from re r 0 [] s.

End Regex.

(* ================================================================== *)
(** ** The Text Transformer: [markdownToMrkdwn] *)
(* ================================================================== *)

Module Mrkdwn.
Import Js Regex.

(** A literal character of a pattern. *)
Definition ch (a : ascii) : term := One (Chr (N_of_ascii a)).
Arguments ch a%_char.

Definition star (k : cls) : term := Rep k 0 true.       (* k*  *)
Definition plus (k : cls) : term := Rep k 1 true.       (* k+  *)
Definition lazy_star (k : cls) : term := Rep k 0 false. (* k*? *)

(** [/\n\s*\n/gm] *)
Definition re_blank_lines : regex :=
  {| body := [One (Chr LF); star Space; One (Chr LF)]; multiline := true |}.

(** [/^\s*/gm] *)
Definition re_leading_space : regex :=
  {| body := [Bol; star Space]; multiline := true |}.

(** [/^# (.*$)/gm], [/^## (.*$)/gm], [/^### (.*$)/gm] *)
Definition re_header (level : nat) : regex :=
  {| body := Bol :: repeat (ch "#") level
             ++ [ch " "; Open; star Dot; Eol; Close];
     multiline := true |}.

(** [/\*\*(.*?)\*\*/g] *)
Definition re_bold : regex :=
  {| body := [ch "*"; ch "*"; Open; lazy_star Dot; Close; ch "*"; ch "*"];
     multiline := false |}.

(** [/\_(.*?)\_/g] *)
Definition re_italic : regex :=
  {| body := [ch "_"; Open; lazy_star Dot; Close; ch "_"];
     multiline := false |}.

(** [/`([^`]+)`/g] *)
Definition re_inline_code : regex :=
  {| body := [ch "`"; Open; plus (NotChr (N_of_ascii "`")); Close; ch "`"];
     multiline := false |}.

(** [/```[\s\S]*?```/g] *)
Definition re_code_block : regex :=
  {| body := [ch "`"; ch "`"; ch "`"; lazy_star AnyChar;
              ch "`"; ch "`"; ch "`"];
     multiline := false |}.

(** [/\[(.*?)\]\((.*?)\)/g] *)
Definition re_link : regex :=
  {| body := [ch "["; Open; lazy_star Dot; Close; ch "]";
              ch "("; Open; lazy_star Dot; Close; ch ")"];
     multiline := false |}.

(** [/^\* (.*$)/gm] *)
Definition re_unordered : regex :=
  {| body := [Bol; ch "*"; ch " "; Open; star Dot; Eol; Close];
     multiline := true |}.

(** [/^\d+\. (.*$)/gm] *)
Definition re_ordered : regex :=
  {| body := [Bol; plus Digit; ch "."; ch " "; Open; star Dot; Eol; Close];
     multiline := true |}.

(** ['*$1*'] *)
Definition wrap_in_stars : replacement :=
  Pattern [Text (lit "*"); Ref 1; Text (lit "*")].

(** ['• $1'] *)
Definition bullet_item : replacement :=
  Pattern [Text [BULLET; 32%N]; Ref 1].

(** [(match) => '```' + match.slice(3, -3).trim() + '```'] *)
Definition trim_fence (m : js_string) : js_string :=
  lit "```" ++ trim (slice m 3 (-3)) ++ lit "```".

Definition markdownToMrkdwn (markdown : js_string) : js_string :=
  let mrkdwn := markdown in
  let mrkdwn := replace mrkdwn re_blank_lines (Pattern [Text [LF; LF]]) in
  let mrkdwn := replace mrkdwn re_leading_space (Pattern [Text []]) in
  (* Convert headers *)
  let mrkdwn := replace mrkdwn (re_header 1) wrap_in_stars in
  let mrkdwn := replace mrkdwn (re_header 2) wrap_in_stars in
  let mrkdwn := replace mrkdwn (re_header 3) wrap_in_stars in
  let mrkdwn := replace mrkdwn (re_header 3) wrap_in_stars in
  (* Convert bold *)
  let mrkdwn := replace mrkdwn re_bold wrap_in_stars in
  (* Convert italic *)
  let mrkdwn := replace mrkdwn re_italic
                  (Pattern [Text (lit "_"); Ref 1; Text (lit "_")]) in
  (* Convert inline code *)
  let mrkdwn := replace mrkdwn re_inline_code
                  (Pattern [Text (lit "`"); Ref 1; Text (lit "`")]) in
  (* Convert code blocks *)
  let mrkdwn := replace mrkdwn re_code_block (Replacer trim_fence) in
  (* Convert links *)
  let mrkdwn := replace mrkdwn re_link
                  (Pattern [Text (lit "<"); Ref 2; Text (lit "|"); Ref 1;
                            Text (lit ">")]) in
  (* Convert unordered lists *)
  let mrkdwn := replace mrkdwn re_unordered bullet_item in
  (* Convert ordered lists *)
  let mrkdwn := replace mrkdwn re_ordered bullet_item in
  mrkdwn.

End Mrkdwn.

(* ================================================================== *)
(** ** [schema.ts] *)
(* ================================================================== *)

Module Schema.
Import Js.

(** A Node [Buffer]. *)
Definition buffer := list Byte.byte.

(** [string | Buffer], the type of [data] and of what a handler returns. *)
Inductive payload : Type :=
| Str (s : js_string)
| Buf (b : buffer).

Definition is_string (p : payload) : bool :=
  match p with Str _ => true | Buf _ => false end.

(** [Buffer.isBuffer]. *)
Definition isBuffer (p : payload) : bool :=
  match p with Str _ => false | Buf _ => true end.

(** The payload at the type its guard has narrowed it to. *)
Definition the_string (p : payload) : js_string :=
  match p with Str s => s | Buf _ => [] end.

Definition the_buffer (p : payload) : buffer :=
  match p with Str _ => [] | Buf b => b end.

(** Truthiness of a payload: an object, also an empty buffer, is truthy. *)
Definition truthy (p : payload) : bool :=
  match p with Str s => truthy_string s | Buf _ => true end.

Record IncomingMessage : Type := {
  messageId : js_string;
  channelId : js_string;
  raw : js_string;
  message : js_string;
  threadId : option js_string
}.

(** [dataType] and [block] are compared with string literals at run time;
    [postMessage] reads a [block] property and tests for the data types
    ['mrkdwn'] and ['markdown'] besides the ones the declaration lists. *)
Record OutgoingMessage : Type := {
  out_channelId : js_string;
  data : payload;
  dataType : js_string;
  out_threadId : option js_string;
  block : option js_string
}.

Record Reactions : Type := {
  loading : option js_string;
  success : option js_string;
  failed : option js_string
}.

(** A value that was thrown, or the reason a promise was rejected with:
    an instance of [Error] with its message, or any other value with its
    [message] property when it has one. *)
Inductive thrown : Type :=
| ErrorObject (msg : js_string)
| OtherValue (msg : option js_string).

(** How a promise settles. *)
Inductive settled (A : Type) : Type :=
| Fulfilled (a : A)
| Rejected (e : thrown).
Arguments Fulfilled {A} a.
Arguments Rejected {A} e.

(** [processMessage] also reads the [block] of the hook. *)
Record CommandHook : Type := {
  isSync : bool;
  hook_dataType : js_string;
  hook_block : option js_string;
  handler : IncomingMessage -> settled payload
}.

End Schema.

(* ================================================================== *)
(** ** The Slack client and asynchronous code *)
(* ================================================================== *)

Module Platform.
Import Js Schema.

(** The layout blocks [postMessage] builds; each text object has type
    ['mrkdwn']. *)
Inductive layout_block : Type :=
| SectionBlock (text : js_string)
    (* { type: 'section', text: { type: 'mrkdwn', text } } *)
| ContextBlock (elements : list js_string).
    (* { type: 'context', elements: [{ type: 'mrkdwn', text }] } *)

Definition block_texts (b : layout_block) : list js_string :=
  match b with
  | SectionBlock t => [t]
  | ContextBlock ts => ts
  end.

(** The methods of [slackApp.client] that the adapter calls, with their
    arguments. [blocks] is [None] when the property is not passed. *)
Inductive call : Type :=
| ChatPostMessage (channel : js_string) (thread_ts : option js_string)
    (blocks : option (list layout_block)) (text : js_string)
| FilesUploadV2 (channel_id : js_string) (thread_ts : option js_string)
    (file : buffer) (filename : js_string)
| ReactionsAdd (channel name timestamp : js_string)
| ReactionsRemove (channel name timestamp : js_string).

(** What an execution did, in order. The log lines carry their event name
    and payload; the time stamp in front of them is left out. *)
Inductive event : Type :=
| ConsoleInfo (name : js_string) (logged : IncomingMessage)
| ConsoleError (err : thrown)
| Invoke (im : IncomingMessage)      (* [commandHook.handler] called *)
| Call (c : call).

(** An outbound send: a message posted or a file uploaded. *)
Definition is_send (c : call) : bool :=
  match c with
  | ChatPostMessage _ _ _ _ | FilesUploadV2 _ _ _ _ => true
  | ReactionsAdd _ _ _ | ReactionsRemove _ _ _ => false
  end.

Definition is_reaction (c : call) : bool := negb (is_send c).

Fixpoint calls (tr : list event) : list call :=
  match tr with
  | [] => []
  | Call c :: tr' => c :: calls tr'
  | _ :: tr' => calls tr'
  end.

Definition sends (tr : list event) : list call := filter is_send (calls tr).

(** The state asynchronous code runs in: the trace so far, and the
    rejections of promises that nothing awaits. *)
Record world : Type := {
  trace : list event;
  unhandled : list thrown
}.

Definition start : world := {| trace := []; unhandled := [] |}.

Definition record (ev : event) (w : world) : world :=
  {| trace := trace w ++ [ev]; unhandled := unhandled w |}.

(** An asynchronous computation run to its end by awaiting it. *)
Definition async (A : Type) : Type := world -> world * settled A.

Definition ret {A} (a : A) : async A := fun w => (w, Fulfilled a).

Definition bind {A B} (m : async A) (k : A -> async B) : async B :=
  fun w =>
    match m w with
    | (w', Fulfilled a) => k a w'
    | (w', Rejected e) => (w', Rejected e)
    end.

Declare Scope async_scope.
Delimit Scope async_scope with async.
Notation "x <- m ;; k" := (bind m (fun x => k))
  (at level 61, m at next level, right associativity) : async_scope.
Notation "m ;; k" := (bind m (fun _ => k))
  (at level 61, right associativity) : async_scope.
Local Open Scope async_scope.

(** [if (c) { m }] *)
Definition when (c : bool) (m : async unit) : async unit :=
  if c then m else ret tt.

(** [try { body } catch (err) { handle err } finally { cleanup }]: the
    cleanup runs on every path; a fault of the cleanup replaces the
    outcome of what ran before it. *)
Definition try_catch_finally (body : async unit)
    (handle : thrown -> async unit) (cleanup : async unit) : async unit :=
  fun w =>
    let (w1, r1) :=
      match body w with
      | (w', Fulfilled _) => (w', Fulfilled tt)
      | (w', Rejected e) => handle e w'
      end in
    match cleanup w1 with
    | (w2, Fulfilled _) => (w2, r1)
    | (w2, Rejected e) => (w2, Rejected e)
    end.

(** A call of an async function whose promise is dropped: what the
    function does is done, the caller goes on whatever the outcome, and a
    rejection stays unhandled. *)
Definition floating (m : async unit) : async unit :=
  fun w =>
    match m w with
    | (w', Fulfilled _) => (w', Fulfilled tt)
    | (w', Rejected e) =>
        ({| trace := trace w'; unhandled := unhandled w' ++ [e] |},
         Fulfilled tt)
    end.

Definition console_info (name : js_string) (im : IncomingMessage) : async unit :=
  fun w => (record (ConsoleInfo name im) w, Fulfilled tt).

Definition console_error (err : thrown) : async unit :=
  fun w => (record (ConsoleError err) w, Fulfilled tt).

(** [extends P m]: running [m] appends events to the trace, each of
    which satisfies [P]. *)
Definition extends {A} (P : event -> Prop) (m : async A) : Prop :=
  forall w, exists evs,
    trace (fst (m w)) = trace w ++ evs /\ Forall P evs.

Section Client.

(** The workspace behind the client: whether a call, made after the given
    trace, is rejected and with what. *)
Variable platform : list event -> call -> option thrown.

(** [await slackApp.client.method(args)] *)
Definition perform (c : call) : async unit :=
  fun w =>
    (record (Call c) w,
     match platform (trace w) c with
     | None => Fulfilled tt
     | Some e => Rejected e
     end).

End Client.

(** [await hook.handler(im)] *)
Definition invoke (hook : CommandHook) (im : IncomingMessage) : async payload :=
  fun w => (record (Invoke im) w, handler hook im).

End Platform.

(* ================================================================== *)
(** ** The class [SlackQna] *)
(* ================================================================== *)

Module SlackQna.
Import Js Schema Platform Mrkdwn.
Local Open Scope async_scope.

Record SlackQnaArgs : Type := {
  slackBotToken : js_string;
  slackAppToken : js_string;
  args_botUserId : js_string;
  args_reactions : option Reactions
}.

(** The fields of an instance; [slackApp] is the client of [Platform]. *)
Record t : Type := {
  reactions : Reactions;
  commandHook : option CommandHook;
  botUserId : js_string
}.

(** [args.reactions?.field] *)
Definition optional (field : Reactions -> option js_string)
    (r : option Reactions) : option js_string :=
  match r with
  | Some r => field r
  | None => None
  end.

Definition constructor (args : SlackQnaArgs) : t :=
  {| reactions :=
       {| loading :=
            Some (or_default (optional loading (args_reactions args))
                             (lit "thinking_face"));
          success :=
            Some (or_default (optional success (args_reactions args))
                             (lit "white_check_mark"));
          failed :=
            Some (or_default (optional failed (args_reactions args))
                             (lit "x")) |};
     commandHook := None;
     botUserId := args_botUserId args |}.

Definition registerHandler (this : t) (hook : CommandHook) : t :=
  {| reactions := reactions this;
     commandHook := Some hook;
     botUserId := botUserId this |}.

(** [message.block === 'section' ? section : context] *)
Definition layout (b : option js_string) (text : js_string) : layout_block :=
  match b with
  | Some k => if eqb k (lit "section") then SectionBlock text
              else ContextBlock [text]
  | None => ContextBlock [text]
  end.

(** The emoji of a reaction the code has found truthy. *)
Definition emoji (r : option js_string) : js_string :=
  match r with Some s => s | None => [] end.

(** The text of the apology:
    [`Sorry, something went wrong. (${(err instanceof Error && err.message) ? err.message : ''})`] *)
Definition fault_text (err : thrown) : js_string :=
  match err with
  | ErrorObject msg => if truthy_string msg then msg else []
  | OtherValue _ => []
  end.

Definition apology (err : thrown) : js_string :=
  lit "Sorry, something went wrong. (" ++ fault_text err ++ lit ")".

Section Instance.

Variable platform : list event -> call -> option thrown.

Definition postMessage (message : OutgoingMessage) : async unit :=
  if eqb (dataType message) (lit "text") && is_string (data message) then
    perform platform
      (ChatPostMessage (out_channelId message) (out_threadId message)
         None (the_string (data message)))
  else if eqb (dataType message) (lit "mrkdwn")
          && is_string (data message) then
    let block := layout (block message) (the_string (data message)) in
    perform platform
      (ChatPostMessage (out_channelId message) (out_threadId message)
         (Some [block]) (the_string (data message)))
  else if eqb (dataType message) (lit "markdown")
          && is_string (data message) then
    let mrkdwn := markdownToMrkdwn (the_string (data message)) in
    let block := layout (block message) mrkdwn in
    perform platform
      (ChatPostMessage (out_channelId message) (out_threadId message)
         (Some [block]) (the_string (data message)))
  else if eqb (dataType message) (lit "image")
          && isBuffer (data message) then
    perform platform
      (FilesUploadV2 (out_channelId message) (out_threadId message)
         (the_buffer (data message)) (lit "data.png"))
  else if eqb (dataType message) (lit "file")
          && isBuffer (data message) then
    perform platform
      (FilesUploadV2 (out_channelId message) (out_threadId message)
         (the_buffer (data message)) (lit "data.txt"))
  else ret tt.

Variable this : t.

(** The reaction calls of [processMessage], each on the incoming message. *)
Definition react_add (r : option js_string) (im : IncomingMessage) : async unit :=
  when (truthy_opt r)
    (perform platform (ReactionsAdd (channelId im) (emoji r) (messageId im))).

Definition react_remove (r : option js_string) (im : IncomingMessage) : async unit :=
  when (truthy_opt r)
    (perform platform (ReactionsRemove (channelId im) (emoji r) (messageId im))).

(** The body of the [try] block. The reply is posted by a call of
    [postMessage] that is not awaited. *)
Definition protected (hook : CommandHook) (im : IncomingMessage) : async unit :=
  if isSync hook then
    message <- invoke hook im ;;
    when (truthy message)
      (floating
         (postMessage {| dataType := hook_dataType hook;
                         block := hook_block hook;
                         out_channelId := channelId im;
                         out_threadId := Some (messageId im);
                         data := message |})) ;;
    react_add (success (reactions this)) im
  else
    _ <- invoke hook im ;; ret tt.

(** The body of the [catch] block. *)
Definition on_fault (im : IncomingMessage) (err : thrown) : async unit :=
  console_error err ;;
  react_add (failed (reactions this)) im ;;
  postMessage {| dataType := lit "text";
                 block := None;
                 out_channelId := channelId im;
                 out_threadId := Some (messageId im);
                 data := Str (apology err) |}.

(** The body of the [finally] block. *)
Definition cleanup (im : IncomingMessage) : async unit :=
  react_remove (loading (reactions this)) im.

Definition processMessage (incomingMessage : IncomingMessage) : async unit :=
  console_info (lit "SLACK_PROCESS_MESSAGE") incomingMessage ;;
  match commandHook this with
  | None => ret tt
  | Some hook =>
      react_add (loading (reactions this)) incomingMessage ;;
      try_catch_finally
        (protected hook incomingMessage)
        (on_fault incomingMessage)
        (cleanup incomingMessage)
  end.

End Instance.

End SlackQna.

(* ================================================================== *)
(** ** Plain text, and patterns that cannot match *)
(* ================================================================== *)

Module Plain.
Import Js Regex.

(** A sufficient test that a pattern fails at a position: its leading
    terms ask for characters that are not there. [bol] tells whether the
    position is at the start of a line. *)
Fixpoint reject (m : bool) (ts : list term) (bol : bool) (b : js_string) : bool :=
  match ts with
  | One k :: ts' =>
      match b with
      | c :: b' =>
          negb (cls_mem k c) || reject m ts' (m && is_line_terminator c) b'
      | [] => true
      end
  | Rep k (S _) _ :: _ =>
      match b with
      | c :: _ => negb (cls_mem k c)
      | [] => true
      end
  | Bol :: ts' => negb bol || reject m ts' bol b
  | Open :: ts' | Close :: ts' => reject m ts' bol b
  | _ => false
  end.

(** The test at every position of a text. *)
Fixpoint never (m : bool) (ts : list term) (bol : bool) (s : js_string) : bool :=
  reject m ts bol s
  && match s with
     | [] => true
     | c :: s' => never m ts (m && is_line_terminator c) s'
     end.

(** Whether the position after [before] starts a line. *)
Definition line_start (m : bool) (before : js_string) : bool :=
  match before with
  | [] => true
  | c :: _ => m && is_line_terminator c
  end.

(** Characters that end no line. *)
Definition inline (c : code_unit) : bool := negb (is_line_terminator c).

(** Characters that end no line and open no markup: none of [*], [_],
    the backquote and the opening bracket. *)
Definition mild (c : code_unit) : bool :=
  negb (is_line_terminator c)
  && negb ((c =? 42) || (c =? 95) || (c =? 96) || (c =? 91))%N.

(** Mild characters and the asterisk. *)
Definition soft (c : code_unit) : bool := mild c || (c =? 42)%N.

(** Plain text: a line of mild characters, not empty, that starts with no
    white space. *)
Definition plain_text (t : js_string) : bool :=
  match t with
  | [] => false
  | c :: _ => negb (is_white_space c) && forallb mild t
  end.

(** [kills re P]: the pattern fails at every character of the class [P]
    and at the end of the text. *)
Definition kills (re : regex) (P : code_unit -> bool) : Prop :=
  (forall bol c b, P c = true ->
                   reject (multiline re) (body re) bol (c :: b) = true)
  /\ (forall bol, reject (multiline re) (body re) bol [] = true).

(** The marker of a header of the given level. *)
Definition hashes (level : nat) : js_string := repeat (N_of_ascii "#") level.

End Plain.

(* ================================================================== *)
(** ** The inputs and the vocabulary of the specification *)
(* ================================================================== *)

Module Spec.
Import Js Schema Platform SlackQna.

(** The sample document of the specification,
    ["# Title\n\nSome **bold** and _italic_ and `code`.\n* item one\n1. item two\n[link](http://x)"]. *)
Definition sample_markdown : js_string :=
  lit "# Title" ++ [LF; LF]
  ++ lit "Some **bold** and _italic_ and `code`." ++ [LF]
  ++ lit "* item one" ++ [LF]
  ++ lit "1. item two" ++ [LF]
  ++ lit "[link](http://x)".

(** The output the specification expects for it,
    ["*Title*\n\nSome *bold* and _italic_ and `code`.\n• item one\n• item two\n<http://x|link>"]. *)
Definition sample_expected : js_string :=
  lit "*Title*" ++ [LF; LF]
  ++ lit "Some *bold* and _italic_ and `code`." ++ [LF]
  ++ [BULLET] ++ lit " item one" ++ [LF]
  ++ [BULLET] ++ lit " item two" ++ [LF]
  ++ lit "<http://x|link>".

(** The same text with the empty line gone. *)
Definition sample_actual : js_string :=
  lit "*Title*" ++ [LF]
  ++ lit "Some *bold* and _italic_ and `code`." ++ [LF]
  ++ [BULLET] ++ lit " item one" ++ [LF]
  ++ [BULLET] ++ lit " item two" ++ [LF]
  ++ lit "<http://x|link>".

(** What the pass [replace(/^\s*/gm, '')] computes, as one scan: at the
    start of a line ([bol]) white space is dropped, line terminators
    included; elsewhere a character is kept, and a line terminator
    starts a line. *)
Fixpoint drop_line_starts (bol : bool) (s : js_string) : js_string :=
  match s with
  | [] => []
  | c :: s' =>
      if bol && is_white_space c then drop_line_starts true s'
      else c :: drop_line_starts (is_line_terminator c) s'
  end.

(** No line of the text starts with white space; in particular no line
    is empty but, possibly, the last one. *)
Fixpoint lines_start_black (bol : bool) (s : js_string) : bool :=
  match s with
  | [] => true
  | c :: s' =>
      negb (bol && is_white_space c)
      && lines_start_black (is_line_terminator c) s'
  end.

(** The recognized pairs of [dataType] and payload: text, mrkdwn or
    markdown with a string, image or file with a buffer. *)
Definition recognized (m : OutgoingMessage) : bool :=
  match data m with
  | Str _ =>
      eqb (dataType m) (lit "text") || eqb (dataType m) (lit "mrkdwn")
      || eqb (dataType m) (lit "markdown")
  | Buf _ =>
      eqb (dataType m) (lit "image") || eqb (dataType m) (lit "file")
  end.

(** Where a send goes. *)
Definition send_channel (c : call) : js_string :=
  match c with
  | ChatPostMessage ch _ _ _ | FilesUploadV2 ch _ _ _ => ch
  | ReactionsAdd ch _ _ | ReactionsRemove ch _ _ => ch
  end.

Definition send_thread (c : call) : option js_string :=
  match c with
  | ChatPostMessage _ th _ _ | FilesUploadV2 _ th _ _ => th
  | ReactionsAdd _ _ _ | ReactionsRemove _ _ _ => None
  end.

(** An incoming message posted inside the thread of an earlier one. *)
Definition sample_incoming : IncomingMessage :=
  {| messageId := lit "1700000000.000200";
     channelId := lit "C1";
     raw := lit "hello";
     message := lit "hello";
     threadId := Some (lit "1700000000.000100") |}.

(** Construction without a [reactions] argument. *)
Definition sample_args : SlackQnaArgs :=
  {| slackBotToken := lit "xoxb-token";
     slackAppToken := lit "xapp-token";
     args_botUserId := lit "U1";
     args_reactions := None |}.


(** A synchronous text hook that answers ["hi"]. *)
Definition hi_hook : CommandHook :=
  {| isSync := true;
     hook_dataType := lit "text";
     hook_block := None;
     handler := fun _ => Fulfilled (Str (lit "hi")) |}.

(** A synchronous text hook whose handler throws [{ message: 'boom' }],
    an object that is not an [Error]. *)
Definition plain_object_hook : CommandHook :=
  {| isSync := true;
     hook_dataType := lit "text";
     hook_block := None;
     handler := fun _ => Rejected (OtherValue (Some (lit "boom"))) |}.

(** A synchronous text hook whose handler throws [new Error('boom')]. *)
Definition boom_hook : CommandHook :=
  {| isSync := true;
     hook_dataType := lit "text";
     hook_block := None;
     handler := fun _ => Rejected (ErrorObject (lit "boom")) |}.

(** A synchronous text hook that answers the empty string. *)
Definition silent_hook : CommandHook :=
  {| isSync := true;
     hook_dataType := lit "text";
     hook_block := None;
     handler := fun _ => Fulfilled (Str []) |}.

(** A synchronous file hook that answers an empty [Buffer]. *)
Definition empty_file_hook : CommandHook :=
  {| isSync := true;
     hook_dataType := lit "file";
     hook_block := None;
     handler := fun _ => Fulfilled (Buf []) |}.

(** The message a fault carries, whatever its kind. *)
Definition carried_message (e : thrown) : js_string :=
  match e with
  | ErrorObject msg => msg
  | OtherValue (Some msg) => msg
  | OtherValue None => []
  end.

(** A send goes to the channel of [im] and to the thread that [im]
    itself anchors. *)
Definition replies_under (im : IncomingMessage) (ev : event) : Prop :=
  match ev with
  | Call c =>
      is_send c = true ->
      send_channel c = channelId im /\ send_thread c = Some (messageId im)
  | _ => True
  end.


(** A platform that accepts every call. *)
Definition accepting : list event -> call -> option thrown :=
  fun _ _ => None.

(** A platform on which no message can be posted and no file uploaded. *)
Definition offline : list event -> call -> option thrown :=
  fun _ c => if is_send c then Some (ErrorObject (lit "network")) else None.

(** A platform that accepts every reaction call. *)
Definition accepts_reactions (platform : list event -> call -> option thrown) : Prop :=
  forall tr c, is_reaction c = true -> platform tr c = None.

End Spec.

(* ================================================================== *)
(** ** Text without markup, and patterns that read one line *)
(* ================================================================== *)

Module Text.
Import Js Regex Mrkdwn Plain.

(** Characters that open no markup: none of [*], [_], the backquote and
    the opening bracket. Line terminators are among them. *)
Definition unmarked (c : code_unit) : bool :=
  negb ((c =? 42) || (c =? 95) || (c =? 96) || (c =? 91))%N.

(** The characters a header or an ordered item starts with. *)
Definition opens_item (c : code_unit) : bool := (c =? 35)%N || is_digit c.

(** No line of the text starts with [#] or with a digit. *)
Fixpoint lines_start_plain (bol : bool) (s : js_string) : bool :=
  match s with
  | [] => true
  | c :: s' =>
      negb (bol && opens_item c)
      && lines_start_plain (is_line_terminator c) s'
  end.

(** The classes that hold no line terminator. *)
Definition inline_cls (k : cls) : bool :=
  match k with
  | Chr c => negb (is_line_terminator c)
  | Dot | Digit => true
  | Space | AnyChar | NotChr _ => false
  end.

(** The patterns that read no line terminator. *)
Definition tame (ts : list term) : bool :=
  forallb (fun t => match t with
                    | One k | Rep k _ _ => inline_cls k
                    | _ => true
                    end) ts.

(** The replacement patterns whose own text holds no line terminator. *)
Definition one_line (ps : list piece) : bool :=
  forallb (fun p => match p with
                    | Text s => forallb (fun c => negb (is_line_terminator c)) s
                    | Ref _ => true
                    end) ps.

(** Characters of a line that open neither bold text, nor code, nor a
    link: no line terminator, [*], backquote or opening bracket. *)
Definition calm (c : code_unit) : bool :=
  negb (is_line_terminator c)
  && negb ((c =? 42) || (c =? 96) || (c =? 91))%N.

(** A text that is empty or starts with neither white space, [#] nor a
    digit. *)
Definition starts_plain (a : js_string) : bool :=
  match a with
  | [] => true
  | c :: _ => negb (is_white_space c || opens_item c)
  end.

(** Calm characters and the opening bracket. *)
Definition loose (c : code_unit) : bool := calm c || (c =? 91)%N.

(** The state of a match that has read nothing but the characters of
    lines since the position after [before]. *)
Definition reading (before : js_string) (st : mstate) : Prop :=
  exists m0,
    pre st = rev m0 ++ before
    /\ forallb inline m0 = true
    /\ match opened st with
       | Some n => length before <= n
       | None => True
       end
    /\ Forall (fun g => forallb inline g = true) (caps st).

End Text.

(* ================================================================== *)
(** ** The runs of [processMessage] *)
(* ================================================================== *)

Module Runs.
Import Js Schema Platform SlackQna.

(** The call of a reaction step on the incoming message, when the
    reaction is configured. *)
Definition added (r : option js_string) (im : IncomingMessage) : list event :=
  if truthy_opt r
  then [Call (ReactionsAdd (channelId im) (emoji r) (messageId im))]
  else [].

Definition removed (r : option js_string) (im : IncomingMessage) : list event :=
  if truthy_opt r
  then [Call (ReactionsRemove (channelId im) (emoji r) (messageId im))]
  else [].

(** The first log line of [processMessage]. *)
Definition process_log (im : IncomingMessage) : event :=
  ConsoleInfo (lit "SLACK_PROCESS_MESSAGE") im.

(** The apology for a fault, as a call. *)
Definition apology_call (im : IncomingMessage) (err : thrown) : call :=
  ChatPostMessage (channelId im) (Some (messageId im)) None (apology err).

(** The reply a synchronous hook has [postMessage] send. *)
Definition reply (hook : CommandHook) (im : IncomingMessage) (content : payload)
  : OutgoingMessage :=
  {| dataType := hook_dataType hook;
     block := hook_block hook;
     out_channelId := channelId im;
     out_threadId := Some (messageId im);
     data := content |}.

Definition is_invoke (ev : event) : bool :=
  match ev with Invoke _ => true | _ => false end.

Definition is_error_log (ev : event) : bool :=
  match ev with ConsoleError _ => true | _ => false end.

Definition is_send_event (ev : event) : bool :=
  match ev with Call c => is_send c | _ => false end.

Definition is_add (ev : event) : bool :=
  match ev with Call (ReactionsAdd _ _ _) => true | _ => false end.

Definition is_remove (ev : event) : bool :=
  match ev with Call (ReactionsRemove _ _ _) => true | _ => false end.

Definition count (f : event -> bool) (evs : list event) : nat :=
  length (filter f evs).

(** [at_most f n m]: running [m] appends at most [n] events of the kind
    [f] to the trace. *)
Definition at_most {A} (f : event -> bool) (n : nat) (m : async A) : Prop :=
  forall w, exists evs,
    trace (fst (m w)) = trace w ++ evs /\ count f evs <= n.

(** A reaction call is made on the incoming message, with one of the
    emojis of the instance. *)
Definition reacts_to (this : t) (im : IncomingMessage) (ev : event) : Prop :=
  match ev with
  | Call (ReactionsAdd ch name ts) =>
      ch = channelId im /\ ts = messageId im
      /\ In (Some name) [loading (reactions this); success (reactions this);
                         failed (reactions this)]
  | Call (ReactionsRemove ch name ts) =>
      ch = channelId im /\ ts = messageId im
      /\ Some name = loading (reactions this)
  | _ => True
  end.

(** The call [postMessage] makes for a message, if it makes one. *)
Definition the_call (message : OutgoingMessage) : option call :=
  if eqb (dataType message) (lit "text") && is_string (data message) then
    Some (ChatPostMessage (out_channelId message) (out_threadId message)
            None (the_string (data message)))
  else if eqb (dataType message) (lit "mrkdwn")
          && is_string (data message) then
    Some (ChatPostMessage (out_channelId message) (out_threadId message)
            (Some [layout (block message) (the_string (data message))])
            (the_string (data message)))
  else if eqb (dataType message) (lit "markdown")
          && is_string (data message) then
    Some (ChatPostMessage (out_channelId message) (out_threadId message)
            (Some [layout (block message)
                     (Mrkdwn.markdownToMrkdwn (the_string (data message)))])
            (the_string (data message)))
  else if eqb (dataType message) (lit "image")
          && isBuffer (data message) then
    Some (FilesUploadV2 (out_channelId message) (out_threadId message)
            (the_buffer (data message)) (lit "data.png"))
  else if eqb (dataType message) (lit "file")
          && isBuffer (data message) then
    Some (FilesUploadV2 (out_channelId message) (out_threadId message)
            (the_buffer (data message)) (lit "data.txt"))
  else None.

(** The call that posts the reply of a synchronous hook: none when the
    content is falsy or is not what the data type of the hook asks for. *)
Definition reply_call (hook : CommandHook) (im : IncomingMessage)
    (content : payload) : option call :=
  if truthy content then the_call (reply hook im content) else None.

Definition events_of (c : option call) : list event :=
  match c with Some c => [Call c] | None => [] end.

(** The rejection of a call made after the trace [tr], if it is rejected. *)
Definition rejection (platform : list event -> call -> option thrown)
    (tr : list event) (c : option call) : list thrown :=
  match c with
  | Some c => match platform tr c with Some e => [e] | None => [] end
  | None => []
  end.

(** A platform that rejects the additions of one reaction, and nothing
    else. *)
Definition rejects_add (name : js_string) (e : thrown)
  : list event -> call -> option thrown :=
  fun _ c =>
    match c with
    | ReactionsAdd _ n _ => if eqb n name then Some e else None
    | _ => None
    end.

(** A platform that rejects the removal of reactions, and nothing else. *)
Definition rejects_remove (e : thrown) : list event -> call -> option thrown :=
  fun _ c =>
    match c with
    | ReactionsRemove _ _ _ => Some e
    | _ => None
    end.

(** A hook that is not synchronous and answers ["hi"]. *)
Definition detached_hook : CommandHook :=
  {| isSync := false;
     hook_dataType := lit "text";
     hook_block := None;
     handler := fun _ => Fulfilled (Str (lit "hi")) |}.

End Runs.

(* ================================================================== *)
(** ** The listener: [listen] and its callbacks *)
(* ================================================================== *)

Module Listener.
Import Js Schema Platform SlackQna.

(** [SlackQnaListenArgs]: three optional flags. *)
Record SlackQnaListenArgs : Type := {
  command : option bool;
  mention : option bool;
  directMessage : option bool
}.


(** The fields that the callbacks read of the events of the platform:
    of a message ([GenericMessageEvent], whose [text] is optional) and of
    an [app_mention] event (whose [text] is a string). *)
Module MessageEvent.
Record t : Type := {
  ts : js_string;
  thread_ts : option js_string;
  channel : js_string;
  text : option js_string
}.
End MessageEvent.

Module AppMentionEvent.
Record t : Type := {
  text : js_string;
  ts : js_string;
  channel : js_string;
  thread_ts : option js_string
}.
End AppMentionEvent.

(** [String.prototype.replace] with a string to search for: the first
    occurrence is replaced. The replacement text of the source is empty,
    so that no [$] pattern is to expand. *)
Fixpoint replace_first (s search replacement : js_string) : js_string :=
  if starts_with s search then replacement ++ skipn (length search) s
  else match s with
       | [] => []
       | c :: s' => c :: replace_first s' search replacement
       end.

(** The lines that [listen] and its callbacks write with [console.info],
    by what they print. *)
Inductive notice : Type :=
| SLACK_START_LISTENING (listenArgs : SlackQnaListenArgs)
| SLACK_RECEIVED_DIRECT_MESSAGE (message : MessageEvent.t)
| SLACK_RECEIVED_MENTION (event : AppMentionEvent.t).

(** What a callback does with an event: it returns at once, or it writes
    a line and awaits [processMessage] on an incoming message. *)
Inductive handled : Type :=
| Ignored
| Processed (logged : notice) (incomingMessage : IncomingMessage).


(** The callback given to [slackApp.event('app_mention', ...)]. *)
Definition on_mention (this : SlackQna.t) (event : AppMentionEvent.t)
  : handled :=
  let userIdTag := lit "<@" ++ botUserId this ++ lit ">" in
  let text := AppMentionEvent.text event in
  if negb (includes text userIdTag) then Ignored
  else
    Processed (SLACK_RECEIVED_MENTION event)
      {| messageId := AppMentionEvent.ts event;
         channelId := AppMentionEvent.channel event;
         threadId := AppMentionEvent.thread_ts event;
         raw := text;
         message := trim (replace_first text userIdTag []) |}.




(** The tag of the bot in the text of a message. *)
Definition tag_of (this : SlackQna.t) : js_string :=
  lit "<@" ++ botUserId this ++ lit ">".

(** A mention of the sample instance. *)
Definition sample_mention : AppMentionEvent.t :=
  {| AppMentionEvent.text := lit "<@U2> hey <@U1>  what is up? <@U1> ";
     AppMentionEvent.ts := lit "1700000000.000200";
     AppMentionEvent.channel := lit "C1";
     AppMentionEvent.thread_ts := None |}.

End Listener.

(* ================================================================== *)
(** ** Strings *)
(* ================================================================== *)

Module JsFacts.
Import Js.

Lemma eqb_eq (s t : js_string) : eqb s t = true <-> s = t.
Proof.
  revert t. induction s as [|c s IH]; intros [|d t]; simpl;
    try (split; [discriminate | congruence]).
  - split; reflexivity.
  - rewrite andb_true_iff, N.eqb_eq, IH. split.
    + intros [-> ->]. reflexivity.
    + intros E. injection E as -> ->. split; reflexivity.
Qed.

Lemma eqb_refl (s : js_string) : eqb s s = true.
Proof. now apply eqb_eq. Qed.

Lemma eqb_neq (s t : js_string) : eqb s t = false <-> s <> t.
Proof.
  split.
  - intros E H. apply eqb_eq in H. congruence.
  - intros H. destruct (eqb s t) eqn:E; [|reflexivity].
    apply eqb_eq in E. contradiction.
Qed.

End JsFacts.

(* ================================================================== *)
(** ** The Text Transformer on the inputs of the specification *)
(* ================================================================== *)

Module MrkdwnFacts.
Import Js Regex Mrkdwn Plain Spec.

(** *** The pass that strips leading white space *)

(** A greedy star followed by nothing takes the longest run. *)
Lemma rep_star_longest (k : cls) (input : js_string) :
  forall st,
    rep k true (fun s => Some s) 0 st input
    = Some {| pre := rev (take_while (cls_mem k) input) ++ pre st;
              rest := drop_while (cls_mem k) input;
              opened := opened st; caps := caps st |}.
Proof.
  induction input as [|c input IH]; intros st; [reflexivity|].
  cbn [rep take_while drop_while].
  destruct (cls_mem k c); [|reflexivity].
  rewrite IH. cbn [advance pre opened caps rev].
  rewrite <- app_assoc. reflexivity.
Qed.

Lemma firstn_take_while (p : code_unit -> bool) (s : js_string) :
  firstn (length (take_while p s)) s = take_while p s.
Proof.
  induction s as [|c s IH]; [reflexivity|].
  cbn [take_while]. destruct (p c); [|reflexivity].
  cbn [length firstn]. rewrite IH. reflexivity.
Qed.

Lemma skipn_take_while (p : code_unit -> bool) (s : js_string) :
  skipn (length (take_while p s)) s = drop_while p s.
Proof.
  induction s as [|c s IH]; [reflexivity|].
  cbn [take_while drop_while]. destruct (p c); [|reflexivity].
  cbn [length skipn]. exact IH.
Qed.

Lemma length_take_while_le (p : code_unit -> bool) (s : js_string) :
  length (take_while p s) <= length s.
Proof.
  induction s as [|c s IH]; [apply Nat.le_refl|].
  cbn [take_while]. destruct (p c); simpl; lia.
Qed.

(** Where [/^\s*/m] matches and what: at the start of a line, the white
    space that follows, line feeds included. *)
Lemma match_leading_space (before after : js_string) :
  match_at re_leading_space before after
  = if match before with
       | [] => true
       | c :: _ => is_line_terminator c
       end
    then Some {| matched := take_while is_white_space after; groups := [] |}
    else None.
Proof.
  assert (Hrun : forall st : mstate,
             pre st = before -> rest st = after -> caps st = [] ->
             match rep Space true (run true []) 0 st after with
             | Some st' =>
                 Some {| matched :=
                           firstn (length (pre st') - length before) after;
                         groups := caps st' |}
             | None => None
             end
             = Some {| matched := take_while is_white_space after;
                       groups := [] |}).
  { intros st Hpre Hrest Hcaps.
    change (run true []) with (fun s : mstate => Some s).
    rewrite rep_star_longest. cbn [pre caps cls_mem]. rewrite Hpre, Hcaps.
    rewrite length_app, length_rev, Nat.add_sub, firstn_take_while.
    reflexivity. }
  unfold match_at, re_leading_space, star.
  cbn [run body multiline rest]. unfold at_bol. cbn [pre andb].
  destruct before as [|b before].
  - apply Hrun; reflexivity.
  - destruct (is_line_terminator b); [apply Hrun; reflexivity | reflexivity].
Qed.

(** Stepping over the rest of a match. *)
Lemma replace_from_skip (re : regex) (r : replacement) (k : nat) :
  forall before after,
    k <= length after ->
    replace_from re r k before after
    = replace_from re r 0 (rev (firstn k after) ++ before) (skipn k after).
Proof.
  induction k as [|k IH]; intros before after Hk; [reflexivity|].
  destruct after as [|c after]; [simpl in Hk; lia|].
  cbn [replace_from firstn skipn rev]. rewrite IH by (simpl in Hk; lia).
  rewrite <- app_assoc. reflexivity.
Qed.

Lemma drop_line_starts_black (b : bool) (s : js_string) :
  match s with [] => true | c :: _ => negb (is_white_space c) end = true ->
  drop_line_starts b s = drop_line_starts true s.
Proof.
  destruct s as [|c s]; [reflexivity|]. cbn [drop_line_starts].
  intros H. apply negb_true_iff in H. rewrite H, !andb_false_r. reflexivity.
Qed.

Lemma drop_while_head (p : code_unit -> bool) (s : js_string) :
  match drop_while p s with [] => true | c :: _ => negb (p c) end = true.
Proof.
  induction s as [|c s IH]; [reflexivity|].
  cbn [drop_while]. destruct (p c) eqn:E; [exact IH|].
  rewrite E. reflexivity.
Qed.

Lemma drop_line_starts_run (s : js_string) :
  drop_line_starts true s
  = drop_line_starts true (drop_while is_white_space s).
Proof.
  induction s as [|c s IH]; [reflexivity|].
  cbn [drop_line_starts drop_while andb].
  destruct (is_white_space c) eqn:E; [exact IH|].
  cbn [drop_line_starts andb]. rewrite E. reflexivity.
Qed.

(** The replace loop of the pass computes the scan. *)
Lemma replace_leading_space_from (n : nat) :
  forall before after,
    length after <= n ->
    replace_from re_leading_space (Pattern [Text []]) 0 before after
    = drop_line_starts
        (match before with [] => true | c :: _ => is_line_terminator c end)
        after.
Proof.
  induction n as [|n IH]; intros before after Hn.
  - destruct after; [|simpl in Hn; lia].
    cbn [replace_from]. rewrite match_leading_space.
    destruct (match before with [] => true | c :: _ => is_line_terminator c end);
      reflexivity.
  - destruct after as [|c after].
    + cbn [replace_from]. rewrite match_leading_space.
      destruct (match before with [] => true | c :: _ => is_line_terminator c end);
        reflexivity.
    + cbn [replace_from]. rewrite match_leading_space.
      destruct (match before with [] => true | c :: _ => is_line_terminator c end).
      * cbn [matched expand flat_map expand_piece app take_while].
        cbn [drop_line_starts andb].
        destruct (is_white_space c) eqn:Ews.
        -- cbn [length].
           rewrite replace_from_skip by apply length_take_while_le.
           rewrite IH by (rewrite length_skipn; simpl in Hn; lia).
           rewrite skipn_take_while.
           rewrite drop_line_starts_black by apply drop_while_head.
           symmetry. apply drop_line_starts_run.
        -- cbn [length]. rewrite IH by (simpl in Hn; lia). reflexivity.
      * cbn [drop_line_starts andb].
        rewrite IH by (simpl in Hn; lia). reflexivity.
Qed.

(** The second pass of the transformer, for every text: at the start of
    each line it drops the white space, the line feeds of empty lines
    among it. *)
Theorem replace_leading_space (s : js_string) :
  replace s re_leading_space (Pattern [Text []]) = drop_line_starts true s.
Proof.
  unfold replace. apply (replace_leading_space_from (length s)).
  apply Nat.le_refl.
Qed.

Lemma drop_line_starts_clean (s : js_string) :
  forall b, lines_start_black b (drop_line_starts b s) = true.
Proof.
  induction s as [|c s IH]; intros b; [reflexivity|].
  cbn [drop_line_starts].
  destruct (b && is_white_space c) eqn:E.
  - apply andb_true_iff in E as [-> _]. apply IH.
  - cbn [lines_start_black]. rewrite E. apply IH.
Qed.

Lemma empty_line_not_black (a b : js_string) :
  forall bol, lines_start_black bol (a ++ [LF; LF] ++ b) = false.
Proof.
  induction a as [|c a IH]; intros bol.
  - cbn. apply andb_false_r.
  - cbn [app lines_start_black]. rewrite IH. apply andb_false_r.
Qed.

(** Whatever the first pass kept, no empty line survives the second. *)
Theorem leading_space_pass_leaves_no_empty_line (s a b : js_string) :
  replace s re_leading_space (Pattern [Text []]) <> a ++ [LF; LF] ++ b.
Proof.
  intros H.
  pose proof (drop_line_starts_clean s true) as Hc.
  rewrite <- replace_leading_space, H, empty_line_not_black in Hc.
  discriminate Hc.
Qed.

(** *** Patterns that cannot match *)

Lemma rep_state (k : cls) (greedy : bool) (cont : mstate -> option mstate)
    (input : js_string) :
  forall min st st',
    pre st = pre st' -> opened st = opened st' -> caps st = caps st' ->
    rep k greedy cont min st input = rep k greedy cont min st' input.
Proof.
  intros min st st' Hp Ho Hc. destruct input as [|c input].
  - destruct min; cbn [rep]; rewrite ?Hp, ?Ho, ?Hc; reflexivity.
  - assert (Ha : advance c st input = advance c st' input)
      by (unfold advance; rewrite Hp, Ho, Hc; reflexivity).
    destruct min; cbn [rep]; rewrite ?Hp, ?Ho, ?Hc, ?Ha; reflexivity.
Qed.

Lemma reject_sound (m : bool) (ts : list term) :
  forall st, reject m ts (at_bol m st) (rest st) = true -> run m ts st = None.
Proof.
  induction ts as [|t ts IH]; intros st H; [discriminate H|].
  destruct t as [k|k min greedy| | | |]; cbn [reject run] in *.
  - destruct (rest st) as [|c r] eqn:Er; [reflexivity|].
    destruct (cls_mem k c); [|reflexivity].
    cbn [negb orb] in H. apply IH. exact H.
  - destruct min as [|min]; [discriminate H|].
    destruct (rest st) as [|c r] eqn:Er; [reflexivity|].
    cbn [rep]. apply negb_true_iff in H. rewrite H. reflexivity.
  - destruct (at_bol m st) eqn:E; [|reflexivity].
    cbn [negb orb] in H. apply IH. rewrite E. exact H.
  - discriminate H.
  - apply IH. exact H.
  - apply IH. exact H.
Qed.

Lemma match_at_rejected (re : regex) (before after : js_string) :
  reject (multiline re) (body re) (line_start (multiline re) before) after = true ->
  match_at re before after = None.
Proof.
  intros H. unfold match_at. rewrite reject_sound; [reflexivity|].
  exact H.
Qed.

Lemma never_sound (re : regex) (r : replacement) (after : js_string) :
  forall before,
    never (multiline re) (body re) (line_start (multiline re) before) after = true ->
    replace_from re r 0 before after = after.
Proof.
  induction after as [|c after IH]; intros before H;
    cbn [never] in H; apply andb_true_iff in H as [H1 H2];
    cbn [replace_from]; rewrite (match_at_rejected _ _ _ H1); [reflexivity|].
  rewrite IH; [reflexivity|]. exact H2.
Qed.

Lemma mild_facts (c : code_unit) :
  mild c = true ->
  is_line_terminator c = false
  /\ (c =? 10)%N = false /\ (c =? 42)%N = false /\ (c =? 95)%N = false
  /\ (c =? 96)%N = false /\ (c =? 91)%N = false.
Proof.
  unfold mild. intros H. apply andb_true_iff in H as [H1 H2].
  apply negb_true_iff in H1, H2.
  repeat (apply orb_false_iff in H2 as [H2 ?]).
  assert (H10 : (c =? 10)%N = false).
  { unfold is_line_terminator in H1.
    repeat (apply orb_false_iff in H1 as [H1 ?]). exact H1. }
  repeat split; assumption.
Qed.

Lemma black_facts (c : code_unit) :
  is_white_space c = false -> (c =? 32)%N = false.
Proof.
  unfold is_white_space. intros H.
  repeat (apply orb_false_iff in H as [H ?]). assumption.
Qed.

Lemma never_kills (re : regex) (P : code_unit -> bool) :
  kills re P ->
  forall s bol, forallb P s = true ->
                never (multiline re) (body re) bol s = true.
Proof.
  intros [Hk He] s. induction s as [|c s IH]; intros bol H; cbn [never].
  - rewrite He. reflexivity.
  - cbn [forallb] in H. apply andb_true_iff in H as [Hc Hs].
    rewrite (Hk bol c s Hc), IH by exact Hs. reflexivity.
Qed.

(** A pattern of the class [P] leaves a text of the class as it is. *)
Lemma replace_kills (re : regex) (P : code_unit -> bool) (r : replacement) (s : js_string) :
  kills re P -> forallb P s = true -> replace s re r = s.
Proof.
  intros Hk Hs. unfold replace. apply never_sound.
  apply (never_kills re P Hk). exact Hs.
Qed.

(** A pattern anchored by [^] fails inside a line. *)
Lemma never_inside_line (m : bool) (ts : list term) (s : js_string) :
  forallb inline s = true -> never m (Bol :: ts) false s = true.
Proof.
  induction s as [|c s IH]; intros H; [reflexivity|].
  cbn [forallb] in H. apply andb_true_iff in H as [Hc Hs].
  unfold inline in Hc. apply negb_true_iff in Hc.
  cbn [never reject negb orb andb]. rewrite Hc, andb_false_r. apply IH, Hs.
Qed.

(** A pattern anchored by [^] leaves a one-line text as it is when it
    fails at its start. *)
Lemma replace_anchored (re : regex) (ts : list term) (r : replacement) (s : js_string) :
  body re = Bol :: ts ->
  forallb inline s = true ->
  reject (multiline re) (body re) true s = true ->
  replace s re r = s.
Proof.
  intros Hb Hs H0. unfold replace. apply never_sound. cbn [line_start].
  destruct s as [|c s]; cbn [never]; rewrite H0; [reflexivity|].
  cbn [forallb] in Hs. apply andb_true_iff in Hs as [Hc Hs].
  unfold inline in Hc. apply negb_true_iff in Hc.
  rewrite Hc, andb_false_r, Hb. cbn [andb]. apply never_inside_line, Hs.
Qed.

Lemma soft_facts (c : code_unit) :
  soft c = true ->
  is_line_terminator c = false
  /\ (c =? 10)%N = false /\ (c =? 95)%N = false
  /\ (c =? 96)%N = false /\ (c =? 91)%N = false.
Proof.
  unfold soft. intros H. apply orb_true_iff in H as [H|H].
  - destruct (mild_facts c H) as (? & ? & ? & ? & ? & ?).
    repeat split; assumption.
  - apply N.eqb_eq in H. subst c. repeat split; reflexivity.
Qed.

Lemma mild_soft (s : js_string) : forallb mild s = true -> forallb soft s = true.
Proof.
  induction s as [|c s IH]; [reflexivity|]. cbn [forallb]. intros H.
  apply andb_true_iff in H as [Hc Hs]. unfold soft at 1.
  rewrite Hc, IH by exact Hs. reflexivity.
Qed.

Lemma soft_inline (s : js_string) : forallb soft s = true -> forallb inline s = true.
Proof.
  induction s as [|c s IH]; [reflexivity|]. cbn [forallb]. intros H.
  apply andb_true_iff in H as [Hc Hs]. unfold inline at 1.
  destruct (soft_facts c Hc) as [-> _]. rewrite IH by exact Hs. reflexivity.
Qed.

Ltac kills_tac facts :=
  split;
  [ let bol := fresh "bol" in let c := fresh "c" in
    let b := fresh "b" in let H := fresh "H" in
    intros bol c b H;
    let F := fresh "F" in
    pose proof (facts c H) as F;
    repeat match type of F with
           | _ /\ _ => let E := fresh "E" in destruct F as [E F]
           end;
    match goal with
    | |- reject ?m ?ts _ _ = _ =>
        let m' := eval vm_compute in m in
        let ts' := eval vm_compute in ts in
        change (reject m' ts' bol (c :: b) = true)
    end;
    cbn [reject cls_mem negb orb];
    repeat match goal with
           | E : (c =? _)%N = false |- _ => rewrite E
           end;
    reflexivity
  | intros bol; reflexivity ].

Lemma kills_blank_lines : kills re_blank_lines soft.
Proof. kills_tac soft_facts. Qed.
Lemma kills_italic : kills re_italic soft.
Proof. kills_tac soft_facts. Qed.
Lemma kills_inline_code : kills re_inline_code soft.
Proof. kills_tac soft_facts. Qed.
Lemma kills_code_block : kills re_code_block soft.
Proof. kills_tac soft_facts. Qed.
Lemma kills_link : kills re_link soft.
Proof. kills_tac soft_facts. Qed.
Lemma kills_bold : kills re_bold mild.
Proof. kills_tac mild_facts. Qed.

Lemma drop_line_starts_inside (s : js_string) :
  forallb inline s = true -> drop_line_starts false s = s.
Proof.
  induction s as [|c s IH]; [reflexivity|]. cbn [forallb]. intros H.
  apply andb_true_iff in H as [Hc Hs]. unfold inline in Hc.
  apply negb_true_iff in Hc.
  cbn [drop_line_starts andb]. rewrite Hc, IH by exact Hs. reflexivity.
Qed.

(** The second pass leaves one line that starts with no white space as
    it is. *)
Lemma replace_leading_space_line (c : code_unit) (s : js_string) :
  is_white_space c = false -> forallb inline (c :: s) = true ->
  replace (c :: s) re_leading_space (Pattern [Text []]) = c :: s.
Proof.
  intros Hw H. rewrite replace_leading_space.
  cbn [forallb] in H. apply andb_true_iff in H as [Hc Hs].
  unfold inline in Hc. apply negb_true_iff in Hc.
  cbn [drop_line_starts andb]. rewrite Hw, Hc.
  rewrite drop_line_starts_inside by exact Hs. reflexivity.
Qed.

(** A greedy repetition takes a run that the next character ends, when
    what follows the repetition matches after the run. *)
Lemma rep_greedy_run (k : cls) (cont : mstate -> option mstate)
    (rest0 : js_string) (r : mstate) :
  match rest0 with [] => true | c :: _ => negb (cls_mem k c) end = true ->
  forall run0 st,
    forallb (cls_mem k) run0 = true ->
    cont {| pre := rev run0 ++ pre st; rest := rest0;
            opened := opened st; caps := caps st |} = Some r ->
    rep k true cont 0 st (run0 ++ rest0) = Some r.
Proof.
  intros Hend run0. induction run0 as [|c run0 IH]; intros st Hrun Hcont.
  - cbn [app rev] in *. destruct rest0 as [|c rest0]; cbn [rep].
    + exact Hcont.
    + apply negb_true_iff in Hend. rewrite Hend. exact Hcont.
  - cbn [forallb] in Hrun. apply andb_true_iff in Hrun as [Hc Hrun].
    cbn [app rep]. rewrite Hc.
    rewrite (IH (advance c st (run0 ++ rest0)) Hrun); [reflexivity|].
    cbn [advance pre opened caps]. cbn [rev] in Hcont.
    rewrite <- app_assoc in Hcont. exact Hcont.
Qed.

(** A lazy repetition goes on as long as what follows it fails. *)
Lemma rep_lazy_run (k : cls) (cont : mstate -> option mstate) (rest0 : js_string) :
  forall run0 st,
    forallb (cls_mem k) run0 = true ->
    (forall c b st', In c run0 -> rest st' = c :: b -> cont st' = None) ->
    rep k false cont 0 st (run0 ++ rest0)
    = rep k false cont 0
        {| pre := rev run0 ++ pre st; rest := rest0;
           opened := opened st; caps := caps st |} rest0.
Proof.
  induction run0 as [|c run0 IH]; intros st Hrun Hcont.
  - cbn [app rev]. apply rep_state; reflexivity.
  - cbn [forallb] in Hrun. apply andb_true_iff in Hrun as [Hc Hrun].
    cbn [app rep].
    rewrite (Hcont c (run0 ++ rest0)
               {| pre := pre st; rest := c :: run0 ++ rest0;
                  opened := opened st; caps := caps st |}
               (or_introl eq_refl) eq_refl), Hc.
    rewrite (IH (advance c st (run0 ++ rest0)) Hrun).
    + cbn [advance pre opened caps rev]. rewrite <- app_assoc. reflexivity.
    + intros d b st' Hd. apply Hcont. right. exact Hd.
Qed.

(** The text of a group that was opened before [t] was read. *)
Lemma captured_run (t before : js_string) (rest0 : js_string) (cs : list js_string) :
  captured {| pre := rev t ++ before; rest := rest0;
              opened := Some (length before); caps := cs |} = t.
Proof.
  unfold captured. cbn [opened pre].
  rewrite length_app, length_rev, Nat.add_sub.
  rewrite <- (length_rev t) at 1. rewrite firstn_app, Nat.sub_diag, firstn_all.
  cbn [firstn]. rewrite app_nil_r. apply rev_involutive.
Qed.

(** A match of the whole text is replaced once. *)
Lemma replace_whole (re : regex) (r : replacement) (s : js_string) (f : found) :
  match_at re [] s = Some f ->
  matched f = s ->
  s <> [] ->
  (forall bol, reject (multiline re) (body re) bol [] = true) ->
  replace s re r = expand r f.
Proof.
  intros Hm Hf Hs Hend. unfold replace.
  destruct s as [|c s]; [contradiction|].
  cbn [replace_from]. rewrite Hm, Hf. cbn [length].
  rewrite replace_from_skip by apply Nat.le_refl.
  rewrite skipn_all. cbn [replace_from].
  rewrite match_at_rejected by apply Hend.
  apply app_nil_r.
Qed.

Ltac norm_match :=
  unfold match_at;
  match goal with
  | |- context [run ?m ?ts ?st] =>
      let m' := eval vm_compute in m in
      let ts' := eval vm_compute in ts in
      change (run m ts st) with (run m' ts' st)
  end;
  cbn [run at_bol at_eol pre rest opened caps advance cls_mem andb negb
       N.eqb Pos.eqb length].

Lemma rep_greedy_all (k : cls) (cont : mstate -> option mstate) (r : mstate) :
  forall t st,
    forallb (cls_mem k) t = true ->
    cont {| pre := rev t ++ pre st; rest := [];
            opened := opened st; caps := caps st |} = Some r ->
    rep k true cont 0 st t = Some r.
Proof.
  intros t st Ht Hc. rewrite <- (app_nil_r t) at 1.
  apply rep_greedy_run; [reflexivity | exact Ht | exact Hc].
Qed.

Lemma firstn_whole (s p : js_string) :
  length p = length s -> firstn (length p - 0) s = s.
Proof. intros H. rewrite Nat.sub_0_r, H. apply firstn_all. Qed.

(** [(.*$)] at the end of a pattern takes the rest of a one-line text. *)
Lemma rest_of_line (t before : js_string) (n : nat) (cs : list js_string) :
  n = length before ->
  forallb inline t = true ->
  rep Dot true (run true [Eol; Close]) 0
    {| pre := before; rest := t; opened := Some n; caps := cs |} t
  = Some {| pre := rev t ++ before; rest := []; opened := None;
            caps := cs ++ [t] |}.
Proof.
  intros -> Ht. apply rep_greedy_all; [exact Ht|].
  cbn [run at_eol rest pre opened caps andb].
  rewrite captured_run. reflexivity.
Qed.

Ltac whole_match :=
  cbn [pre caps app]; f_equal; f_equal;
  apply firstn_whole; cbn [length]; rewrite length_app, length_rev;
  cbn [length]; lia.

Ltac line_rest t Ht :=
  change (fun st : mstate =>
            if at_eol true st
            then Some {| pre := pre st; rest := rest st; opened := None;
                         caps := caps st ++ [captured st] |}
            else None)
    with (run true [Eol; Close]);
  match goal with
  | |- context [rep Dot true _ 0
                  {| pre := ?b; rest := _; opened := Some ?n;
                     caps := ?cs |} t] =>
      rewrite (rest_of_line t b n cs eq_refl Ht)
  end.

Lemma match_header (level : nat) (t : js_string) :
  1 <= level <= 3 ->
  forallb inline t = true ->
  match_at (re_header level) [] (repeat 35%N level ++ 32%N :: t)
  = Some {| matched := repeat 35%N level ++ 32%N :: t; groups := [t] |}.
Proof.
  intros Hl Ht.
  assert (H : level = 1 \/ level = 2 \/ level = 3) by lia.
  destruct H as [ -> | [ -> | -> ] ]; cbn [repeat app]; norm_match;
    line_rest t Ht; whole_match.
Qed.

Lemma match_unordered (t : js_string) :
  forallb inline t = true ->
  match_at re_unordered [] (42 :: 32 :: t)%N
  = Some {| matched := (42 :: 32 :: t)%N; groups := [t] |}.
Proof. intros Ht. norm_match. line_rest t Ht. whole_match. Qed.

(** [\d+] takes the digits, [(.*$)] the rest of the line. *)
Lemma match_ordered (d : code_unit) (n t : js_string) :
  forallb is_digit (d :: n) = true ->
  forallb inline t = true ->
  match_at re_ordered [] (d :: n ++ 46 :: 32 :: t)%N
  = Some {| matched := (d :: n ++ 46 :: 32 :: t)%N; groups := [t] |}.
Proof.
  intros Hn Ht. cbn [forallb] in Hn. apply andb_true_iff in Hn as [Hd Hn].
  norm_match. cbn [rep cls_mem]. rewrite Hd.
  erewrite rep_greedy_run;
    [ | reflexivity | exact Hn
      | cbn [run rest pre opened caps advance cls_mem N.eqb Pos.eqb length];
        line_rest t Ht; reflexivity ].
  cbn [pre caps app]. f_equal. f_equal.
  apply firstn_whole. cbn [length].
  repeat (rewrite ?length_app, ?length_rev; cbn [length]). lia.
Qed.

Lemma mild_inline (s : js_string) : forallb mild s = true -> forallb inline s = true.
Proof. intros H. apply soft_inline, mild_soft, H. Qed.

Lemma match_bold (t : js_string) :
  forallb mild t = true ->
  match_at re_bold [] (42 :: 42 :: t ++ [42; 42])%N
  = Some {| matched := (42 :: 42 :: t ++ [42; 42])%N; groups := [t] |}.
Proof.
  intros Ht. norm_match.
  rewrite rep_lazy_run.
  - cbn [rep rest pre opened caps advance N.eqb Pos.eqb].
    rewrite captured_run. cbn [pre caps app]. f_equal. f_equal.
    apply firstn_whole.
    repeat (rewrite ?length_app, ?length_rev; cbn [length]). lia.
  - exact (mild_inline t Ht).
  - intros c b st' Hin Hrest. rewrite Hrest.
    pose proof (proj1 (forallb_forall mild t) Ht c Hin) as Hc.
    destruct (mild_facts c Hc) as (_ & _ & -> & _). reflexivity.
Qed.

Lemma forallb_snoc (P : code_unit -> bool) (s : js_string) (c : code_unit) :
  forallb P s = true -> P c = true -> forallb P (s ++ [c]) = true.
Proof.
  intros Hs Hc. rewrite forallb_app, Hs. cbn [forallb]. rewrite Hc. reflexivity.
Qed.

Lemma plain_text_inv (t : js_string) :
  plain_text t = true ->
  exists c t', t = c :: t' /\ is_white_space c = false
               /\ mild c = true /\ forallb mild t' = true.
Proof.
  destruct t as [|c t']; [discriminate|]. cbn [plain_text forallb].
  intros H. apply andb_true_iff in H as [Hw H].
  apply andb_true_iff in H as [Hc Ht]. apply negb_true_iff in Hw.
  exists c, t'. repeat split; assumption.
Qed.

(** [*t*] is a fixed point of the bold pass: no two asterisks meet. *)
Lemma bold_keeps_starred (c : code_unit) (t : js_string) :
  mild c = true -> forallb mild t = true ->
  replace (42 :: c :: t ++ [42])%N re_bold wrap_in_stars
  = (42 :: c :: t ++ [42])%N.
Proof.
  intros Hc Ht. unfold replace. apply never_sound.
  destruct (mild_facts c Hc) as (ELT & _ & E42 & _).
  change (never false (body re_bold) true (42 :: c :: t ++ [42])%N = true).
  cbn [never andb]. apply andb_true_iff. split.
  - match goal with
    | |- reject _ ?ts _ _ = _ =>
        let ts' := eval vm_compute in ts in change ts with ts'
    end.
    cbn [reject cls_mem negb orb N.eqb Pos.eqb]. rewrite E42. reflexivity.
  - change (never (multiline re_bold) (body re_bold) false
              ((c :: t) ++ [42%N]) = true).
    destruct kills_bold as [Hk He].
    assert (text_mild : forallb mild (c :: t) = true)
      by (cbn [forallb]; rewrite Hc, Ht; reflexivity).
    revert text_mild. generalize (c :: t). intros s. induction s as [|x s IH].
    + intros _. reflexivity.
    + cbn [forallb]. intros H. apply andb_true_iff in H as [Hx Hs].
      cbn [app never]. rewrite (Hk false x _ Hx). cbn [andb]. apply IH, Hs.
Qed.

Lemma bold_keeps_item (t : js_string) :
  forallb mild t = true ->
  replace (42 :: 32 :: t)%N re_bold wrap_in_stars = (42 :: 32 :: t)%N.
Proof.
  intros Ht. unfold replace. apply never_sound.
  change (never false (body re_bold) true (42 :: 32 :: t)%N = true).
  cbn [never andb]. apply andb_true_iff. split; [reflexivity|].
  apply (never_kills re_bold mild kills_bold).
  cbn [forallb]. rewrite Ht. reflexivity.
Qed.

Lemma digit_facts (d : code_unit) :
  is_digit d = true ->
  is_white_space d = false /\ mild d = true /\ (d =? 35)%N = false.
Proof.
  unfold is_digit. intros H. apply andb_true_iff in H as [Hlo Hhi].
  apply N.leb_le in Hlo, Hhi.
  assert (Hne : forall x, (x < 48 \/ 57 < x)%N -> (d =? x)%N = false)
    by (intros x Hx; apply N.eqb_neq; lia).
  assert (Hr : (8192 <=? d)%N = false) by (apply N.leb_gt; lia).
  unfold is_white_space, mild, is_line_terminator.
  rewrite Hr, !Hne by lia. repeat split; reflexivity.
Qed.

Lemma digits_mild (n : js_string) :
  forallb is_digit n = true -> forallb mild n = true.
Proof.
  induction n as [|d n IH]; [reflexivity|]. cbn [forallb]. intros H.
  apply andb_true_iff in H as [Hd Hn].
  destruct (digit_facts d Hd) as (_ & -> & _). rewrite IH by exact Hn.
  reflexivity.
Qed.

Ltac ends := let bol := fresh in intros bol; destruct bol; reflexivity.

Ltac starts_rejected E :=
  match goal with
  | |- reject ?m ?ts ?bol ?s = _ =>
      let m' := eval vm_compute in m in
      let ts' := eval vm_compute in ts in
      change (reject m' ts' bol s = true)
  end;
  cbn [reject cls_mem negb orb andb N.eqb Pos.eqb];
  rewrite ?E; reflexivity.

Lemma expand_bullet_item (m g : js_string) :
  expand bullet_item {| matched := m; groups := [g] |}
  = (8226 :: 32 :: g)%N.
Proof.
  unfold bullet_item. cbn [expand flat_map expand_piece groups nth Nat.sub app].
  rewrite app_nil_r. reflexivity.
Qed.

Section Families.

Variables (c : code_unit) (t : js_string).
Hypothesis Hw : is_white_space c = false.
Hypothesis Hc : mild c = true.
Hypothesis Ht : forallb mild t = true.

Lemma text_mild : forallb mild (c :: t) = true.
Proof. cbn [forallb]. rewrite Hc, Ht. reflexivity. Qed.

Lemma text_inline : forallb inline (c :: t) = true.
Proof. apply mild_inline, text_mild. Qed.

Lemma starred_soft : forallb soft (42 :: c :: t ++ [42])%N = true.
Proof.
  change (forallb soft ((42 :: c :: t) ++ [42])%N = true).
  apply forallb_snoc; [|reflexivity].
  cbn [forallb]. change (forallb soft (c :: t) = true).
  apply mild_soft, text_mild.
Qed.

(** The passes after the bold one leave [*t*] as it is. *)
Lemma starred_after_bold :
  replace
    (replace
       (replace
          (replace
             (replace
                (replace (42 :: c :: t ++ [42])%N re_italic
                   (Pattern [Text (lit "_"); Ref 1; Text (lit "_")]))
                re_inline_code
                (Pattern [Text (lit "`"); Ref 1; Text (lit "`")]))
             re_code_block (Replacer trim_fence))
          re_link
          (Pattern [Text (lit "<"); Ref 2; Text (lit "|"); Ref 1;
                    Text (lit ">")]))
       re_unordered bullet_item)
    re_ordered bullet_item
  = (42 :: c :: t ++ [42])%N.
Proof.
  pose proof starred_soft as Hs. pose proof (soft_inline _ Hs) as Hi.
  pose proof (black_facts c Hw) as E32.
  rewrite (replace_kills re_italic soft _ _ kills_italic Hs).
  rewrite (replace_kills re_inline_code soft _ _ kills_inline_code Hs).
  rewrite (replace_kills re_code_block soft _ _ kills_code_block Hs).
  rewrite (replace_kills re_link soft _ _ kills_link Hs).
  rewrite (replace_anchored re_unordered _ bullet_item _ eq_refl Hi)
    by starts_rejected E32.
  apply (replace_anchored re_ordered _ bullet_item _ eq_refl Hi eq_refl).
Qed.

Lemma starred_header (level : nat) :
  replace (42 :: c :: t ++ [42])%N (re_header level) wrap_in_stars
  = (42 :: c :: t ++ [42])%N.
Proof.
  apply (replace_anchored (re_header level) _ wrap_in_stars _ eq_refl
           (soft_inline _ starred_soft)).
  destruct level; reflexivity.
Qed.

(** [*t*] is a fixed point of the transformer. *)
Lemma starred_fixed :
  markdownToMrkdwn (42 :: c :: t ++ [42])%N = (42 :: c :: t ++ [42])%N.
Proof.
  pose proof starred_soft as Hs. pose proof (soft_inline _ Hs) as Hi.
  unfold markdownToMrkdwn. cbv zeta.
  rewrite (replace_kills re_blank_lines soft _ _ kills_blank_lines Hs).
  rewrite replace_leading_space_line by (reflexivity || exact Hi).
  rewrite !starred_header.
  rewrite (bold_keeps_starred c t Hc Ht).
  apply starred_after_bold.
Qed.

Lemma bulleted_mild : forallb mild (8226 :: 32 :: c :: t)%N = true.
Proof. cbn [forallb]. rewrite Hc, Ht. reflexivity. Qed.

(** [• t] is a fixed point of the transformer. *)
Lemma bulleted_fixed :
  markdownToMrkdwn (8226 :: 32 :: c :: t)%N = (8226 :: 32 :: c :: t)%N.
Proof.
  pose proof bulleted_mild as Hm. pose proof (mild_soft _ Hm) as Hs.
  pose proof (soft_inline _ Hs) as Hi.
  unfold markdownToMrkdwn. cbv zeta.
  rewrite (replace_kills re_blank_lines soft _ _ kills_blank_lines Hs).
  rewrite replace_leading_space_line by (reflexivity || exact Hi).
  rewrite (replace_anchored (re_header 1) _ wrap_in_stars _ eq_refl Hi eq_refl).
  rewrite (replace_anchored (re_header 2) _ wrap_in_stars _ eq_refl Hi eq_refl).
  rewrite !(replace_anchored (re_header 3) _ wrap_in_stars _ eq_refl Hi eq_refl).
  rewrite (replace_kills re_bold mild _ _ kills_bold Hm).
  rewrite (replace_kills re_italic soft _ _ kills_italic Hs).
  rewrite (replace_kills re_inline_code soft _ _ kills_inline_code Hs).
  rewrite (replace_kills re_code_block soft _ _ kills_code_block Hs).
  rewrite (replace_kills re_link soft _ _ kills_link Hs).
  rewrite (replace_anchored re_unordered _ bullet_item _ eq_refl Hi eq_refl).
  apply (replace_anchored re_ordered _ bullet_item _ eq_refl Hi eq_refl).
Qed.

(** The header rule: [# t], [## t] and [### t] become [*t*]. *)
Lemma header_rule (level : nat) :
  1 <= level <= 3 ->
  markdownToMrkdwn (repeat 35%N level ++ 32%N :: c :: t)
  = (42 :: c :: t ++ [42])%N.
Proof.
  intros Hl.
  assert (Hm : forallb mild (repeat 35%N level ++ 32%N :: c :: t) = true).
  { rewrite forallb_app. cbn [forallb]. rewrite Hc, Ht.
    replace (forallb mild (repeat 35%N level)) with true; [reflexivity|].
    symmetry. clear. induction level; [reflexivity|].
    cbn [repeat forallb]. rewrite IHlevel. reflexivity. }
  pose proof (mild_soft _ Hm) as Hs. pose proof (soft_inline _ Hs) as Hi.
  assert (Hrule :
            replace (repeat 35%N level ++ 32%N :: c :: t) (re_header level)
              wrap_in_stars
            = (42 :: c :: t ++ [42])%N).
  { rewrite (replace_whole _ _ _ _ (match_header level (c :: t) Hl text_inline)
               eq_refl).
    - reflexivity.
    - destruct level; discriminate.
    - destruct level; ends. }
  unfold markdownToMrkdwn. cbv zeta.
  rewrite (replace_kills re_blank_lines soft _ _ kills_blank_lines Hs).
  assert (H : level = 1 \/ level = 2 \/ level = 3) by lia.
  destruct H as [ -> | [ -> | -> ] ]; cbn [repeat app] in *;
    rewrite replace_leading_space_line by (reflexivity || exact Hi).
  - rewrite Hrule, !starred_header, (bold_keeps_starred c t Hc Ht).
    apply starred_after_bold.
  - rewrite (replace_anchored (re_header 1) _ wrap_in_stars _ eq_refl Hi
               eq_refl).
    rewrite Hrule, !starred_header, (bold_keeps_starred c t Hc Ht).
    apply starred_after_bold.
  - rewrite (replace_anchored (re_header 1) _ wrap_in_stars _ eq_refl Hi
               eq_refl).
    rewrite (replace_anchored (re_header 2) _ wrap_in_stars _ eq_refl Hi
               eq_refl).
    rewrite Hrule, !starred_header, (bold_keeps_starred c t Hc Ht).
    apply starred_after_bold.
Qed.

(** The bold rule: [**t**] becomes [*t*]. *)
Lemma bold_rule :
  markdownToMrkdwn (42 :: 42 :: (c :: t) ++ [42; 42])%N
  = (42 :: c :: t ++ [42])%N.
Proof.
  assert (Hs : forallb soft (42 :: 42 :: (c :: t) ++ [42; 42])%N = true).
  { cbn [forallb app]. rewrite forallb_app. cbn [forallb].
    unfold soft at 3. rewrite Hc, (mild_soft _ Ht). reflexivity. }
  pose proof (soft_inline _ Hs) as Hi.
  unfold markdownToMrkdwn. cbv zeta.
  rewrite (replace_kills re_blank_lines soft _ _ kills_blank_lines Hs).
  rewrite replace_leading_space_line by (reflexivity || exact Hi).
  rewrite (replace_anchored (re_header 1) _ wrap_in_stars _ eq_refl Hi eq_refl).
  rewrite (replace_anchored (re_header 2) _ wrap_in_stars _ eq_refl Hi eq_refl).
  rewrite !(replace_anchored (re_header 3) _ wrap_in_stars _ eq_refl Hi eq_refl).
  rewrite (replace_whole _ wrap_in_stars _ _ (match_bold (c :: t) text_mild) eq_refl)
    by (discriminate || ends).
  apply starred_after_bold.
Qed.

(** The unordered list rule: [* t] becomes [• t]. *)
Lemma unordered_rule :
  markdownToMrkdwn (42 :: 32 :: c :: t)%N = (8226 :: 32 :: c :: t)%N.
Proof.
  assert (Hm : forallb mild (32 :: c :: t)%N = true)
    by (cbn [forallb]; rewrite Hc, Ht; reflexivity).
  assert (Hs : forallb soft (42 :: 32 :: c :: t)%N = true)
    by (change (soft 42%N && (soft 32%N && forallb soft (c :: t)) = true);
        rewrite (mild_soft _ text_mild); reflexivity).
  pose proof (soft_inline _ Hs) as Hi.
  pose proof (soft_inline _ (mild_soft _ bulleted_mild)) as Hi'.
  unfold markdownToMrkdwn. cbv zeta.
  rewrite (replace_kills re_blank_lines soft _ _ kills_blank_lines Hs).
  rewrite replace_leading_space_line by (reflexivity || exact Hi).
  rewrite (replace_anchored (re_header 1) _ wrap_in_stars _ eq_refl Hi eq_refl).
  rewrite (replace_anchored (re_header 2) _ wrap_in_stars _ eq_refl Hi eq_refl).
  rewrite !(replace_anchored (re_header 3) _ wrap_in_stars _ eq_refl Hi eq_refl).
  rewrite (bold_keeps_item (c :: t) text_mild).
  rewrite (replace_kills re_italic soft _ _ kills_italic Hs).
  rewrite (replace_kills re_inline_code soft _ _ kills_inline_code Hs).
  rewrite (replace_kills re_code_block soft _ _ kills_code_block Hs).
  rewrite (replace_kills re_link soft _ _ kills_link Hs).
  rewrite (replace_whole _ bullet_item _ _ (match_unordered (c :: t) text_inline)
             eq_refl)
    by (discriminate || ends).
  rewrite expand_bullet_item.
  apply (replace_anchored re_ordered _ bullet_item _ eq_refl Hi' eq_refl).
Qed.

(** The ordered list rule: [12. t] becomes [• t], whatever the number. *)
Lemma ordered_rule (d : code_unit) (n : js_string) :
  forallb is_digit (d :: n) = true ->
  markdownToMrkdwn (d :: n ++ 46 :: 32 :: c :: t)%N
  = (8226 :: 32 :: c :: t)%N.
Proof.
  intros Hn. pose proof Hn as Hdn.
  cbn [forallb] in Hdn. apply andb_true_iff in Hdn as [Hd Hn'].
  destruct (digit_facts d Hd) as (Hdw & Hdm & E35).
  destruct (mild_facts d Hdm) as (_ & _ & E42 & _).
  assert (Hm : forallb mild (d :: n ++ 46 :: 32 :: c :: t)%N = true).
  { cbn [forallb]. rewrite Hdm, forallb_app, (digits_mild n Hn').
    cbn [forallb]. rewrite Hc, Ht. reflexivity. }
  pose proof (mild_soft _ Hm) as Hs. pose proof (soft_inline _ Hs) as Hi.
  unfold markdownToMrkdwn. cbv zeta.
  rewrite (replace_kills re_blank_lines soft _ _ kills_blank_lines Hs).
  rewrite replace_leading_space_line by (exact Hdw || exact Hi).
  rewrite (replace_anchored (re_header 1) _ wrap_in_stars _ eq_refl Hi)
    by starts_rejected E35.
  rewrite (replace_anchored (re_header 2) _ wrap_in_stars _ eq_refl Hi)
    by starts_rejected E35.
  rewrite !(replace_anchored (re_header 3) _ wrap_in_stars _ eq_refl Hi)
    by starts_rejected E35.
  rewrite (replace_kills re_bold mild _ _ kills_bold Hm).
  rewrite (replace_kills re_italic soft _ _ kills_italic Hs).
  rewrite (replace_kills re_inline_code soft _ _ kills_inline_code Hs).
  rewrite (replace_kills re_code_block soft _ _ kills_code_block Hs).
  rewrite (replace_kills re_link soft _ _ kills_link Hs).
  rewrite (replace_anchored re_unordered _ bullet_item _ eq_refl Hi)
    by starts_rejected E42.
  rewrite (replace_whole _ bullet_item _ _
             (match_ordered d n (c :: t) Hn text_inline) eq_refl)
    by (discriminate || ends).
  apply expand_bullet_item.
Qed.

End Families.

(** C1. On the sample document [markdownToMrkdwn] returns the text the
    specification expects but for the empty line after the title: the
    line feed that [/\n\s*\n/] kept is matched by [\s*] in [/^\s*/gm] and
    removed, so the result differs from the expected output. *)
Theorem markdownToMrkdwn_sample :
  markdownToMrkdwn sample_markdown = sample_actual
  /\ markdownToMrkdwn sample_markdown <> sample_expected.
Proof.
  assert (E : markdownToMrkdwn sample_markdown = sample_actual)
    by (vm_compute; reflexivity).
  split; [exact E|].
  rewrite E. intros H. vm_compute in H. discriminate H.
Qed.

(** The rules on inputs of the specification: a header of each level, a
    bold word inside a sentence and the two kinds of list item are
    rewritten the first time and not the second. *)
Lemma markdownToMrkdwn_rule_examples :
  let twice s := markdownToMrkdwn (markdownToMrkdwn s) in
  (markdownToMrkdwn (lit "# Title") = lit "*Title*"
   /\ twice (lit "# Title") = markdownToMrkdwn (lit "# Title"))
  /\ (markdownToMrkdwn (lit "## Title") = lit "*Title*"
   /\ twice (lit "## Title") = markdownToMrkdwn (lit "## Title"))
  /\ (markdownToMrkdwn (lit "### Title") = lit "*Title*"
   /\ twice (lit "### Title") = markdownToMrkdwn (lit "### Title"))
  /\ (markdownToMrkdwn (lit "Some **bold** text") = lit "Some *bold* text"
   /\ twice (lit "Some **bold** text")
      = markdownToMrkdwn (lit "Some **bold** text"))
  /\ (markdownToMrkdwn (lit "* item one") = BULLET :: lit " item one"
   /\ twice (lit "* item one") = markdownToMrkdwn (lit "* item one"))
  /\ (markdownToMrkdwn (lit "1. item two") = BULLET :: lit " item two"
   /\ twice (lit "1. item two") = markdownToMrkdwn (lit "1. item two")).
Proof.
  cbv zeta. repeat split; vm_compute; reflexivity.
Qed.

(** Markup inside markup is another matter: the stars that the header
    rule adds around a bold title pair up with the ones inside, and a
    second application rewrites the output of the first. *)
Lemma markdownToMrkdwn_nested_markup :
  markdownToMrkdwn (lit "# **x**") = lit "**x**"
  /\ markdownToMrkdwn (markdownToMrkdwn (lit "# **x**")) = lit "*x*".
Proof. split; vm_compute; reflexivity. Qed.

(** C9. The transformer is idempotent on what the header, bold and list
    rules produce. For every plain text [t], each of the inputs [# t],
    [## t], [### t], [**t**], [* t] and [n. t] (for any number [n]) is
    rewritten by its rule, to [*t*] or to a bullet and [t], and a second
    application gives the same result as the first. *)
Theorem markdownToMrkdwn_idempotent_on_rules (t : js_string) :
  plain_text t = true ->
  let twice s := markdownToMrkdwn (markdownToMrkdwn s) in
  (forall level, 1 <= level <= 3 ->
      markdownToMrkdwn (hashes level ++ lit " " ++ t) = lit "*" ++ t ++ lit "*"
      /\ twice (hashes level ++ lit " " ++ t)
         = markdownToMrkdwn (hashes level ++ lit " " ++ t))
  /\ (markdownToMrkdwn (lit "**" ++ t ++ lit "**") = lit "*" ++ t ++ lit "*"
      /\ twice (lit "**" ++ t ++ lit "**")
         = markdownToMrkdwn (lit "**" ++ t ++ lit "**"))
  /\ (markdownToMrkdwn (lit "* " ++ t) = BULLET :: lit " " ++ t
      /\ twice (lit "* " ++ t) = markdownToMrkdwn (lit "* " ++ t))
  /\ (forall n, n <> [] -> forallb is_digit n = true ->
      markdownToMrkdwn (n ++ lit ". " ++ t) = BULLET :: lit " " ++ t
      /\ twice (n ++ lit ". " ++ t) = markdownToMrkdwn (n ++ lit ". " ++ t)).
Proof.
  intros Hp twice.
  destruct (plain_text_inv t Hp) as (c & t' & -> & Hw & Hc & Ht).
  pose proof (starred_fixed c t' Hw Hc Ht) as Hstar.
  pose proof (bulleted_fixed c t' Hc Ht) as Hbullet.
  assert (Hhead : forall level, 1 <= level <= 3 ->
            markdownToMrkdwn (hashes level ++ lit " " ++ c :: t')
            = lit "*" ++ (c :: t') ++ lit "*")
    by (intros level Hl; exact (header_rule c t' Hw Hc Ht level Hl)).
  assert (Hbold : markdownToMrkdwn (lit "**" ++ (c :: t') ++ lit "**")
                  = lit "*" ++ (c :: t') ++ lit "*")
    by exact (bold_rule c t' Hw Hc Ht).
  assert (Hul : markdownToMrkdwn (lit "* " ++ c :: t')
                = BULLET :: lit " " ++ c :: t')
    by exact (unordered_rule c t' Hc Ht).
  assert (Hol : forall n, n <> [] -> forallb is_digit n = true ->
            markdownToMrkdwn (n ++ lit ". " ++ c :: t')
            = BULLET :: lit " " ++ c :: t').
  { intros [|d n] Hne Hn; [contradiction|].
    exact (ordered_rule c t' Hc Ht d n Hn). }
  unfold twice. repeat split.
  - apply Hhead; assumption.
  - rewrite Hhead by assumption. exact Hstar.
  - exact Hbold.
  - rewrite Hbold. exact Hstar.
  - exact Hul.
  - rewrite Hul. exact Hbullet.
  - apply Hol; assumption.
  - rewrite Hol by assumption. exact Hbullet.
Qed.

Lemma markdownToMrkdwn_idempotent_on_rules_witness :
  let twice s := markdownToMrkdwn (markdownToMrkdwn s) in
  plain_text (lit "Title") = true
  /\ (markdownToMrkdwn (lit "# Title") = lit "*Title*"
      /\ twice (lit "# Title") = markdownToMrkdwn (lit "# Title"))
  /\ (markdownToMrkdwn (lit "**Title**") = lit "*Title*"
      /\ twice (lit "**Title**") = markdownToMrkdwn (lit "**Title**"))
  /\ (markdownToMrkdwn (lit "* Title") = BULLET :: lit " Title"
      /\ twice (lit "* Title") = markdownToMrkdwn (lit "* Title"))
  /\ (markdownToMrkdwn (lit "12. Title") = BULLET :: lit " Title"
      /\ twice (lit "12. Title") = markdownToMrkdwn (lit "12. Title")).
Proof.
  cbv zeta.
  destruct (markdownToMrkdwn_idempotent_on_rules (lit "Title") eq_refl)
    as (Hhead & Hbold & Hul & Hol).
  split; [reflexivity|]. split; [|split; [|split]].
  - exact (Hhead 1 (conj (le_n 1) (le_S 1 2 (le_S 1 1 (le_n 1))))).
  - exact Hbold.
  - exact Hul.
  - refine (Hol (lit "12") _ eq_refl). discriminate.
Defined.

End MrkdwnFacts.

(* ================================================================== *)
(** ** The Text Transformer, on every text *)
(* ================================================================== *)

Module TextFacts.
Import Js Regex Mrkdwn Plain Spec Text MrkdwnFacts.

(** What a repetition that succeeds has read: a run of the class, of at
    least [min] characters, after which the continuation succeeds. *)
Lemma rep_inv (k : cls) (greedy : bool) (cont : mstate -> option mstate) :
  forall input min st r,
    rep k greedy cont min st input = Some r ->
    exists run0 rest0,
      input = run0 ++ rest0
      /\ forallb (cls_mem k) run0 = true
      /\ min <= length run0
      /\ cont {| pre := rev run0 ++ pre st; rest := rest0;
                 opened := opened st; caps := caps st |} = Some r.
Proof.
  induction input as [|c input IH]; intros min st r H.
  - destruct min as [|min]; cbn [rep] in H; [|discriminate H].
    exists [], []. repeat split; try reflexivity.
    cbn [rev app]. destruct greedy; [exact H|].
    destruct (cont _) eqn:C in H; [rewrite <- H; exact C | discriminate H].
  - assert (Hstep : forall m,
               rep k greedy cont m (advance c st input) input = Some r ->
               cls_mem k c = true ->
               exists run0 rest0,
                 c :: input = run0 ++ rest0
                 /\ forallb (cls_mem k) run0 = true
                 /\ S m <= length run0
                 /\ cont {| pre := rev run0 ++ pre st; rest := rest0;
                            opened := opened st; caps := caps st |} = Some r).
    { intros m R E. destruct (IH _ _ _ R) as (run0 & rest0 & -> & Hr & Hm & Hc).
      exists (c :: run0), rest0. cbn [forallb length rev]. rewrite E, Hr.
      repeat split; [lia|]. rewrite <- app_assoc. exact Hc. }
    assert (Hhere : cont {| pre := pre st; rest := c :: input;
                            opened := opened st; caps := caps st |} = Some r ->
               exists run0 rest0,
                 c :: input = run0 ++ rest0
                 /\ forallb (cls_mem k) run0 = true
                 /\ 0 <= length run0
                 /\ cont {| pre := rev run0 ++ pre st; rest := rest0;
                            opened := opened st; caps := caps st |} = Some r).
    { intros C. exists [], (c :: input). repeat split; [lia | exact C]. }
    destruct min as [|min]; cbn [rep] in H.
    + destruct greedy.
      * destruct (cls_mem k c) eqn:E; [|exact (Hhere H)].
        destruct (rep k true cont 0 (advance c st input) input) eqn:R.
        -- injection H as ->.
           destruct (Hstep 0 R eq_refl) as (run0 & rest0 & ? & ? & ? & ?).
           exists run0, rest0. repeat split; try assumption. lia.
        -- exact (Hhere H).
      * destruct (cont _) eqn:C in H; [rewrite H in C; exact (Hhere C)|].
        destruct (cls_mem k c) eqn:E; [|discriminate H].
        destruct (Hstep 0 H eq_refl) as (run0 & rest0 & ? & ? & ? & ?).
        exists run0, rest0. repeat split; try assumption. lia.
    + destruct (cls_mem k c) eqn:E; [|discriminate H].
      exact (Hstep min H eq_refl).
Qed.

(** The matched text is a prefix of the text at the position. *)
Lemma match_at_prefix (re : regex) (before after : js_string) (f : found) :
  match_at re before after = Some f ->
  matched f = firstn (length (matched f)) after.
Proof.
  unfold match_at. destruct (run _ _ _) as [st|]; [|discriminate].
  intros H. injection H as <-. cbn [matched].
  rewrite length_firstn, <- firstn_firstn, firstn_all. reflexivity.
Qed.


(** *** The first two passes *)

(** Where [/\n\s*\n/] matches: at a line feed that white space and a
    line feed follow. *)
Lemma match_blank_lines (before after : js_string) (f : found) :
  match_at re_blank_lines before after = Some f ->
  exists w rest0,
    after = LF :: w ++ LF :: rest0
    /\ forallb is_white_space w = true
    /\ matched f = LF :: w ++ [LF].
Proof.
  unfold match_at, re_blank_lines, star. cbn [run body multiline rest].
  destruct after as [|c after]; [discriminate|].
  cbn [cls_mem]. destruct (c =? LF)%N eqn:E; [|discriminate].
  apply N.eqb_eq in E. subst c. cbn [rest advance].
  match goal with
  | |- context [rep ?a ?b ?c ?d ?e ?i] =>
      destruct (rep a b c d e i) as [st|] eqn:R; [|discriminate]
  end.
  intros H. injection H as <-.
  destruct (rep_inv _ _ _ _ _ _ _ R) as (w & rest0 & -> & Hw & _ & Hc).
  cbn [run rest advance pre opened caps] in Hc.
  destruct rest0 as [|d rest0]; [discriminate Hc|].
  cbn [cls_mem] in Hc. destruct (d =? LF)%N eqn:E; [|discriminate Hc].
  apply N.eqb_eq in E. subst d. injection Hc as <-.
  exists w, rest0. split; [reflexivity|]. split; [exact Hw|].
  cbn [matched advance pre].
  replace (length (LF :: rev w ++ LF :: before) - length before)
    with (S (length (w ++ [LF]))).
  2:{ cbn [length]. rewrite !length_app, length_rev. cbn [length]. lia. }
  cbn [firstn]. f_equal.
  change (LF :: rest0) with ([LF] ++ rest0). rewrite app_assoc.
  rewrite firstn_app, Nat.sub_diag, firstn_all. cbn [firstn].
  apply app_nil_r.
Qed.

Lemma drop_line_starts_white (w r : js_string) :
  forallb is_white_space w = true ->
  drop_line_starts true (w ++ r) = drop_line_starts true r.
Proof.
  induction w as [|c w IH]; [reflexivity|]. cbn [forallb]. intros H.
  apply andb_true_iff in H as [Hc Hw].
  cbn [app drop_line_starts andb]. rewrite Hc. apply IH, Hw.
Qed.

(** The line feeds that the first pass writes are dropped by the second
    with the white space it would have dropped anyway. *)
Lemma drop_line_starts_blank_lines (n : nat) :
  forall before after b,
    length after <= n ->
    drop_line_starts b
      (replace_from re_blank_lines (Pattern [Text [LF; LF]]) 0 before after)
    = drop_line_starts b after.
Proof.
  induction n as [|n IH]; intros before after b Hn.
  - destruct after; [|simpl in Hn; lia].
    cbn [replace_from].
    destruct (match_at re_blank_lines before []) as [f|] eqn:M; [|reflexivity].
    destruct (match_blank_lines _ _ _ M) as (w & rest0 & H & _). discriminate H.
  - destruct after as [|c after].
    { cbn [replace_from].
      destruct (match_at re_blank_lines before []) as [f|] eqn:M; [|reflexivity].
      destruct (match_blank_lines _ _ _ M) as (w & rest0 & H & _).
      discriminate H. }
    cbn [replace_from].
    destruct (match_at re_blank_lines before (c :: after)) as [f|] eqn:M.
    + destruct (match_blank_lines _ _ _ M) as (w & rest0 & H & Hw & Hf).
      injection H as -> ->. rewrite Hf.
      cbn [expand flat_map expand_piece app length].
      rewrite replace_from_skip
        by (rewrite !length_app; cbn [length]; lia).
      replace (skipn (length (w ++ [LF])) (w ++ LF :: rest0)) with rest0.
      2:{ change (LF :: rest0) with ([LF] ++ rest0). rewrite app_assoc.
          rewrite skipn_app, Nat.sub_diag, skipn_all. reflexivity. }
      assert (Hrest : length rest0 <= n).
      { simpl in Hn. rewrite length_app in Hn. simpl in Hn. lia. }
      assert (Hlf : is_white_space LF = true) by reflexivity.
      assert (Hlt : is_line_terminator LF = true) by reflexivity.
      cbn [drop_line_starts]. rewrite Hlf, Hlt, andb_true_r. cbn [andb].
      rewrite (drop_line_starts_white w) by exact Hw.
      cbn [drop_line_starts andb]. rewrite Hlf.
      destruct b; rewrite IH by exact Hrest; reflexivity.
    + cbn [drop_line_starts].
      destruct (b && is_white_space c); rewrite IH by (simpl in Hn; lia);
        reflexivity.
Qed.

(** The first two passes together, for every text: the white space at
    the start of each line goes, the empty lines with it. *)
Lemma leading_passes (s : js_string) :
  replace (replace s re_blank_lines (Pattern [Text [LF; LF]]))
    re_leading_space (Pattern [Text []])
  = drop_line_starts true s.
Proof.
  rewrite replace_leading_space. unfold replace.
  apply (drop_line_starts_blank_lines (length s)). apply Nat.le_refl.
Qed.


(** *** Text without markup *)

Lemma forallb_drop_line_starts (P : code_unit -> bool) (s : js_string) :
  forall b, forallb P s = true -> forallb P (drop_line_starts b s) = true.
Proof.
  induction s as [|c s IH]; intros b H; [reflexivity|].
  cbn [forallb] in H. apply andb_true_iff in H as [Hc Hs].
  cbn [drop_line_starts]. destruct (b && is_white_space c).
  - apply IH, Hs.
  - cbn [forallb]. rewrite Hc. apply IH, Hs.
Qed.

Lemma unmarked_facts (c : code_unit) :
  unmarked c = true ->
  (c =? 42)%N = false /\ (c =? 95)%N = false
  /\ (c =? 96)%N = false /\ (c =? 91)%N = false.
Proof.
  unfold unmarked. intros H. apply negb_true_iff in H.
  repeat (apply orb_false_iff in H as [H ?]). repeat split; assumption.
Qed.

Lemma kills_bold_unmarked : kills re_bold unmarked.
Proof. kills_tac unmarked_facts. Qed.
Lemma kills_italic_unmarked : kills re_italic unmarked.
Proof. kills_tac unmarked_facts. Qed.
Lemma kills_inline_code_unmarked : kills re_inline_code unmarked.
Proof. kills_tac unmarked_facts. Qed.
Lemma kills_code_block_unmarked : kills re_code_block unmarked.
Proof. kills_tac unmarked_facts. Qed.
Lemma kills_link_unmarked : kills re_link unmarked.
Proof. kills_tac unmarked_facts. Qed.

Lemma kills_unordered_unmarked : kills re_unordered unmarked.
Proof.
  split.
  - intros bol c b H. destruct (unmarked_facts c H) as (E & _).
    change (reject true (Bol :: One (Chr 42) :: tl (tl (body re_unordered)))
              bol (c :: b) = true).
    cbn [reject cls_mem]. rewrite E. destruct bol; reflexivity.
  - intros bol. destruct bol; reflexivity.
Qed.

Lemma replace_never (re : regex) (r : replacement) (s : js_string) :
  never (multiline re) (body re) true s = true -> replace s re r = s.
Proof. intros H. unfold replace. apply never_sound. exact H. Qed.

(** A pattern anchored by [^] whose next term asks for [#] or for a
    digit fails on a text no line of which starts with one. *)
Lemma never_line_heads (ts : list term) :
  (forall c b, opens_item c = false -> reject true ts true (c :: b) = true) ->
  reject true ts true [] = true ->
  forall s bol,
    lines_start_plain bol s = true -> never true (Bol :: ts) bol s = true.
Proof.
  intros Hc He s. induction s as [|c s IH]; intros bol H.
  - cbn [never reject]. destruct bol; cbn [negb orb]; rewrite ?He; reflexivity.
  - cbn [lines_start_plain] in H. apply andb_true_iff in H as [H1 H2].
    cbn [never reject andb]. rewrite (IH _ H2), andb_true_r.
    destruct bol; [|reflexivity]. cbn [negb orb]. apply Hc.
    cbn [andb] in H1. apply negb_true_iff in H1. exact H1.
Qed.

Lemma opens_item_facts (c : code_unit) :
  opens_item c = false -> (c =? 35)%N = false /\ is_digit c = false.
Proof. unfold opens_item. intros H. apply orb_false_iff in H. exact H. Qed.

Lemma never_header (level : nat) (s : js_string) :
  1 <= level <= 3 ->
  lines_start_plain true s = true ->
  never (multiline (re_header level)) (body (re_header level)) true s = true.
Proof.
  intros Hl H.
  assert (E : level = 1 \/ level = 2 \/ level = 3) by lia.
  destruct E as [ -> | [ -> | -> ] ];
    (apply never_line_heads; [|reflexivity | exact H]);
    intros c b Hc; destruct (opens_item_facts c Hc) as [E _];
    match goal with
    | |- reject _ ?ts _ _ = _ =>
        let ts' := eval vm_compute in ts in change ts with ts'
    end;
    cbn [reject cls_mem]; rewrite E; reflexivity.
Qed.

Lemma never_ordered (s : js_string) :
  lines_start_plain true s = true ->
  never (multiline re_ordered) (body re_ordered) true s = true.
Proof.
  intros H. apply never_line_heads; [|reflexivity | exact H].
  intros c b Hc. destruct (opens_item_facts c Hc) as [_ E].
  match goal with
  | |- reject _ ?ts _ _ = _ =>
      let ts' := eval vm_compute in ts in change ts with ts'
  end.
  cbn [reject cls_mem]. rewrite E. reflexivity.
Qed.

(** X17. A text without [*], [_], backquote and opening bracket, in
    which no line starts, after its white space, with [#] or with a
    digit, goes through [markdownToMrkdwn] unchanged but for the white
    space at the start of its lines, which is dropped, empty lines
    included. *)
Theorem markdownToMrkdwn_unmarked_text (s : js_string) :
  forallb unmarked s = true ->
  lines_start_plain true (drop_line_starts true s) = true ->
  markdownToMrkdwn s = drop_line_starts true s.
Proof.
  intros Hs Hl. unfold markdownToMrkdwn. cbv zeta.
  rewrite leading_passes.
  pose proof (forallb_drop_line_starts unmarked s true Hs) as Hu.
  rewrite (replace_never (re_header 1) _ (drop_line_starts true s))
    by (apply never_header; [lia | exact Hl]).
  rewrite (replace_never (re_header 2) _ (drop_line_starts true s))
    by (apply never_header; [lia | exact Hl]).
  rewrite !(replace_never (re_header 3) _ (drop_line_starts true s))
    by (apply never_header; [lia | exact Hl]).
  rewrite (replace_kills re_bold unmarked _ _ kills_bold_unmarked Hu).
  rewrite (replace_kills re_italic unmarked _ _ kills_italic_unmarked Hu).
  rewrite (replace_kills re_inline_code unmarked _ _
             kills_inline_code_unmarked Hu).
  rewrite (replace_kills re_code_block unmarked _ _
             kills_code_block_unmarked Hu).
  rewrite (replace_kills re_link unmarked _ _ kills_link_unmarked Hu).
  rewrite (replace_kills re_unordered unmarked _ _ kills_unordered_unmarked Hu).
  apply replace_never, never_ordered, Hl.
Qed.

Lemma markdownToMrkdwn_unmarked_text_witness :
  markdownToMrkdwn (lit "Hello," ++ [LF; LF] ++ lit "  see you at 5pm")
  = lit "Hello," ++ [LF] ++ lit "see you at 5pm".
Proof.
  exact (markdownToMrkdwn_unmarked_text
           (lit "Hello," ++ [LF; LF] ++ lit "  see you at 5pm")
           eq_refl eq_refl).
Defined.


(** *** Passes that write back what they read *)

(** A pass whose replacement is always the matched text changes
    nothing. *)
Lemma replace_from_rebuilds (re : regex) (r : replacement) :
  (forall before after f,
      match_at re before after = Some f -> expand r f = matched f) ->
  forall n before after,
    length after <= n -> replace_from re r 0 before after = after.
Proof.
  intros Hsame n. induction n as [|n IH]; intros before after Hn.
  - destruct after; [|simpl in Hn; lia]. cbn [replace_from].
    destruct (match_at re before []) as [f|] eqn:M; [|reflexivity].
    rewrite (Hsame _ _ _ M). pose proof (match_at_prefix _ _ _ _ M) as Hp.
    rewrite firstn_nil in Hp. rewrite Hp. reflexivity.
  - destruct after as [|c after].
    { cbn [replace_from].
      destruct (match_at re before []) as [f|] eqn:M; [|reflexivity].
      rewrite (Hsame _ _ _ M). pose proof (match_at_prefix _ _ _ _ M) as Hp.
      rewrite firstn_nil in Hp. rewrite Hp. reflexivity. }
    cbn [replace_from].
    destruct (match_at re before (c :: after)) as [f|] eqn:M.
    + rewrite (Hsame _ _ _ M). pose proof (match_at_prefix _ _ _ _ M) as Hp.
      destruct (length (matched f)) as [|k] eqn:Hk.
      * apply length_zero_iff_nil in Hk. rewrite Hk. cbn [app].
        rewrite IH by (simpl in Hn; lia). reflexivity.
      * assert (Hle : k <= length after).
        { pose proof (f_equal (@length _) Hp) as Hlen.
          rewrite length_firstn, Hk in Hlen. cbn [length] in Hlen. lia. }
        rewrite replace_from_skip by exact Hle.
        rewrite IH by (rewrite length_skipn; simpl in Hn; lia).
        rewrite Hp. cbn [firstn app]. rewrite firstn_skipn. reflexivity.
    + rewrite IH by (simpl in Hn; lia). reflexivity.
Qed.

Lemma replace_rebuilds (re : regex) (r : replacement) (s : js_string) :
  (forall before after f,
      match_at re before after = Some f -> expand r f = matched f) ->
  replace s re r = s.
Proof.
  intros H. unfold replace.
  apply (replace_from_rebuilds re r H (length s)). apply Nat.le_refl.
Qed.

(** The text matched, from the positions before and after the match. *)
Lemma matched_text (m before rest0 : js_string) :
  firstn (length (rev m ++ before) - length before) (m ++ rest0) = m.
Proof.
  rewrite length_app, length_rev, Nat.add_sub.
  rewrite firstn_app, Nat.sub_diag, firstn_all. cbn [firstn].
  apply app_nil_r.
Qed.

(** What [/\_(.*?)\_/] matches: an underscore, a text, an underscore;
    the text is the group. *)
Lemma match_italic (before after : js_string) (f : found) :
  match_at re_italic before after = Some f ->
  exists t, matched f = (95 :: t ++ [95])%N /\ groups f = [t].
Proof.
  unfold match_at.
  change (body re_italic)
    with [One (Chr 95%N); Open; Rep Dot 0 false; Close; One (Chr 95%N)].
  cbn [run multiline re_italic rest pre opened caps].
  destruct after as [|c after]; [discriminate|].
  cbn [cls_mem]. destruct (c =? 95)%N eqn:E; [|discriminate].
  apply N.eqb_eq in E. subst c. cbn [rest advance pre opened caps].
  match goal with
  | |- context [rep ?a ?b ?c ?d ?e ?i] =>
      destruct (rep a b c d e i) as [st|] eqn:R; [|discriminate]
  end.
  intros H. injection H as <-.
  destruct (rep_inv _ _ _ _ _ _ _ R) as (t & rest0 & -> & Ht & _ & Hc).
  cbn [run rest pre opened caps app] in Hc.
  rewrite (captured_run t (95%N :: before)) in Hc.
  destruct rest0 as [|d rest0]; [discriminate Hc|].
  cbn [cls_mem] in Hc. destruct (d =? 95)%N eqn:E; [|discriminate Hc].
  apply N.eqb_eq in E. subst d. injection Hc as <-.
  exists t. cbn [matched groups advance pre caps]. split; [|reflexivity].
  replace (95 :: t ++ 95 :: rest0)%N with ((95 :: t ++ [95]) ++ rest0)%N
    by (cbn [app]; rewrite <- app_assoc; reflexivity).
  replace (95 :: rev t ++ 95 :: before)%N
    with (rev (95 :: t ++ [95])%N ++ before).
  - apply matched_text.
  - cbn [rev]. rewrite rev_app_distr. cbn [rev app].
    rewrite <- app_assoc. reflexivity.
Qed.


Lemma matched_from (m before rest0 p a : js_string) :
  p = rev m ++ before -> a = m ++ rest0 ->
  firstn (length p - length before) a = m.
Proof. intros -> ->. apply matched_text. Qed.

Ltac lists :=
  repeat (cbn [rev app]; rewrite ?rev_app_distr, <- ?app_assoc);
  reflexivity.

(** What [/`([^`]+)`/] matches: a backquote, a text, a backquote; the
    text is the group. *)
Lemma match_inline_code (before after : js_string) (f : found) :
  match_at re_inline_code before after = Some f ->
  exists t, matched f = (96 :: t ++ [96])%N /\ groups f = [t].
Proof.
  unfold match_at.
  change (body re_inline_code)
    with [One (Chr 96%N); Open; Rep (NotChr 96%N) 1 true; Close;
          One (Chr 96%N)].
  cbn [run multiline re_inline_code rest pre opened caps].
  destruct after as [|c after]; [discriminate|].
  cbn [cls_mem]. destruct (c =? 96)%N eqn:E; [|discriminate].
  apply N.eqb_eq in E. subst c. cbn [rest advance pre opened caps].
  match goal with
  | |- context [rep ?a ?b ?c ?d ?e ?i] =>
      destruct (rep a b c d e i) as [st|] eqn:R; [|discriminate]
  end.
  intros H. injection H as <-.
  destruct (rep_inv _ _ _ _ _ _ _ R) as (t & rest0 & -> & Ht & _ & Hc).
  cbn [run rest pre opened caps app] in Hc.
  rewrite (captured_run t (96%N :: before)) in Hc.
  destruct rest0 as [|d rest0]; [discriminate Hc|].
  cbn [cls_mem] in Hc. destruct (d =? 96)%N eqn:E; [|discriminate Hc].
  apply N.eqb_eq in E. subst d. injection Hc as <-.
  exists t. cbn [matched groups advance pre caps]. split; [|reflexivity].
  apply (matched_from _ _ rest0); lists.
Qed.

Lemma italic_pass (s : js_string) :
  replace s re_italic (Pattern [Text (lit "_"); Ref 1; Text (lit "_")]) = s.
Proof.
  apply replace_rebuilds; intros before after f M.
  destruct (match_italic _ _ _ M) as (t & Hm & Hg).
  change (lit "_") with [95%N].
  cbn [expand flat_map expand_piece nth Nat.sub]. rewrite Hg, Hm.
  cbn [nth app]. rewrite ?app_nil_r. reflexivity.
Qed.

Lemma inline_code_pass (s : js_string) :
  replace s re_inline_code
    (Pattern [Text (lit "`"); Ref 1; Text (lit "`")]) = s.
Proof.
  apply replace_rebuilds; intros before after f M.
  destruct (match_inline_code _ _ _ M) as (t & Hm & Hg).
  change (lit "`") with [96%N].
  cbn [expand flat_map expand_piece nth Nat.sub]. rewrite Hg, Hm.
  cbn [nth app]. rewrite ?app_nil_r. reflexivity.
Qed.

(** X18. The passes for italic text and for inline code change no
    text: each of them writes back what it matched. *)
Theorem italic_and_inline_code_passes_change_nothing (s : js_string) :
  replace s re_italic (Pattern [Text (lit "_"); Ref 1; Text (lit "_")]) = s
  /\ replace s re_inline_code
       (Pattern [Text (lit "`"); Ref 1; Text (lit "`")]) = s.
Proof. split; [apply italic_pass | apply inline_code_pass]. Qed.


(** *** Links *)

Lemma calm_facts (c : code_unit) :
  calm c = true ->
  is_line_terminator c = false
  /\ (c =? 10)%N = false /\ (c =? 42)%N = false
  /\ (c =? 96)%N = false /\ (c =? 91)%N = false.
Proof.
  unfold calm. intros H. apply andb_true_iff in H as [H1 H2].
  apply negb_true_iff in H1, H2.
  repeat (apply orb_false_iff in H2 as [H2 ?]).
  assert (H10 : (c =? 10)%N = false).
  { unfold is_line_terminator in H1.
    repeat (apply orb_false_iff in H1 as [H1 ?]). exact H1. }
  repeat split; assumption.
Qed.


Lemma loose_facts (c : code_unit) :
  loose c = true ->
  is_line_terminator c = false
  /\ (c =? 10)%N = false /\ (c =? 42)%N = false /\ (c =? 96)%N = false.
Proof.
  unfold loose. intros H. apply orb_true_iff in H as [H|H].
  - destruct (calm_facts c H) as (? & ? & ? & ? & ?). repeat split; assumption.
  - apply N.eqb_eq in H. subst c. repeat split; reflexivity.
Qed.

Lemma kills_blank_lines_loose : kills re_blank_lines loose.
Proof. kills_tac loose_facts. Qed.
Lemma kills_bold_loose : kills re_bold loose.
Proof. kills_tac loose_facts. Qed.
Lemma kills_code_block_loose : kills re_code_block loose.
Proof. kills_tac loose_facts. Qed.
Lemma kills_link_calm : kills re_link calm.
Proof. kills_tac calm_facts. Qed.

Lemma loose_inline (s : js_string) :
  forallb loose s = true -> forallb inline s = true.
Proof.
  induction s as [|c s IH]; [reflexivity|]. cbn [forallb]. intros H.
  apply andb_true_iff in H as [Hc Hs]. unfold inline at 1.
  destruct (loose_facts c Hc) as [-> _]. rewrite IH by exact Hs. reflexivity.
Qed.

Lemma calm_loose (s : js_string) :
  forallb calm s = true -> forallb loose s = true.
Proof.
  induction s as [|c s IH]; [reflexivity|]. cbn [forallb]. intros H.
  apply andb_true_iff in H as [Hc Hs]. unfold loose at 1.
  rewrite Hc, IH by exact Hs. reflexivity.
Qed.

(** A pattern that fails on the class of a prefix is tried after it. *)
Lemma replace_from_prefix (re : regex) (P : code_unit -> bool)
    (r : replacement) (rest0 : js_string) :
  kills re P ->
  forall a before,
    forallb P a = true ->
    replace_from re r 0 before (a ++ rest0)
    = a ++ replace_from re r 0 (rev a ++ before) rest0.
Proof.
  intros [Hk _] a. induction a as [|c a IH]; intros before H; [reflexivity|].
  cbn [forallb] in H. apply andb_true_iff in H as [Hc Ha].
  cbn [app replace_from]. rewrite match_at_rejected by (apply Hk, Hc).
  rewrite IH by exact Ha. cbn [rev]. rewrite <- app_assoc. reflexivity.
Qed.

(** A match is replaced and the search goes on after it. *)
Lemma replace_from_match (re : regex) (r : replacement)
    (before m rest0 : js_string) (f : found) :
  match_at re before (m ++ rest0) = Some f ->
  matched f = m ->
  m <> [] ->
  replace_from re r 0 before (m ++ rest0)
  = expand r f ++ replace_from re r 0 (rev m ++ before) rest0.
Proof.
  intros M Hf Hm. destruct m as [|c m]; [contradiction|].
  cbn [app replace_from]. cbn [app] in M. rewrite M, Hf. cbn [length].
  rewrite replace_from_skip by (rewrite length_app; lia).
  rewrite firstn_app, Nat.sub_diag, firstn_all, skipn_app, Nat.sub_diag,
    skipn_all.
  cbn [firstn skipn app rev]. rewrite app_nil_r, <- app_assoc. reflexivity.
Qed.

(** [/\[(.*?)\]\((.*?)\)/] on a link: the label ends at the first [\]],
    the address at the first [)]. *)
Lemma match_link (label url before rest0 : js_string) :
  forallb inline label = true ->
  forallb (fun c => negb (c =? 93)%N) label = true ->
  forallb inline url = true ->
  forallb (fun c => negb (c =? 41)%N) url = true ->
  match_at re_link before
    (91 :: label ++ 93 :: 40 :: url ++ 41 :: rest0)%N
  = Some {| matched := (91 :: label ++ 93 :: 40 :: url ++ [41])%N;
            groups := [label; url] |}.
Proof.
  intros Hl1 Hl2 Hu1 Hu2. unfold match_at.
  change (body re_link)
    with [One (Chr 91%N); Open; Rep Dot 0 false; Close; One (Chr 93%N);
          One (Chr 40%N); Open; Rep Dot 0 false; Close; One (Chr 41%N)].
  cbn [run multiline re_link rest pre opened caps advance cls_mem
       N.eqb Pos.eqb length].
  rewrite rep_lazy_run.
  2: exact Hl1.
  2:{ intros c b st' Hin Hrest. cbn [run]. rewrite Hrest.
      pose proof (proj1 (forallb_forall _ label) Hl2 c Hin) as Hc.
      cbn beta in Hc. apply negb_true_iff in Hc. cbn [rest cls_mem].
      rewrite Hc. reflexivity. }
  cbn [rep run rest pre opened caps advance cls_mem N.eqb Pos.eqb].
  rewrite (captured_run label (91%N :: before)).
  rewrite rep_lazy_run.
  2: exact Hu1.
  2:{ intros c b st' Hin Hrest. cbn [run]. rewrite Hrest.
      pose proof (proj1 (forallb_forall _ url) Hu2 c Hin) as Hc.
      cbn beta in Hc. apply negb_true_iff in Hc. cbn [rest cls_mem].
      rewrite Hc. reflexivity. }
  cbn [rep run rest pre opened caps advance cls_mem N.eqb Pos.eqb app].
  change (S (S (length (rev label ++ 91%N :: before))))
    with (length (40%N :: 93%N :: rev label ++ 91%N :: before)).
  match goal with
  | |- context [captured {| pre := rev url ++ ?b; rest := ?r;
                            opened := _; caps := ?cs |}] =>
      rewrite (captured_run url b r cs)
  end.
  cbn [pre caps app]. f_equal. f_equal.
  apply (matched_from _ _ rest0); lists.
Qed.


Lemma link_pass (a label url b : js_string) :
  forallb calm a = true -> forallb calm b = true ->
  forallb inline label = true ->
  forallb (fun c => negb (c =? 93)%N) label = true ->
  forallb inline url = true ->
  forallb (fun c => negb (c =? 41)%N) url = true ->
  replace (a ++ 91 :: label ++ 93 :: 40 :: url ++ 41 :: b)%N re_link
    (Pattern [Text (lit "<"); Ref 2; Text (lit "|"); Ref 1; Text (lit ">")])
  = (a ++ 60 :: url ++ 124 :: label ++ 62 :: b)%N.
Proof.
  intros Ha Hb Hl1 Hl2 Hu1 Hu2. unfold replace.
  rewrite (replace_from_prefix re_link calm _ _ kills_link_calm a [] Ha).
  f_equal.
  replace (91 :: label ++ 93 :: 40 :: url ++ 41 :: b)%N
    with ((91 :: label ++ 93 :: 40 :: url ++ [41]) ++ b)%N by lists.
  erewrite replace_from_match;
    [ | replace ((91 :: label ++ 93 :: 40 :: url ++ [41]) ++ b)%N
          with (91 :: label ++ 93 :: 40 :: url ++ 41 :: b)%N by lists;
        apply match_link; assumption
      | reflexivity | discriminate ].
  rewrite never_sound by (apply (never_kills re_link calm kills_link_calm), Hb).
  change (lit "<") with [60%N]. change (lit "|") with [124%N].
  change (lit ">") with [62%N].
  cbn [expand flat_map expand_piece groups nth Nat.sub].
  repeat (cbn [app]; rewrite <- ?app_assoc, ?app_nil_r). reflexivity.
Qed.

Lemma calm_inline (s : js_string) :
  forallb calm s = true -> forallb inline s = true.
Proof. intros H. apply loose_inline, calm_loose, H. Qed.

(** The passes before the one for links, on a line without asterisk and
    backquote that starts with neither white space nor [#]. *)
Lemma passes_before_links (c : code_unit) (s : js_string) :
  is_white_space c = false -> (c =? 35)%N = false ->
  forallb loose (c :: s) = true ->
  let mrkdwn := c :: s in
  let mrkdwn := replace mrkdwn re_blank_lines (Pattern [Text [LF; LF]]) in
  let mrkdwn := replace mrkdwn re_leading_space (Pattern [Text []]) in
  let mrkdwn := replace mrkdwn (re_header 1) wrap_in_stars in
  let mrkdwn := replace mrkdwn (re_header 2) wrap_in_stars in
  let mrkdwn := replace mrkdwn (re_header 3) wrap_in_stars in
  let mrkdwn := replace mrkdwn (re_header 3) wrap_in_stars in
  let mrkdwn := replace mrkdwn re_bold wrap_in_stars in
  let mrkdwn := replace mrkdwn re_italic
                  (Pattern [Text (lit "_"); Ref 1; Text (lit "_")]) in
  let mrkdwn := replace mrkdwn re_inline_code
                  (Pattern [Text (lit "`"); Ref 1; Text (lit "`")]) in
  replace mrkdwn re_code_block (Replacer trim_fence) = c :: s.
Proof.
  intros Hw E35 Hs. cbv zeta. pose proof (loose_inline _ Hs) as Hi.
  rewrite (replace_kills re_blank_lines loose _ _ kills_blank_lines_loose Hs).
  rewrite replace_leading_space_line by assumption.
  rewrite (replace_anchored (re_header 1) _ wrap_in_stars _ eq_refl Hi)
    by starts_rejected E35.
  rewrite (replace_anchored (re_header 2) _ wrap_in_stars _ eq_refl Hi)
    by starts_rejected E35.
  rewrite !(replace_anchored (re_header 3) _ wrap_in_stars _ eq_refl Hi)
    by starts_rejected E35.
  rewrite (replace_kills re_bold loose _ _ kills_bold_loose Hs).
  rewrite italic_pass, inline_code_pass.
  apply (replace_kills re_code_block loose _ _ kills_code_block_loose Hs).
Qed.

(** The list passes, on a line that starts with neither [*] nor a
    digit. *)
Lemma list_passes (c : code_unit) (s : js_string) :
  (c =? 42)%N = false -> is_digit c = false ->
  forallb inline (c :: s) = true ->
  replace (replace (c :: s) re_unordered bullet_item) re_ordered bullet_item
  = c :: s.
Proof.
  intros E42 Ed Hi.
  rewrite (replace_anchored re_unordered _ bullet_item _ eq_refl Hi)
    by starts_rejected E42.
  apply (replace_anchored re_ordered _ bullet_item _ eq_refl Hi).
  starts_rejected Ed.
Qed.

Lemma starts_plain_facts (c : code_unit) (a : js_string) :
  starts_plain (c :: a) = true ->
  is_white_space c = false /\ (c =? 35)%N = false /\ is_digit c = false.
Proof.
  cbn [starts_plain]. intros H. apply negb_true_iff in H.
  apply orb_false_iff in H as [Hw H]. apply orb_false_iff in H as [H1 H2].
  repeat split; assumption.
Qed.

(** X19. A link inside a line, [a[label](url)b], becomes
    [a<url|label>b], when the line holds no [*], no backquote and no other
    opening bracket, the label no closing bracket, the address no closing
    parenthesis, and the line starts with neither white space, [#] nor a
    digit. *)
Theorem markdownToMrkdwn_link (a label url b : js_string) :
  forallb calm (a ++ label ++ url ++ b) = true ->
  forallb (fun c => negb (c =? 93)%N) label = true ->
  forallb (fun c => negb (c =? 41)%N) url = true ->
  starts_plain a = true ->
  markdownToMrkdwn (a ++ lit "[" ++ label ++ lit "](" ++ url ++ lit ")" ++ b)
  = a ++ lit "<" ++ url ++ lit "|" ++ label ++ lit ">" ++ b.
Proof.
  intros Hall Hl2 Hu2 Ha0.
  rewrite !forallb_app in Hall.
  apply andb_true_iff in Hall as [Ha Hall].
  apply andb_true_iff in Hall as [Hl Hall].
  apply andb_true_iff in Hall as [Hu Hb].
  change (lit "[") with [91%N]. change (lit "](") with [93%N; 40%N].
  change (lit ")") with [41%N]. change (lit "<") with [60%N].
  change (lit "|") with [124%N]. change (lit ">") with [62%N].
  cbn [app].
  assert (Hin : forallb loose (a ++ 91 :: label ++ 93 :: 40 :: url ++ 41 :: b)%N
                = true).
  { rewrite forallb_app, (calm_loose a Ha). cbn [forallb andb].
    rewrite forallb_app, (calm_loose label Hl). cbn [forallb andb].
    rewrite forallb_app, (calm_loose url Hu). cbn [forallb andb].
    apply (calm_loose b Hb). }
  assert (Hout : forallb inline (a ++ 60 :: url ++ 124 :: label ++ 62 :: b)%N
                 = true).
  { rewrite forallb_app, (calm_inline a Ha). cbn [forallb andb].
    rewrite forallb_app, (calm_inline url Hu). cbn [forallb andb].
    rewrite forallb_app, (calm_inline label Hl). cbn [forallb andb].
    apply (calm_inline b Hb). }
  pose proof (link_pass a label url b Ha Hb (calm_inline _ Hl) Hl2
                (calm_inline _ Hu) Hu2) as Hlink.
  unfold markdownToMrkdwn. cbv zeta.
  destruct a as [|c a].
  - cbn [app] in *.
    rewrite (passes_before_links 91%N _ eq_refl eq_refl Hin).
    rewrite Hlink.
    apply (list_passes 60%N _ eq_refl eq_refl Hout).
  - cbn [app] in *.
    destruct (starts_plain_facts c a Ha0) as (Hw & E35 & Ed).
    cbn [forallb] in Ha. apply andb_true_iff in Ha as [Hc Ha].
    destruct (calm_facts c Hc) as (_ & _ & E42 & _).
    rewrite (passes_before_links c _ Hw E35 Hin).
    rewrite Hlink.
    apply (list_passes c _ E42 Ed Hout).
Qed.

Lemma markdownToMrkdwn_link_witness :
  markdownToMrkdwn (lit "See [the docs](http://x.org/a_b) for more.")
  = lit "See <http://x.org/a_b|the docs> for more.".
Proof.
  exact (markdownToMrkdwn_link (lit "See ") (lit "the docs")
           (lit "http://x.org/a_b") (lit " for more.")
           eq_refl eq_refl eq_refl eq_refl).
Defined.


(** *** No line of the output starts with white space *)

Lemma black_false (b : bool) (s : js_string) :
  lines_start_black b s = true -> lines_start_black false s = true.
Proof.
  destruct s as [|c s]; [reflexivity|]. cbn [lines_start_black andb negb].
  intros H. apply andb_true_iff in H as [_ H]. exact H.
Qed.

Lemma black_any (b : bool) (s : js_string) :
  lines_start_black true s = true -> lines_start_black b s = true.
Proof. destruct b; [trivial | apply black_false]. Qed.

Lemma black_skipn (n : nat) :
  forall s b, lines_start_black b s = true ->
              lines_start_black false (skipn n s) = true.
Proof.
  induction n as [|n IH]; intros s b H; [exact (black_false b s H)|].
  destruct s as [|c s]; [reflexivity|]. cbn [skipn].
  cbn [lines_start_black] in H. apply andb_true_iff in H as [_ H].
  exact (IH _ _ H).
Qed.

Lemma black_prefix (x y : js_string) :
  forall b, lines_start_black b (x ++ y) = true ->
            lines_start_black b x = true.
Proof.
  induction x as [|c x IH]; intros b H; [reflexivity|].
  cbn [app lines_start_black] in *. apply andb_true_iff in H as [H1 H2].
  rewrite H1, (IH _ H2). reflexivity.
Qed.

(** After a text that ends inside a line, the next one starts no line. *)
Lemma black_app (e x : js_string) :
  forall b,
    lines_start_black b e = true -> e <> [] ->
    is_line_terminator (last e 0%N) = false ->
    lines_start_black false x = true ->
    lines_start_black b (e ++ x) = true.
Proof.
  induction e as [|c e IH]; intros b He Hne Hlast Hx; [contradiction|].
  cbn [lines_start_black] in He. apply andb_true_iff in He as [H1 H2].
  cbn [app lines_start_black]. rewrite H1. cbn [andb].
  destruct e as [|d e].
  - cbn [last] in Hlast. rewrite Hlast. exact Hx.
  - apply IH; [exact H2 | discriminate | exact Hlast | exact Hx].
Qed.

Lemma black_inline (e x : js_string) :
  forallb inline e = true ->
  lines_start_black false (e ++ x) = lines_start_black false x.
Proof.
  induction e as [|c e IH]; [reflexivity|]. cbn [forallb]. intros H.
  apply andb_true_iff in H as [Hc He]. unfold inline in Hc.
  apply negb_true_iff in Hc. cbn [app lines_start_black andb negb].
  rewrite Hc. apply IH, He.
Qed.

Lemma last_inline (e : js_string) (c : code_unit) :
  forallb inline (c :: e) = true ->
  is_line_terminator (last (c :: e) 0%N) = false.
Proof.
  revert c. induction e as [|d e IH]; intros c H.
  - cbn [forallb last] in *. apply andb_true_iff in H as [H _].
    unfold inline in H. apply negb_true_iff in H. exact H.
  - cbn [forallb] in H. apply andb_true_iff in H as [_ H].
    change (last (c :: d :: e) 0%N) with (last (d :: e) 0%N). apply IH, H.
Qed.

(** A pass keeps the property when what it writes for a match starts
    with no white space, has no such line inside and ends inside a
    line. *)
Lemma replace_from_black (re : regex) (r : replacement) :
  (forall before after f b,
      match_at re before after = Some f ->
      lines_start_black b after = true ->
      lines_start_black true (expand r f) = true
      /\ expand r f <> []
      /\ is_line_terminator (last (expand r f) 0%N) = false) ->
  forall n before after b,
    length after <= n ->
    lines_start_black b after = true ->
    lines_start_black b (replace_from re r 0 before after) = true.
Proof.
  intros Hsafe n. induction n as [|n IH]; intros before after b Hn Hb.
  - destruct after; [|simpl in Hn; lia]. cbn [replace_from].
    destruct (match_at re before []) as [f|] eqn:M; [|reflexivity].
    destruct (Hsafe _ _ _ _ M Hb) as (H1 & H2 & H3).
    destruct (length (matched f)); rewrite app_nil_r; apply black_any, H1.
  - destruct after as [|c after].
    { cbn [replace_from].
      destruct (match_at re before []) as [f|] eqn:M; [|reflexivity].
      destruct (Hsafe _ _ _ _ M Hb) as (H1 & H2 & H3).
      destruct (length (matched f)); rewrite app_nil_r; apply black_any, H1. }
    pose proof Hb as Hb'.
    cbn [lines_start_black] in Hb'. apply andb_true_iff in Hb' as [Hc Hafter].
    cbn [replace_from].
    destruct (match_at re before (c :: after)) as [f|] eqn:M.
    + destruct (Hsafe _ _ _ _ M Hb) as (H1 & H2 & H3).
      apply black_app; [apply black_any, H1 | exact H2 | exact H3 |].
      destruct (length (matched f)) as [|k] eqn:Hk.
      * cbn [lines_start_black andb negb].
        apply IH; [simpl in Hn; lia | exact Hafter].
      * pose proof (match_at_prefix _ _ _ _ M) as Hp.
        assert (Hle : k <= length after).
        { pose proof (f_equal (@length _) Hp) as Hlen.
          rewrite length_firstn, Hk in Hlen. cbn [length] in Hlen. lia. }
        rewrite replace_from_skip by exact Hle.
        apply IH; [rewrite length_skipn; simpl in Hn; lia|].
        exact (black_skipn k _ _ Hafter).
    + cbn [lines_start_black]. rewrite Hc. cbn [andb].
      apply IH; [simpl in Hn; lia | exact Hafter].
Qed.

Lemma replace_black (re : regex) (r : replacement) (s : js_string) :
  (forall before after f b,
      match_at re before after = Some f ->
      lines_start_black b after = true ->
      lines_start_black true (expand r f) = true
      /\ expand r f <> []
      /\ is_line_terminator (last (expand r f) 0%N) = false) ->
  lines_start_black true s = true ->
  lines_start_black true (replace s re r) = true.
Proof.
  intros H Hs. unfold replace.
  apply (replace_from_black re r H (length s)); [apply Nat.le_refl | exact Hs].
Qed.


Lemma digit_inline (c : code_unit) :
  is_digit c = true -> is_line_terminator c = false.
Proof.
  intros H. destruct (digit_facts c H) as (_ & Hm & _).
  destruct (mild_facts c Hm) as (E & _). exact E.
Qed.

Lemma inline_cls_mem (k : cls) (c : code_unit) :
  inline_cls k = true -> cls_mem k c = true -> inline c = true.
Proof.
  unfold inline. destruct k; cbn [inline_cls cls_mem]; intros Hk Hc;
    try discriminate Hk.
  - apply N.eqb_eq in Hc. subst c. exact Hk.
  - rewrite (digit_inline c Hc). reflexivity.
  - exact Hc.
Qed.


Lemma In_firstn (n : nat) (l : js_string) (x : code_unit) :
  In x (firstn n l) -> In x l.
Proof.
  intros H. rewrite <- (firstn_skipn n l). apply in_or_app. left. exact H.
Qed.

Lemma captured_inline (before : js_string) (st : mstate) :
  reading before st -> forallb inline (captured st) = true.
Proof.
  intros (m0 & Hp & Hm & Ho & _). unfold captured.
  destruct (opened st) as [n|]; [|reflexivity].
  apply forallb_forall. intros x Hx. apply in_rev in Hx.
  rewrite Hp, firstn_app in Hx.
  replace (length (rev m0 ++ before) - n - length (rev m0)) with 0 in Hx
    by (rewrite length_app; lia).
  cbn [firstn] in Hx. rewrite app_nil_r in Hx.
  apply In_firstn, in_rev in Hx.
  exact (proj1 (forallb_forall _ _) Hm x Hx).
Qed.

(** A tame pattern reads the characters of one line, and so are its
    groups. *)
Lemma run_tame (m : bool) (before : js_string) (ts : list term) :
  tame ts = true ->
  forall st st',
    reading before st -> run m ts st = Some st' -> reading before st'.
Proof.
  induction ts as [|t ts IH]; intros Ht st st' Hr H.
  - injection H as <-. exact Hr.
  - cbn [tame forallb] in Ht. apply andb_true_iff in Ht as [Hk Ht].
    specialize (IH Ht).
    pose proof Hr as (m0 & Hp & Hm & Ho & Hc).
    destruct t as [k|k min greedy| | | |]; cbn [run] in H.
    + destruct (rest st) as [|c rest'] eqn:Er; [discriminate H|].
      destruct (cls_mem k c) eqn:E; [|discriminate H].
      apply (IH (advance c st rest')); [|exact H].
      exists (m0 ++ [c]). cbn [advance pre opened caps].
      rewrite rev_app_distr, Hp, forallb_app, Hm. cbn [rev app forallb].
      rewrite (inline_cls_mem k c Hk E). repeat split; assumption.
    + destruct (rep_inv _ _ _ _ _ _ _ H) as (run0 & rest0 & _ & Hrun & _ & Hcont).
      eapply IH; [|exact Hcont].
      exists (m0 ++ run0). cbn [pre opened caps].
      rewrite rev_app_distr, Hp, <- app_assoc, forallb_app, Hm.
      repeat split; try assumption. cbn [andb].
      apply forallb_forall. intros x Hx.
      exact (inline_cls_mem k x Hk
               (proj1 (forallb_forall _ _) Hrun x Hx)).
    + destruct (at_bol m st); [exact (IH _ _ Hr H) | discriminate H].
    + destruct (at_eol m st); [exact (IH _ _ Hr H) | discriminate H].
    + eapply IH; [|exact H].
      exists m0. cbn [pre opened caps]. repeat split; try assumption.
      rewrite Hp, length_app. lia.
    + eapply IH; [|exact H].
      exists m0. cbn [pre opened caps]. repeat split; try assumption.
      apply Forall_app. split; [exact Hc|].
      constructor; [|constructor]. exact (captured_inline before st Hr).
Qed.

Lemma groups_inline (re : regex) (before after : js_string) (f : found) :
  tame (body re) = true ->
  match_at re before after = Some f ->
  Forall (fun g => forallb inline g = true) (groups f).
Proof.
  intros Ht. unfold match_at.
  destruct (run _ _ _) as [st|] eqn:R; [|discriminate].
  intros H. injection H as <-. cbn [groups].
  assert (H0 : reading before
                 {| pre := before; rest := after; opened := None;
                    caps := [] |}).
  { exists []. repeat split. constructor. }
  destruct (run_tame _ before _ Ht _ _ H0 R) as (_ & _ & _ & _ & Hc).
  exact Hc.
Qed.

Lemma expand_one_line (ps : list piece) (f : found) :
  one_line ps = true ->
  Forall (fun g => forallb inline g = true) (groups f) ->
  forallb inline (expand (Pattern ps) f) = true.
Proof.
  intros Hps Hg. cbn [expand].
  induction ps as [|p ps IH]; [reflexivity|].
  cbn [one_line forallb] in Hps. apply andb_true_iff in Hps as [Hp Hps].
  cbn [flat_map]. rewrite forallb_app, (IH Hps), andb_true_r.
  destruct p as [t|n]; cbn [expand_piece]; [exact Hp|].
  destruct (nth_in_or_default (n - 1) (groups f) []) as [Hin| ->];
    [|reflexivity].
  exact (proj1 (Forall_forall _ _) Hg _ Hin).
Qed.

(** A tame pattern replaced by a line that starts with no white space
    keeps the lines of the text started as they are. *)
Lemma pattern_pass_black (re : regex) (c : code_unit) (t : js_string)
    (ps : list piece) (s : js_string) :
  tame (body re) = true ->
  is_white_space c = false ->
  one_line (Text (c :: t) :: ps) = true ->
  lines_start_black true s = true ->
  lines_start_black true (replace s re (Pattern (Text (c :: t) :: ps))) = true.
Proof.
  intros Ht Hw Hps. apply replace_black. intros before after f b M _.
  pose proof (expand_one_line _ f Hps (groups_inline re _ _ f Ht M)) as Hi.
  cbn [expand flat_map expand_piece app] in *.
  split; [|split; [discriminate | apply last_inline, Hi]].
  pose proof Hi as Hi'. cbn [forallb] in Hi'.
  apply andb_true_iff in Hi' as [Hc Hrest]. unfold inline in Hc.
  apply negb_true_iff in Hc.
  cbn [lines_start_black andb]. rewrite Hw, Hc. cbn [negb andb].
  rewrite <- (app_nil_r (t ++ _)), black_inline by exact Hrest. reflexivity.
Qed.


(** What [/```[\s\S]*?```/] matches: a fence, a text, a fence. *)
Lemma match_code_block (before after : js_string) (f : found) :
  match_at re_code_block before after = Some f ->
  exists inside rest0,
    after = (96 :: 96 :: 96 :: inside ++ 96 :: 96 :: 96 :: rest0)%N
    /\ matched f = (96 :: 96 :: 96 :: inside ++ [96; 96; 96])%N.
Proof.
  unfold match_at.
  change (body re_code_block)
    with [One (Chr 96%N); One (Chr 96%N); One (Chr 96%N);
          Rep AnyChar 0 false;
          One (Chr 96%N); One (Chr 96%N); One (Chr 96%N)].
  cbn [run multiline re_code_block rest pre opened caps].
  destruct after as [|c1 after]; [discriminate|].
  cbn [cls_mem]. destruct (c1 =? 96)%N eqn:E1; [|discriminate].
  cbn [rest advance pre opened caps].
  destruct after as [|c2 after]; [discriminate|].
  destruct (c2 =? 96)%N eqn:E2; [|discriminate].
  cbn [rest advance pre opened caps].
  destruct after as [|c3 after]; [discriminate|].
  destruct (c3 =? 96)%N eqn:E3; [|discriminate].
  cbn [rest advance pre opened caps].
  apply N.eqb_eq in E1, E2, E3. subst c1 c2 c3.
  match goal with
  | |- context [rep ?a ?b ?c ?d ?e ?i] =>
      destruct (rep a b c d e i) as [st|] eqn:R; [|discriminate]
  end.
  intros H. injection H as <-.
  destruct (rep_inv _ _ _ _ _ _ _ R) as (t & rest0 & -> & _ & _ & Hc).
  cbn [run rest pre opened caps] in Hc.
  destruct rest0 as [|d1 rest0]; [discriminate Hc|].
  cbn [cls_mem] in Hc. destruct (d1 =? 96)%N eqn:E1; [|discriminate Hc].
  cbn [rest advance pre opened caps] in Hc.
  destruct rest0 as [|d2 rest0]; [discriminate Hc|].
  destruct (d2 =? 96)%N eqn:E2; [|discriminate Hc].
  cbn [rest advance pre opened caps] in Hc.
  destruct rest0 as [|d3 rest0]; [discriminate Hc|].
  destruct (d3 =? 96)%N eqn:E3; [|discriminate Hc].
  apply N.eqb_eq in E1, E2, E3. subst d1 d2 d3. injection Hc as <-.
  exists t, rest0. split; [reflexivity|].
  cbn [matched advance pre].
  apply (matched_from _ _ rest0); lists.
Qed.

(** [slice(3, -3)] of a fenced text is the text inside. *)
Lemma slice_fence (a b inside : js_string) :
  length a = 3 -> length b = 3 ->
  slice (a ++ inside ++ b) 3 (-3) = inside.
Proof.
  intros Ha Hb. unfold slice, clamp_index. cbv zeta.
  rewrite !length_app, Ha, Hb.
  change (3 <? 0)%Z with false. change (-3 <? 0)%Z with true. cbv iota.
  replace (Z.to_nat (Z.min 3 (Z.of_nat (3 + (length inside + 3))))) with 3
    by lia.
  replace (Z.to_nat
             (Z.max (Z.max (Z.of_nat (3 + (length inside + 3)) + -3) 0
                     - Z.min 3 (Z.of_nat (3 + (length inside + 3)))) 0))
    with (length inside) by lia.
  rewrite <- Ha at 1. rewrite skipn_app, Nat.sub_diag, skipn_all.
  cbn [skipn app]. rewrite firstn_app, Nat.sub_diag, firstn_all.
  cbn [firstn]. apply app_nil_r.
Qed.

Lemma take_drop_while (p : code_unit -> bool) (s : js_string) :
  s = take_while p s ++ drop_while p s.
Proof.
  induction s as [|c s IH]; [reflexivity|].
  cbn [take_while drop_while]. destruct (p c); [|reflexivity].
  cbn [app]. f_equal. exact IH.
Qed.

(** [trim] keeps the text between the white space at the two ends; what
    it keeps ends with no white space. *)
Lemma trim_split (s : js_string) :
  exists w1 w2,
    s = w1 ++ trim s ++ w2
    /\ (trim s = [] \/ is_white_space (last (trim s) 0%N) = false).
Proof.
  unfold trim. set (u := drop_while is_white_space s).
  exists (take_while is_white_space s),
         (rev (take_while is_white_space (rev u))).
  split.
  - rewrite <- rev_app_distr, <- take_drop_while, rev_involutive.
    apply take_drop_while.
  - pose proof (drop_while_head is_white_space (rev u)) as H.
    destruct (drop_while is_white_space (rev u)) as [|c l]; [left; reflexivity|].
    right. cbn [rev]. rewrite last_last. apply negb_true_iff, H.
Qed.

Lemma terminator_is_white_space (c : code_unit) :
  is_white_space c = false -> is_line_terminator c = false.
Proof.
  unfold is_white_space. intros H.
  apply orb_false_iff in H as [_ H]. exact H.
Qed.

(** The pass for code blocks keeps the lines of the text started as
    they are: what it writes is a part of what it read. *)
Lemma code_block_pass_black (s : js_string) :
  lines_start_black true s = true ->
  lines_start_black true (replace s re_code_block (Replacer trim_fence))
  = true.
Proof.
  apply replace_black. intros before after f b M Hb.
  destruct (match_code_block _ _ _ M) as (inside & rest0 & -> & Hf).
  cbn [expand]. rewrite Hf. unfold trim_fence.
  change (96 :: 96 :: 96 :: inside ++ [96; 96; 96])%N
    with (lit "```" ++ inside ++ lit "```").
  rewrite slice_fence by reflexivity.
  change (lit "```") with [96; 96; 96]%N.
  assert (Hin : lines_start_black false
                  (inside ++ 96 :: 96 :: 96 :: rest0)%N = true).
  { exact (black_skipn 3 _ _ Hb). }
  destruct (trim_split inside) as (w1 & w2 & Hsplit & Hlast).
  assert (Hcore : lines_start_black false (trim inside) = true).
  { rewrite Hsplit, <- !app_assoc in Hin.
    pose proof (black_skipn (length w1) _ _ Hin) as H.
    rewrite skipn_app, Nat.sub_diag, skipn_all in H. cbn [skipn app] in H.
    exact (black_prefix _ _ _ H). }
  split; [|split; [discriminate|]].
  - cbn [app lines_start_black]. change (is_white_space 96) with false.
    change (is_line_terminator 96) with false. cbn [andb negb].
    destruct Hlast as [-> | Hlast]; [reflexivity|].
    destruct (trim inside) as [|c core] eqn:E; [reflexivity|].
    apply black_app;
      [exact Hcore | discriminate
      | exact (terminator_is_white_space _ Hlast) | reflexivity].
  - replace ([96; 96; 96] ++ trim inside ++ [96; 96; 96])%N
      with (([96; 96; 96] ++ trim inside ++ [96; 96]) ++ [96])%N
      by (rewrite <- !app_assoc; reflexivity).
    rewrite last_last. reflexivity.
Qed.

(** X16. No line of the output of [markdownToMrkdwn] starts with
    white space, whatever the input: indentation does not survive, and
    no empty line is left between two lines. *)
Theorem markdownToMrkdwn_no_line_starts_with_white_space (s : js_string) :
  lines_start_black true (markdownToMrkdwn s) = true
  /\ forall a b, markdownToMrkdwn s <> a ++ [LF; LF] ++ b.
Proof.
  assert (H : lines_start_black true (markdownToMrkdwn s) = true).
  { unfold markdownToMrkdwn. cbv zeta.
    apply (pattern_pass_black re_ordered); try reflexivity.
    apply (pattern_pass_black re_unordered); try reflexivity.
    apply (pattern_pass_black re_link); try reflexivity.
    apply code_block_pass_black.
    rewrite inline_code_pass, italic_pass.
    apply (pattern_pass_black re_bold); try reflexivity.
    apply (pattern_pass_black (re_header 3)); try reflexivity.
    apply (pattern_pass_black (re_header 3)); try reflexivity.
    apply (pattern_pass_black (re_header 2)); try reflexivity.
    apply (pattern_pass_black (re_header 1)); try reflexivity.
    rewrite replace_leading_space. apply drop_line_starts_clean. }
  split; [exact H|]. intros a b E.
  rewrite E, empty_line_not_black in H. discriminate H.
Qed.


(** *** Code blocks *)

Lemma drop_line_starts_app (x : js_string) (c : code_unit) (y : js_string) :
  is_white_space c = false ->
  forall b,
    drop_line_starts b (x ++ c :: y)
    = drop_line_starts b x ++ c :: drop_line_starts (is_line_terminator c) y.
Proof.
  intros Hc. induction x as [|a x IH]; intros b.
  - cbn [app drop_line_starts]. rewrite Hc, andb_false_r. reflexivity.
  - cbn [app drop_line_starts]. destruct (b && is_white_space a).
    + apply IH.
    + cbn [app]. rewrite IH. reflexivity.
Qed.

Lemma plain_false (b : bool) (s : js_string) :
  lines_start_plain b s = true -> lines_start_plain false s = true.
Proof.
  destruct s as [|c s]; [reflexivity|]. cbn [lines_start_plain andb negb].
  intros H. apply andb_true_iff in H as [_ H]. exact H.
Qed.

Lemma plain_skipn (n : nat) :
  forall s b, lines_start_plain b s = true ->
              lines_start_plain false (skipn n s) = true.
Proof.
  induction n as [|n IH]; intros s b H; [exact (plain_false b s H)|].
  destruct s as [|c s]; [reflexivity|]. cbn [skipn].
  cbn [lines_start_plain] in H. apply andb_true_iff in H as [_ H].
  exact (IH _ _ H).
Qed.

Lemma plain_prefix (x y : js_string) :
  forall b, lines_start_plain b (x ++ y) = true ->
            lines_start_plain b x = true.
Proof.
  induction x as [|c x IH]; intros b H; [reflexivity|].
  cbn [app lines_start_plain] in *. apply andb_true_iff in H as [H1 H2].
  rewrite H1, (IH _ H2). reflexivity.
Qed.

(** A fence after a text starts no header and no item. *)
Lemma plain_fence (x : js_string) :
  forall b, lines_start_plain b x = true ->
            lines_start_plain b (x ++ [96; 96; 96])%N = true.
Proof.
  induction x as [|c x IH]; intros b H.
  - cbn. rewrite !andb_false_r. reflexivity.
  - cbn [app lines_start_plain] in *. apply andb_true_iff in H as [H1 H2].
    rewrite H1, (IH _ H2). reflexivity.
Qed.

Lemma kills_bold_starless : kills re_bold (fun c => negb (c =? 42)%N).
Proof.
  split; [|intros bol; reflexivity]. intros bol c b H.
  apply negb_true_iff in H.
  change (reject false (One (Chr 42%N) :: tl (body re_bold)) bol (c :: b)
          = true).
  cbn [reject cls_mem]. rewrite H. reflexivity.
Qed.

Lemma kills_unordered_starless :
  kills re_unordered (fun c => negb (c =? 42)%N).
Proof.
  split; [|intros bol; destruct bol; reflexivity]. intros bol c b H.
  apply negb_true_iff in H.
  change (reject true (Bol :: One (Chr 42%N) :: tl (tl (body re_unordered)))
            bol (c :: b) = true).
  cbn [reject cls_mem]. rewrite H. destruct bol; reflexivity.
Qed.

Lemma kills_link_bracketless : kills re_link (fun c => negb (c =? 91)%N).
Proof.
  split; [|intros bol; reflexivity]. intros bol c b H.
  apply negb_true_iff in H.
  change (reject false (One (Chr 91%N) :: tl (body re_link)) bol (c :: b)
          = true).
  cbn [reject cls_mem]. rewrite H. reflexivity.
Qed.

(** [/```[\s\S]*?```/] on a fenced text without backquote inside. *)
Lemma match_fenced (inside : js_string) :
  forallb (fun c => negb (c =? 96)%N) inside = true ->
  match_at re_code_block [] (96 :: 96 :: 96 :: inside ++ [96; 96; 96])%N
  = Some {| matched := (96 :: 96 :: 96 :: inside ++ [96; 96; 96])%N;
            groups := [] |}.
Proof.
  intros Hin. unfold match_at.
  change (body re_code_block)
    with [One (Chr 96%N); One (Chr 96%N); One (Chr 96%N);
          Rep AnyChar 0 false;
          One (Chr 96%N); One (Chr 96%N); One (Chr 96%N)].
  cbn [run multiline re_code_block rest pre opened caps advance cls_mem
       N.eqb Pos.eqb].
  rewrite rep_lazy_run.
  - cbn [rep run rest pre opened caps advance cls_mem N.eqb Pos.eqb].
    f_equal. f_equal. apply (matched_from _ _ []); lists.
  - apply forallb_forall. reflexivity.
  - intros c b st' Hc Hrest. cbn [run]. rewrite Hrest.
    pose proof (proj1 (forallb_forall _ inside) Hin c Hc) as E.
    cbn beta in E. apply negb_true_iff in E. cbn [cls_mem]. rewrite E.
    reflexivity.
Qed.

Lemma forallb_trim (P : code_unit -> bool) (s : js_string) :
  forallb P s = true -> forallb P (trim s) = true.
Proof.
  intros H. destruct (trim_split s) as (w1 & w2 & E & _).
  rewrite E, !forallb_app in H.
  apply andb_true_iff in H as [_ H]. apply andb_true_iff in H as [H _].
  exact H.
Qed.

Lemma forallb_weaken (P Q : code_unit -> bool) (s : js_string) :
  (forall c, P c = true -> Q c = true) ->
  forallb P s = true -> forallb Q s = true.
Proof.
  intros HPQ H. apply forallb_forall. intros c Hc.
  exact (HPQ c (proj1 (forallb_forall _ _) H c Hc)).
Qed.

(** X20. A fenced block whose content holds no markup stays a
    block, but not as it was written: the white space at the start of
    each line of the content, the indentation of code, is dropped with
    the empty lines, and the content is trimmed, so that the line breaks
    after the opening fence and before the closing one go. *)
Theorem markdownToMrkdwn_code_block (inside : js_string) :
  forallb unmarked inside = true ->
  lines_start_plain false (drop_line_starts false inside) = true ->
  markdownToMrkdwn (lit "```" ++ inside ++ lit "```")
  = lit "```" ++ trim (drop_line_starts false inside) ++ lit "```".
Proof.
  intros Hu Hl. change (lit "```") with [96; 96; 96]%N.
  set (kept := drop_line_starts false inside) in *.
  assert (Hk : forallb unmarked kept = true)
    by exact (forallb_drop_line_starts unmarked inside false Hu).
  assert (Hfacts : forall t,
             forallb unmarked t = true ->
             forallb (fun c => negb (c =? 42)%N) ([96; 96; 96] ++ t ++ [96; 96; 96])%N = true
             /\ forallb (fun c => negb (c =? 91)%N) ([96; 96; 96] ++ t ++ [96; 96; 96])%N = true
             /\ forallb (fun c => negb (c =? 96)%N) t = true).
  { intros t Ht. repeat split.
    - cbn [app forallb]. rewrite forallb_app. cbn [forallb].
      rewrite andb_true_r. apply (forallb_weaken unmarked); [|exact Ht].
      intros c Hc. destruct (unmarked_facts c Hc) as (-> & _). reflexivity.
    - cbn [app forallb]. rewrite forallb_app. cbn [forallb].
      rewrite andb_true_r. apply (forallb_weaken unmarked); [|exact Ht].
      intros c Hc. destruct (unmarked_facts c Hc) as (_ & _ & _ & ->).
      reflexivity.
    - apply (forallb_weaken unmarked); [|exact Ht].
      intros c Hc. destruct (unmarked_facts c Hc) as (_ & _ & -> & _).
      reflexivity. }
  destruct (Hfacts kept Hk) as (Hstar & _ & Hquote).
  destruct (Hfacts (trim kept) (forallb_trim _ _ Hk)) as (Hstar' & Hbracket & _).
  assert (Hplain : lines_start_plain true ([96; 96; 96] ++ kept ++ [96; 96; 96])%N
                   = true).
  { cbn [app lines_start_plain].
    change (opens_item 96) with false. change (is_line_terminator 96) with false.
    cbn [andb negb]. apply plain_fence, Hl. }
  assert (Hplain' : lines_start_plain true
                      ([96; 96; 96] ++ trim kept ++ [96; 96; 96])%N = true).
  { cbn [app lines_start_plain].
    change (opens_item 96) with false. change (is_line_terminator 96) with false.
    cbn [andb negb]. apply plain_fence.
    destruct (trim_split kept) as (w1 & w2 & E & _).
    rewrite E in Hl.
    pose proof (plain_skipn (length w1) _ _ Hl) as H.
    rewrite skipn_app, Nat.sub_diag, skipn_all in H. cbn [skipn app] in H.
    exact (plain_prefix _ _ _ H). }
  unfold markdownToMrkdwn. cbv zeta. rewrite leading_passes.
  assert (Hdrop : drop_line_starts true ([96; 96; 96] ++ inside ++ [96; 96; 96])%N
                  = ([96; 96; 96] ++ kept ++ [96; 96; 96])%N).
  { cbn [app drop_line_starts].
    change (is_white_space 96) with false.
    change (is_line_terminator 96) with false. cbn [andb].
    rewrite (drop_line_starts_app inside 96%N [96; 96]%N eq_refl).
    reflexivity. }
  rewrite Hdrop.
  set (fenced := ([96; 96; 96] ++ kept ++ [96; 96; 96])%N) in *.
  rewrite (replace_never (re_header 1) _ fenced)
    by (apply never_header; [lia | exact Hplain]).
  rewrite (replace_never (re_header 2) _ fenced)
    by (apply never_header; [lia | exact Hplain]).
  rewrite !(replace_never (re_header 3) _ fenced)
    by (apply never_header; [lia | exact Hplain]).
  subst fenced. cbn [app].
  rewrite (replace_kills re_bold _ _ _ kills_bold_starless Hstar).
  rewrite italic_pass, inline_code_pass. cbn [app].
  rewrite (replace_whole re_code_block (Replacer trim_fence) _ _
             (match_fenced kept Hquote) eq_refl)
    by (discriminate || (intros bol; reflexivity)).
  cbn [expand matched]. unfold trim_fence.
  change (96 :: 96 :: 96 :: kept ++ [96; 96; 96])%N
    with (lit "```" ++ kept ++ lit "```").
  rewrite slice_fence by reflexivity.
  change (lit "```") with [96; 96; 96]%N.
  cbn [app] in Hbracket, Hstar', Hplain'. cbn [app].
  rewrite (replace_kills re_link _ _ _ kills_link_bracketless Hbracket).
  rewrite (replace_kills re_unordered _ _ _ kills_unordered_starless Hstar').
  apply replace_never, never_ordered, Hplain'.
Qed.

Lemma markdownToMrkdwn_code_block_witness :
  markdownToMrkdwn
    (lit "```" ++ [LF] ++ lit "if a:" ++ [LF] ++ lit "    b()" ++ [LF]
     ++ lit "```")
  = lit "```" ++ lit "if a:" ++ [LF] ++ lit "b()" ++ lit "```".
Proof.
  exact (markdownToMrkdwn_code_block
           ([LF] ++ lit "if a:" ++ [LF] ++ lit "    b()" ++ [LF])
           eq_refl eq_refl).
Defined.

End TextFacts.

(* ================================================================== *)
(** ** The Outbound Dispatcher *)
(* ================================================================== *)

Module DispatchFacts.
Import Js JsFacts Schema Platform Mrkdwn SlackQna Spec.

(** C4. A message whose [dataType] and payload are not one of the
    recognized pairs is dropped: [postMessage] calls nothing on the
    platform, leaves the world as it was and its promise is fulfilled. *)
Theorem postMessage_unrecognized_noop
    (platform : list event -> call -> option thrown)
    (message : OutgoingMessage) (w : world) :
  recognized message = false ->
  postMessage platform message w = (w, Fulfilled tt).
Proof.
  unfold recognized, postMessage.
  destruct (data message) as [s|b]; simpl; intros H.
  - apply orb_false_iff in H as [H Hmd].
    apply orb_false_iff in H as [Ht Hm].
    rewrite Ht, Hm, Hmd. simpl. rewrite !andb_false_r. reflexivity.
  - apply orb_false_iff in H as [Hi Hf].
    rewrite Hi, Hf. simpl. rewrite !andb_false_r. reflexivity.
Qed.

Lemma postMessage_unrecognized_noop_witness :
  let message := {| out_channelId := lit "C1"; data := Str (lit "hi");
                    dataType := lit "image"; out_threadId := None;
                    block := None |} in
  recognized message = false
  /\ postMessage accepting message start = (start, Fulfilled tt).
Proof.
  cbv zeta. split; [reflexivity|].
  apply postMessage_unrecognized_noop. reflexivity.
Defined.

(** C10. For ['markdown'] with a string payload, [postMessage] makes one
    [chat.postMessage] call: its single layout block carries
    [markdownToMrkdwn data], its top-level [text] is [data] as given. *)
Theorem postMessage_markdown
    (platform : list event -> call -> option thrown)
    (message : OutgoingMessage) (text : js_string) (w : world) :
  dataType message = lit "markdown" ->
  data message = Str text ->
  exists b : layout_block,
    trace (fst (postMessage platform message w))
    = trace w ++ [Call (ChatPostMessage (out_channelId message)
                          (out_threadId message) (Some [b]) text)]
    /\ block_texts b = [markdownToMrkdwn text]
    /\ b = layout (block message) (markdownToMrkdwn text).
Proof.
  intros Ht Hd. unfold postMessage. rewrite Ht, Hd.
  replace (eqb (lit "markdown") (lit "text")) with false by reflexivity.
  replace (eqb (lit "markdown") (lit "mrkdwn")) with false by reflexivity.
  rewrite eqb_refl. cbn [andb is_string the_string].
  exists (layout (block message) (markdownToMrkdwn text)).
  split; [reflexivity|]. split; [|reflexivity].
  unfold layout. destruct (block message) as [k|]; [|reflexivity].
  destruct (eqb k (lit "section")); reflexivity.
Qed.

Lemma postMessage_markdown_witness :
  let message := {| out_channelId := lit "C1"; data := Str (lit "**hi**");
                    dataType := lit "markdown"; out_threadId := None;
                    block := Some (lit "section") |} in
  exists b : layout_block,
    trace (fst (postMessage accepting message start))
    = [Call (ChatPostMessage (lit "C1") None (Some [b]) (lit "**hi**"))]
    /\ block_texts b = [markdownToMrkdwn (lit "**hi**")]
    /\ b = layout (Some (lit "section")) (markdownToMrkdwn (lit "**hi**")).
Proof.
  cbv zeta.
  exact (postMessage_markdown accepting
           {| out_channelId := lit "C1"; data := Str (lit "**hi**");
              dataType := lit "markdown"; out_threadId := None;
              block := Some (lit "section") |}
           (lit "**hi**") start eq_refl eq_refl).
Defined.

End DispatchFacts.

(* ================================================================== *)
(** ** The Outbound Dispatcher, case by case *)
(* ================================================================== *)

Module DispatchCases.
Import Js JsFacts Schema Platform Mrkdwn SlackQna Spec.

(** X1. [postMessage] makes at most one call on the client. For a pair
    of data type and payload that it does not recognize it does nothing
    and is fulfilled; otherwise it makes exactly one send, to the channel
    and the thread of the message, and settles as the platform answers
    that call: a rejection is passed on to the caller. *)
Theorem postMessage_one_send
    (platform : list event -> call -> option thrown)
    (message : OutgoingMessage) (w : world) :
  (recognized message = false
   /\ postMessage platform message w = (w, Fulfilled tt))
  \/ (recognized message = true
      /\ exists c,
          is_send c = true
          /\ send_channel c = out_channelId message
          /\ send_thread c = out_threadId message
          /\ postMessage platform message w
             = (record (Call c) w,
                match platform (trace w) c with
                | None => Fulfilled tt
                | Some e => Rejected e
                end)).
Proof.
  unfold recognized, postMessage.
  destruct (data message) as [s|b]; cbn [is_string isBuffer the_string the_buffer];
    rewrite ?andb_true_r, ?andb_false_r.
  - destruct (eqb (dataType message) (lit "text")) eqn:Et;
      [right; split; [reflexivity|]; eexists; repeat split; reflexivity|].
    destruct (eqb (dataType message) (lit "mrkdwn")) eqn:Em;
      [right; split; [reflexivity|]; eexists; repeat split; reflexivity|].
    destruct (eqb (dataType message) (lit "markdown")) eqn:Ed;
      [right; split; [reflexivity|]; eexists; repeat split; reflexivity|].
    left. split; reflexivity.
  - destruct (eqb (dataType message) (lit "image")) eqn:Ei;
      [right; split; [reflexivity|]; eexists; repeat split; reflexivity|].
    destruct (eqb (dataType message) (lit "file")) eqn:Ef;
      [right; split; [reflexivity|]; eexists; repeat split; reflexivity|].
    left. split; reflexivity.
Qed.

(** X2. A recognized message with a string payload is posted with
    [chat.postMessage], and the fallback [text] of the call is always the
    payload as given, also for ['markdown']. A ['text'] message carries
    no block; the two other types carry exactly one, a section when
    [block] is ['section'] and a context block otherwise (also when
    [block] is absent), that shows the payload, converted by
    [markdownToMrkdwn] for ['markdown'] only. *)
Theorem postMessage_string_payload
    (platform : list event -> call -> option thrown)
    (message : OutgoingMessage) (text : js_string) (w : world) :
  data message = Str text ->
  recognized message = true ->
  exists blocks,
    trace (fst (postMessage platform message w))
    = trace w ++ [Call (ChatPostMessage (out_channelId message)
                          (out_threadId message) blocks text)]
    /\ (blocks = None <-> dataType message = lit "text")
    /\ (dataType message <> lit "text" ->
        let shown := if eqb (dataType message) (lit "markdown")
                     then markdownToMrkdwn text else text in
        (block message = Some (lit "section")
         -> blocks = Some [SectionBlock shown])
        /\ (block message <> Some (lit "section")
            -> blocks = Some [ContextBlock [shown]])).
Proof.
  intros Hd Hr. unfold recognized in Hr. unfold postMessage.
  rewrite Hd in *. cbn [is_string the_string]. rewrite ?andb_true_r.
  assert (Hlayout : forall shown,
             (block message = Some (lit "section")
              -> layout (block message) shown = SectionBlock shown)
             /\ (block message <> Some (lit "section")
                 -> layout (block message) shown = ContextBlock [shown])).
  { intros shown. unfold layout. destruct (block message) as [k|].
    - destruct (eqb k (lit "section")) eqn:E.
      + apply eqb_eq in E. subst k. split; [reflexivity | congruence].
      + apply eqb_neq in E. split; [congruence | reflexivity].
    - split; [discriminate | reflexivity]. }
  destruct (eqb (dataType message) (lit "text")) eqn:Et.
  - apply eqb_eq in Et. exists None. split; [reflexivity|].
    split; [tauto | congruence].
  - apply eqb_neq in Et. cbn [orb] in Hr.
    destruct (eqb (dataType message) (lit "mrkdwn")) eqn:Em.
    + apply eqb_eq in Em.
      exists (Some [layout (block message) text]).
      split; [reflexivity|]. split; [split; [discriminate | congruence]|].
      intros _. rewrite Em.
      change (eqb (lit "mrkdwn") (lit "markdown")) with false. cbv zeta iota.
      destruct (Hlayout text) as [H1 H2].
      split; intros H; [rewrite (H1 H) | rewrite (H2 H)]; reflexivity.
    + cbn [orb] in Hr. rewrite Hr.
      exists (Some [layout (block message) (markdownToMrkdwn text)]).
      split; [reflexivity|]. split; [split; [discriminate | congruence]|].
      intros _. cbv zeta iota.
      destruct (Hlayout (markdownToMrkdwn text)) as [H1 H2].
      split; intros H; [rewrite (H1 H) | rewrite (H2 H)]; reflexivity.
Qed.

Lemma postMessage_string_payload_witness :
  let message := {| out_channelId := lit "C1"; data := Str (lit "**hi**");
                    dataType := lit "markdown"; out_threadId := None;
                    block := None |} in
  exists blocks,
    trace (fst (postMessage accepting message start))
    = [Call (ChatPostMessage (lit "C1") None blocks (lit "**hi**"))]
    /\ blocks = Some [ContextBlock [lit "*hi*"]].
Proof.
  cbv zeta.
  destruct (postMessage_string_payload accepting
              {| out_channelId := lit "C1"; data := Str (lit "**hi**");
                 dataType := lit "markdown"; out_threadId := None;
                 block := None |}
              (lit "**hi**") start eq_refl eq_refl)
    as (blocks & Htrace & _ & Hshape).
  exists blocks. split; [exact Htrace|].
  refine (proj2 (Hshape _) _); discriminate.
Defined.

(** X3. A recognized message with a binary payload is uploaded with
    [filesUploadV2] to the channel and the thread of the message, under
    the fixed name ['data.png'] for an image and ['data.txt'] for a
    file. *)
Theorem postMessage_binary_payload
    (platform : list event -> call -> option thrown)
    (message : OutgoingMessage) (file : buffer) (w : world) :
  data message = Buf file ->
  recognized message = true ->
  trace (fst (postMessage platform message w))
  = trace w ++ [Call (FilesUploadV2 (out_channelId message)
                        (out_threadId message) file
                        (if eqb (dataType message) (lit "image")
                         then lit "data.png" else lit "data.txt"))].
Proof.
  intros Hd Hr. unfold recognized in Hr. unfold postMessage.
  rewrite Hd in *. cbn [is_string isBuffer the_buffer].
  rewrite ?andb_false_r, ?andb_true_r.
  destruct (eqb (dataType message) (lit "image")) eqn:Ei; [reflexivity|].
  cbn [orb] in Hr. rewrite Hr. reflexivity.
Qed.

Lemma postMessage_binary_payload_witness :
  let message := {| out_channelId := lit "C1"; data := Buf [Byte.x00];
                    dataType := lit "file"; out_threadId := Some (lit "1.2");
                    block := Some (lit "section") |} in
  trace (fst (postMessage accepting message start))
  = [Call (FilesUploadV2 (lit "C1") (Some (lit "1.2")) [Byte.x00]
             (lit "data.txt"))].
Proof.
  cbv zeta.
  exact (postMessage_binary_payload accepting
           {| out_channelId := lit "C1"; data := Buf [Byte.x00];
              dataType := lit "file"; out_threadId := Some (lit "1.2");
              block := Some (lit "section") |}
           [Byte.x00] start eq_refl eq_refl).
Defined.

End DispatchCases.

(* ================================================================== *)
(** ** The Lifecycle Coordinator *)
(* ================================================================== *)

Module LifecycleFacts.
Import Js JsFacts Schema Platform Mrkdwn SlackQna Spec.
Local Open Scope async_scope.

Section Steps.

Variable platform : list event -> call -> option thrown.

Lemma perform_accepted (c : call) (w : world) :
  platform (trace w) c = None ->
  perform platform c w = (record (Call c) w, Fulfilled tt).
Proof. intros H. unfold perform. rewrite H. reflexivity. Qed.

Lemma react_add_accepted (r : option js_string) (im : IncomingMessage) (w : world) :
  accepts_reactions platform ->
  truthy_opt r = true ->
  react_add platform r im w
  = (record (Call (ReactionsAdd (channelId im) (emoji r) (messageId im))) w,
     Fulfilled tt).
Proof.
  intros Hp Hr. unfold react_add, when. rewrite Hr.
  apply perform_accepted, Hp. reflexivity.
Qed.

Lemma react_remove_accepted (r : option js_string) (im : IncomingMessage) (w : world) :
  accepts_reactions platform ->
  truthy_opt r = true ->
  react_remove platform r im w
  = (record (Call (ReactionsRemove (channelId im) (emoji r) (messageId im))) w,
     Fulfilled tt).
Proof.
  intros Hp Hr. unfold react_remove, when. rewrite Hr.
  apply perform_accepted, Hp. reflexivity.
Qed.

End Steps.

Lemma or_default_truthy (a : option js_string) (d : js_string) :
  truthy_string d = true -> truthy_string (or_default a d) = true.
Proof.
  intros Hd. unfold or_default. destruct a as [s|]; [|exact Hd].
  destruct (truthy_string s) eqn:E; assumption.
Qed.

(** *** Traces only grow, and by events one can bound *)

Lemma extends_ret {A} (P : event -> Prop) (a : A) : extends P (ret a).
Proof. intros w. exists []. simpl. rewrite app_nil_r. split; [reflexivity | constructor]. Qed.

Lemma extends_bind {A B} (P : event -> Prop) (m : async A) (k : A -> async B) :
  extends P m -> (forall a, extends P (k a)) -> extends P (bind m k).
Proof.
  intros Hm Hk w. destruct (Hm w) as [evs [E F]]. unfold bind.
  destruct (m w) as [w' [a|e]]; simpl in E.
  - destruct (Hk a w') as [evs' [E' F']].
    exists (evs ++ evs'). rewrite E', E, app_assoc. split; [reflexivity|].
    apply Forall_app; split; assumption.
  - exists evs. split; assumption.
Qed.

Lemma extends_when (P : event -> Prop) (c : bool) (m : async unit) :
  extends P m -> extends P (when c m).
Proof. intros Hm. destruct c; [exact Hm | apply extends_ret]. Qed.

Lemma extends_perform (P : event -> Prop) platform (c : call) :
  P (Call c) -> extends P (perform platform c).
Proof. intros H w. exists [Call c]. split; [reflexivity|]. constructor; [exact H | constructor]. Qed.

Lemma extends_console_info (P : event -> Prop) name im :
  P (ConsoleInfo name im) -> extends P (console_info name im).
Proof. intros H w. exists [ConsoleInfo name im]. split; [reflexivity|]. constructor; [exact H | constructor]. Qed.

Lemma extends_console_error (P : event -> Prop) err :
  P (ConsoleError err) -> extends P (console_error err).
Proof. intros H w. exists [ConsoleError err]. split; [reflexivity|]. constructor; [exact H | constructor]. Qed.

Lemma extends_invoke (P : event -> Prop) hook im :
  P (Invoke im) -> extends P (invoke hook im).
Proof. intros H w. exists [Invoke im]. split; [reflexivity|]. constructor; [exact H | constructor]. Qed.

Lemma extends_floating (P : event -> Prop) (m : async unit) :
  extends P m -> extends P (floating m).
Proof.
  intros Hm w. destruct (Hm w) as [evs [E F]]. exists evs.
  unfold floating. destruct (m w) as [w' [a|e]]; simpl in *;
    split; assumption.
Qed.

Lemma extends_try_catch_finally (P : event -> Prop)
    (body : async unit) (handle : thrown -> async unit) (cleanup : async unit) :
  extends P body -> (forall e, extends P (handle e)) -> extends P cleanup ->
  extends P (try_catch_finally body handle cleanup).
Proof.
  intros Hb Hh Hc w. unfold try_catch_finally.
  destruct (Hb w) as [evs [E F]].
  destruct (body w) as [w' [a|e]]; simpl in E.
  - destruct (Hc w') as [evs2 [E2 F2]].
    exists (evs ++ evs2).
    destruct (cleanup w') as [w2 [a2|e2]]; simpl in *;
      rewrite E2, E, app_assoc;
      (split; [reflexivity | apply Forall_app; split; assumption]).
  - destruct (Hh e w') as [evs1 [E1 F1]].
    destruct (handle e w') as [w1 r1]; simpl in E1.
    destruct (Hc w1) as [evs2 [E2 F2]].
    exists (evs ++ evs1 ++ evs2).
    destruct (cleanup w1) as [w2 [a2|e2]]; simpl in *;
      rewrite E2, E1, E, !app_assoc;
      (split; [reflexivity
              | repeat (apply Forall_app; split); assumption]).
Qed.

(** [postMessage] makes at most one call, a send to the channel and the
    thread of its argument. *)
Lemma extends_postMessage (P : event -> Prop) platform (message : OutgoingMessage) :
  (forall c, is_send c = true ->
             send_channel c = out_channelId message ->
             send_thread c = out_threadId message -> P (Call c)) ->
  extends P (postMessage platform message).
Proof.
  intros H. unfold postMessage.
  repeat match goal with
         | |- extends _ (if ?b then _ else _) => destruct b
         end;
    try apply extends_ret; apply extends_perform, H; reflexivity.
Qed.

Lemma calls_app (a b : list event) : calls (a ++ b) = calls a ++ calls b.
Proof.
  induction a as [|ev a IH]; [reflexivity|].
  destruct ev; simpl; rewrite IH; reflexivity.
Qed.

Lemma sends_app (a b : list event) : sends (a ++ b) = sends a ++ sends b.
Proof. unfold sends. rewrite calls_app. apply filter_app. Qed.

Section Coordinator.

Variable platform : list event -> call -> option thrown.
Variable this : t.

Lemma extends_react_add (P : event -> Prop) r im :
  (truthy_opt r = true ->
   P (Call (ReactionsAdd (channelId im) (emoji r) (messageId im)))) ->
  extends P (react_add platform r im).
Proof.
  intros H. unfold react_add. destruct (truthy_opt r); simpl.
  - apply extends_perform. auto.
  - apply extends_ret.
Qed.

Lemma extends_react_remove (P : event -> Prop) r im :
  (truthy_opt r = true ->
   P (Call (ReactionsRemove (channelId im) (emoji r) (messageId im)))) ->
  extends P (react_remove platform r im).
Proof.
  intros H. unfold react_remove. destruct (truthy_opt r); simpl.
  - apply extends_perform. auto.
  - apply extends_ret.
Qed.

(** What holds of every event of [processMessage] holds of its trace:
    the log lines, the handler call, the three reaction steps and the
    sends to the thread anchored at the incoming message. *)
Lemma extends_processMessage (P : event -> Prop) (im : IncomingMessage) :
  (forall name, P (ConsoleInfo name im)) ->
  (forall e, P (ConsoleError e)) ->
  P (Invoke im) ->
  (forall r, In r [loading (reactions this); success (reactions this);
                   failed (reactions this)] ->
             truthy_opt r = true ->
             P (Call (ReactionsAdd (channelId im) (emoji r) (messageId im)))) ->
  (truthy_opt (loading (reactions this)) = true ->
   P (Call (ReactionsRemove (channelId im)
              (emoji (loading (reactions this))) (messageId im)))) ->
  (forall c, is_send c = true -> send_channel c = channelId im ->
             send_thread c = Some (messageId im) -> P (Call c)) ->
  extends P (processMessage platform this im).
Proof.
  intros Hi He Hv Ha Hr Hs. unfold processMessage.
  apply extends_bind; [apply extends_console_info, Hi|intros _].
  destruct (commandHook this) as [hook|]; [|apply extends_ret].
  apply extends_bind;
    [apply extends_react_add, Ha; simpl; auto|intros _].
  apply extends_try_catch_finally.
  - unfold protected. destruct (isSync hook).
    + apply extends_bind; [apply extends_invoke, Hv|intros content].
      apply extends_bind.
      * apply extends_when, extends_floating, extends_postMessage. exact Hs.
      * intros _. apply extends_react_add, Ha. simpl; auto.
    + apply extends_bind; [apply extends_invoke, Hv|intros _].
      apply extends_ret.
  - intros e. unfold on_fault.
    apply extends_bind; [apply extends_console_error, He|intros _].
    apply extends_bind;
      [apply extends_react_add, Ha; simpl; auto|intros _].
    apply extends_postMessage. exact Hs.
  - unfold cleanup. apply extends_react_remove, Hr.
Qed.

End Coordinator.

Lemma post_text platform ch th text :
  postMessage platform
    {| dataType := lit "text"; block := None; out_channelId := ch;
       out_threadId := th; data := Str text |}
  = perform platform (ChatPostMessage ch th None text).
Proof. reflexivity. Qed.

Lemma constructor_reactions_truthy (args : SlackQnaArgs) :
  truthy_opt (loading (reactions (constructor args))) = true
  /\ truthy_opt (success (reactions (constructor args))) = true
  /\ truthy_opt (failed (reactions (constructor args))) = true.
Proof.
  unfold constructor; cbn [reactions loading success failed truthy_opt].
  repeat split; apply or_default_truthy; reflexivity.
Qed.

(** A rejected promise that nothing awaits raises nothing in the caller. *)
Lemma floating_fulfilled (m : async unit) (w : world) :
  snd (floating m w) = Fulfilled tt.
Proof. unfold floating. destruct (m w) as [w' [a|e]]; reflexivity. Qed.

(** C3. With the three reactions configured and a handler that throws
    [Error("boom")], [processMessage] adds the loading reaction, calls the
    handler, logs the fault, adds the failed reaction, sends one text
    whose content includes ["(boom)"] and removes the loading reaction,
    in this order and nothing else. *)
Theorem processMessage_handler_fault_order
    (platform : list event -> call -> option thrown)
    (this : t) (hook : CommandHook) (im : IncomingMessage) (w : world) :
  accepts_reactions platform ->
  commandHook this = Some hook ->
  truthy_opt (loading (reactions this)) = true ->
  truthy_opt (success (reactions this)) = true ->
  truthy_opt (failed (reactions this)) = true ->
  handler hook im = Rejected (ErrorObject (lit "boom")) ->
  let text := lit "Sorry, something went wrong. (boom)" in
  trace (fst (processMessage platform this im w))
  = trace w ++
    [ ConsoleInfo (lit "SLACK_PROCESS_MESSAGE") im;
      Call (ReactionsAdd (channelId im)
              (emoji (loading (reactions this))) (messageId im));
      Invoke im;
      ConsoleError (ErrorObject (lit "boom"));
      Call (ReactionsAdd (channelId im)
              (emoji (failed (reactions this))) (messageId im));
      Call (ChatPostMessage (channelId im) (Some (messageId im)) None text);
      Call (ReactionsRemove (channelId im)
              (emoji (loading (reactions this))) (messageId im)) ]
  /\ includes text (lit "(boom)") = true.
Proof.
  intros Hp Hh Hl _ Hf Hb text. split; [|reflexivity].
  assert (Hbody : forall w0, protected platform this hook im w0
            = (record (Invoke im) w0, Rejected (ErrorObject (lit "boom")))).
  { intros w0. unfold protected, invoke, bind. rewrite Hb.
    destruct (isSync hook); reflexivity. }
  unfold processMessage. rewrite Hh.
  unfold bind at 1. unfold console_info.
  unfold bind at 1. rewrite (react_add_accepted _ _ _ _ Hp Hl).
  unfold try_catch_finally. rewrite Hbody.
  unfold on_fault, console_error.
  unfold bind at 1. unfold bind at 1.
  rewrite (react_add_accepted _ _ _ _ Hp Hf), post_text.
  unfold cleanup, perform at 1.
  match goal with
  | |- context [platform ?tr ?c] => destruct (platform tr c)
  end;
    rewrite (react_remove_accepted _ _ _ _ Hp Hl);
    cbn [fst trace record]; rewrite <- !app_assoc; reflexivity.
Qed.

Lemma processMessage_handler_fault_order_witness :
  let this := registerHandler (constructor sample_args) boom_hook in
  let im := sample_incoming in
  let text := lit "Sorry, something went wrong. (boom)" in
  trace (fst (processMessage accepting this im start))
  = [ ConsoleInfo (lit "SLACK_PROCESS_MESSAGE") im;
      Call (ReactionsAdd (channelId im) (lit "thinking_face") (messageId im));
      Invoke im;
      ConsoleError (ErrorObject (lit "boom"));
      Call (ReactionsAdd (channelId im) (lit "x") (messageId im));
      Call (ChatPostMessage (channelId im) (Some (messageId im)) None text);
      Call (ReactionsRemove (channelId im) (lit "thinking_face")
              (messageId im)) ]
  /\ includes text (lit "(boom)") = true.
Proof.
  cbv zeta.
  exact (processMessage_handler_fault_order accepting
           (registerHandler (constructor sample_args) boom_hook)
           boom_hook sample_incoming start
           (fun _ _ _ => eq_refl) eq_refl eq_refl eq_refl eq_refl eq_refl).
Defined.

(** C8, as stated, fails: an empty [Buffer] is empty content of the
    type the handler is declared with, but it is truthy, and under a
    hook of the data type ['file'] it is uploaded. *)
Lemma empty_buffer_is_uploaded :
  let this := registerHandler (constructor sample_args) empty_file_hook in
  isSync empty_file_hook = true
  /\ handler empty_file_hook sample_incoming = Fulfilled (Buf [])
  /\ sends (trace (fst (processMessage accepting this sample_incoming start)))
     = [FilesUploadV2 (lit "C1") (Some (lit "1700000000.000200")) []
          (lit "data.txt")].
Proof. cbv zeta. repeat split; reflexivity. Qed.

(** C8, amended. An instance made by the constructor, with a synchronous
    hook registered, on a platform that accepts the reaction calls. When
    the handler resolves with the empty string, the one content that the
    code finds empty, [processMessage] adds the loading reaction, calls
    the handler, adds the success reaction and removes the loading
    reaction; it sends nothing. When the handler resolves with a
    [Buffer], the empty one included, and the data type of the hook is
    ['image'] or ['file'], [processMessage] makes one send, the upload of
    that [Buffer]. *)
Theorem processMessage_empty_content
    (platform : list event -> call -> option thrown)
    (args : SlackQnaArgs) (hook : CommandHook) (im : IncomingMessage)
    (w : world) :
  accepts_reactions platform ->
  isSync hook = true ->
  let this := registerHandler (constructor args) hook in
  let evs :=
    [ ConsoleInfo (lit "SLACK_PROCESS_MESSAGE") im;
      Call (ReactionsAdd (channelId im)
              (emoji (loading (reactions this))) (messageId im));
      Invoke im;
      Call (ReactionsAdd (channelId im)
              (emoji (success (reactions this))) (messageId im));
      Call (ReactionsRemove (channelId im)
              (emoji (loading (reactions this))) (messageId im)) ] in
  (forall content, truthy content = false <-> content = Str [])
  /\ (handler hook im = Fulfilled (Str []) ->
      processMessage platform this im w
      = ({| trace := trace w ++ evs; unhandled := unhandled w |}, Fulfilled tt)
      /\ sends evs = [])
  /\ (forall file,
        handler hook im = Fulfilled (Buf file) ->
        hook_dataType hook = lit "image" \/ hook_dataType hook = lit "file" ->
        sends (trace (fst (processMessage platform this im w)))
        = sends (trace w)
          ++ [FilesUploadV2 (channelId im) (Some (messageId im)) file
                (if eqb (hook_dataType hook) (lit "image")
                 then lit "data.png" else lit "data.txt")]).
Proof.
  intros Hp Hsync this evs.
  destruct (constructor_reactions_truthy args) as [Hl [Hs _]].
  change (reactions (constructor args)) with (reactions this) in Hl, Hs.
  split; [|split].
  - intros content. destruct content as [[|c s]|b]; cbn [truthy truthy_string];
      split; intros H; try reflexivity; discriminate H.
  - intros Hh. split; [|reflexivity].
    unfold processMessage.
    change (commandHook this) with (Some hook). cbv iota.
    unfold bind at 1. unfold console_info.
    unfold bind at 1. rewrite (react_add_accepted _ _ _ _ Hp Hl).
    unfold try_catch_finally, protected. rewrite Hsync.
    unfold bind at 1. unfold invoke. rewrite Hh.
    unfold bind at 1. cbn [truthy truthy_string].
    unfold when at 1, ret at 1.
    rewrite (react_add_accepted _ _ _ _ Hp Hs).
    unfold cleanup. rewrite (react_remove_accepted _ _ _ _ Hp Hl).
    unfold record. cbn [trace unhandled]. rewrite <- !app_assoc. reflexivity.
  - intros file Hh Hd.
    assert (Hpost : forall w0,
               postMessage platform
                 {| dataType := hook_dataType hook;
                    block := hook_block hook;
                    out_channelId := channelId im;
                    out_threadId := Some (messageId im);
                    data := Buf file |} w0
               = perform platform
                   (FilesUploadV2 (channelId im) (Some (messageId im)) file
                      (if eqb (hook_dataType hook) (lit "image")
                       then lit "data.png" else lit "data.txt")) w0).
    { intros w0. unfold postMessage.
      cbn [dataType data is_string isBuffer the_buffer out_channelId
           out_threadId].
      rewrite !andb_false_r, !andb_true_r.
      destruct Hd as [-> | ->]; reflexivity. }
    unfold processMessage.
    change (commandHook this) with (Some hook). cbv iota.
    unfold bind at 1. unfold console_info.
    unfold bind at 1. rewrite (react_add_accepted _ _ _ _ Hp Hl).
    unfold try_catch_finally, protected. rewrite Hsync.
    unfold bind at 1. unfold invoke. rewrite Hh.
    unfold bind at 1. cbn [truthy]. unfold when at 1.
    unfold floating. rewrite Hpost. unfold perform at 1.
    match goal with
    | |- context [platform ?tr (FilesUploadV2 ?a ?b ?c ?d)] =>
        destruct (platform tr (FilesUploadV2 a b c d))
    end;
      rewrite (react_add_accepted _ _ _ _ Hp Hs);
      unfold cleanup; rewrite (react_remove_accepted _ _ _ _ Hp Hl);
      cbn [fst trace record unhandled]; rewrite !sends_app; cbn;
      rewrite ?app_nil_r; reflexivity.
Qed.

Lemma processMessage_empty_content_witness :
  let im := sample_incoming in
  let evs :=
    [ ConsoleInfo (lit "SLACK_PROCESS_MESSAGE") im;
      Call (ReactionsAdd (channelId im) (lit "thinking_face") (messageId im));
      Invoke im;
      Call (ReactionsAdd (channelId im) (lit "white_check_mark")
              (messageId im));
      Call (ReactionsRemove (channelId im) (lit "thinking_face")
              (messageId im)) ] in
  (processMessage accepting
     (registerHandler (constructor sample_args) silent_hook) im start
   = ({| trace := evs; unhandled := [] |}, Fulfilled tt)
   /\ sends evs = [])
  /\ sends (trace (fst (processMessage accepting
                          (registerHandler (constructor sample_args)
                             empty_file_hook) im start)))
     = [FilesUploadV2 (channelId im) (Some (messageId im)) []
          (lit "data.txt")].
Proof.
  cbv zeta. split.
  - exact (proj1 (proj2
             (processMessage_empty_content accepting sample_args silent_hook
                sample_incoming start (fun _ _ _ => eq_refl) eq_refl))
             eq_refl).
  - exact (proj2 (proj2
             (processMessage_empty_content accepting sample_args
                empty_file_hook sample_incoming start
                (fun _ _ _ => eq_refl) eq_refl))
             [] eq_refl (or_intror eq_refl)).
Defined.

(** C2, as stated, fails: a handler that throws [{ message: 'boom' }],
    which carries a message but is not an [Error], gets the apology with
    an empty parenthetical. *)
Lemma apology_omits_message_of_non_error :
  let this := registerHandler (constructor sample_args) plain_object_hook in
  let fault := OtherValue (Some (lit "boom")) in
  handler plain_object_hook sample_incoming = Rejected fault
  /\ carried_message fault = lit "boom"
  /\ sends (trace (fst (processMessage accepting this sample_incoming start)))
     = [ChatPostMessage (lit "C1") (Some (lit "1700000000.000200")) None
          (lit "Sorry, something went wrong. ()")]
  /\ lit "Sorry, something went wrong. ()"
     <> lit "Sorry, something went wrong. (" ++ carried_message fault
        ++ lit ")".
Proof.
  cbv zeta. repeat split; try reflexivity.
  intros H. vm_compute in H. discriminate H.
Qed.

(** C2, amended. The faults that reach the [catch] block are those the
    [try] block rejects with: a fault [e] of the handler, or of the
    success reaction; the rejection of the reply, which nothing awaits,
    is not one of them. For such a fault, when the failed reaction is not
    configured or is accepted, [processMessage] sends exactly one message
    after the fault: the plain text
    ["Sorry, something went wrong. (<message>)"] in which <message> is
    the message of [e] when [e] is an [Error], and is empty otherwise.
    When the failed reaction is rejected, it sends nothing after the
    fault. *)
Theorem processMessage_fault_apology
    (platform : list event -> call -> option thrown)
    (this : t) (hook : CommandHook) (im : IncomingMessage)
    (w w1 w2 : world) (e : thrown) :
  commandHook this = Some hook ->
  react_add platform (loading (reactions this)) im
    (record (ConsoleInfo (lit "SLACK_PROCESS_MESSAGE") im) w)
  = (w1, Fulfilled tt) ->
  protected platform this hook im w1 = (w2, Rejected e) ->
  let failed_add :=
    ReactionsAdd (channelId im) (emoji (failed (reactions this)))
      (messageId im) in
  let success_add :=
    ReactionsAdd (channelId im) (emoji (success (reactions this)))
      (messageId im) in
  let answer := platform (trace w2 ++ [ConsoleError e]) failed_add in
  let text :=
    lit "Sorry, something went wrong. ("
    ++ match e with ErrorObject msg => msg | OtherValue _ => [] end
    ++ lit ")" in
  (handler hook im = Rejected e
   \/ (isSync hook = true
       /\ truthy_opt (success (reactions this)) = true
       /\ exists content tr,
           handler hook im = Fulfilled content
           /\ platform tr success_add = Some e))
  /\ ((truthy_opt (failed (reactions this)) = true -> answer = None) ->
      sends (trace (fst (processMessage platform this im w)))
      = sends (trace w2)
        ++ [ChatPostMessage (channelId im) (Some (messageId im)) None text])
  /\ (forall e',
        truthy_opt (failed (reactions this)) = true -> answer = Some e' ->
        sends (trace (fst (processMessage platform this im w)))
        = sends (trace w2)).
Proof.
  intros Hh Hload Hbody failed_add success_add answer text.
  assert (Htext : text = apology e).
  { unfold text, apology. destruct e as [[|c msg]|o]; reflexivity. }
  assert (Hrem : forall w4, sends (trace (fst (cleanup platform this im w4)))
                            = sends (trace w4)).
  { intros w4. unfold cleanup, react_remove, when.
    destruct (truthy_opt (loading (reactions this))); [|reflexivity].
    cbn [fst perform trace record]. rewrite sends_app. cbn.
    apply app_nil_r. }
  assert (Hrun : processMessage platform this im w
                 = try_catch_finally (protected platform this hook im)
                     (on_fault platform this im) (cleanup platform this im)
                     w1).
  { unfold processMessage. rewrite Hh.
    unfold bind at 1. unfold console_info.
    unfold bind at 1. rewrite Hload. reflexivity. }
  split; [|split].
  - revert Hbody. unfold protected.
    destruct (isSync hook); unfold bind at 1; unfold invoke;
      destruct (handler hook im) as [content|e0] eqn:Eh.
    + intros Hbody. right. split; [reflexivity|].
      unfold bind at 1 in Hbody.
      match type of Hbody with
      | context [when ?c ?m ?w0] =>
          assert (Hok : snd (when c m w0) = Fulfilled tt)
            by (unfold when; destruct c;
                [apply floating_fulfilled | reflexivity]);
          destruct (when c m w0) as [w3 r3]
      end.
      cbn [snd] in Hok. subst r3.
      unfold react_add, when in Hbody.
      destruct (truthy_opt (success (reactions this))); [|discriminate Hbody].
      split; [reflexivity|]. exists content, (trace w3).
      split; [reflexivity|]. unfold perform in Hbody. fold success_add in Hbody.
      destruct (platform (trace w3) success_add) as [e1|];
        [|discriminate Hbody].
      injection Hbody as _ <-. reflexivity.
    + intros Hbody. injection Hbody as _ <-. left. reflexivity.
    + intros Hbody. discriminate Hbody.
    + intros Hbody. injection Hbody as _ <-. left. reflexivity.
  - intros Hfailed. rewrite Htext, Hrun.
    unfold try_catch_finally. rewrite Hbody.
    unfold on_fault. unfold bind at 1. unfold console_error.
    assert (Hadd : exists w3,
               react_add platform (failed (reactions this)) im
                 (record (ConsoleError e) w2) = (w3, Fulfilled tt)
               /\ sends (trace w3) = sends (trace w2)).
    { unfold react_add, when.
      destruct (truthy_opt (failed (reactions this))) eqn:Ef.
      - eexists. split.
        + apply perform_accepted. apply Hfailed. reflexivity.
        + cbn [trace record]. rewrite !sends_app. cbn. rewrite !app_nil_r.
          reflexivity.
      - eexists. split; [reflexivity|].
        cbn [trace record]. rewrite sends_app. cbn. rewrite app_nil_r.
        reflexivity. }
    destruct Hadd as [w3 [Hadd Hs3]].
    unfold bind at 1. rewrite Hadd, post_text.
    unfold perform at 1.
    match goal with
    | |- context [cleanup platform this im ?w4] =>
        specialize (Hrem w4); destruct (cleanup platform this im w4) as [w5 r5]
    end.
    cbn [fst] in Hrem.
    assert (Hgoal : sends (trace w5)
                    = sends (trace w2)
                      ++ [ChatPostMessage (channelId im) (Some (messageId im))
                            None (apology e)]).
    { rewrite Hrem. cbn [trace record]. rewrite sends_app, Hs3. reflexivity. }
    destruct (platform (trace w3) _); destruct r5; exact Hgoal.
  - intros e' Hf Hbad. rewrite Hrun.
    unfold try_catch_finally. rewrite Hbody.
    unfold on_fault. unfold bind at 1. unfold console_error.
    unfold bind at 1. unfold react_add, when. rewrite Hf.
    unfold perform at 1. cbn [trace record]. fold failed_add.
    unfold answer in Hbad. rewrite Hbad.
    match goal with
    | |- context [cleanup platform this im ?w4] =>
        specialize (Hrem w4); destruct (cleanup platform this im w4) as [w5 r5]
    end.
    cbn [fst] in Hrem.
    assert (Hgoal : sends (trace w5) = sends (trace w2)).
    { rewrite Hrem. cbn [trace record]. rewrite !sends_app. cbn.
      rewrite !app_nil_r. reflexivity. }
    destruct r5; exact Hgoal.
Qed.

Lemma processMessage_fault_apology_witness :
  let this := registerHandler (constructor sample_args) boom_hook in
  let im := sample_incoming in
  let entered :=
    [ ConsoleInfo (lit "SLACK_PROCESS_MESSAGE") im;
      Call (ReactionsAdd (channelId im) (lit "thinking_face")
              (messageId im)) ] in
  sends (trace (fst (processMessage accepting this im start)))
  = sends (entered ++ [Invoke im])
    ++ [ChatPostMessage (channelId im) (Some (messageId im)) None
          (lit "Sorry, something went wrong. (" ++ lit "boom" ++ lit ")")].
Proof.
  cbv zeta.
  exact (proj1 (proj2
           (processMessage_fault_apology accepting
              (registerHandler (constructor sample_args) boom_hook)
              boom_hook sample_incoming start
              {| trace :=
                   [ ConsoleInfo (lit "SLACK_PROCESS_MESSAGE") sample_incoming;
                     Call (ReactionsAdd (channelId sample_incoming)
                             (lit "thinking_face")
                             (messageId sample_incoming)) ];
                 unhandled := [] |}
              {| trace :=
                   [ ConsoleInfo (lit "SLACK_PROCESS_MESSAGE") sample_incoming;
                     Call (ReactionsAdd (channelId sample_incoming)
                             (lit "thinking_face")
                             (messageId sample_incoming));
                     Invoke sample_incoming ];
                 unhandled := [] |}
              (ErrorObject (lit "boom"))
              eq_refl eq_refl eq_refl))
           (fun _ => eq_refl)).
Defined.

(** C5, as stated, fails: the reply to a message that belongs to the
    thread [1700000000.000100] is not posted to that thread but to a
    thread under the message itself. *)
Lemma reply_not_in_thread_of_incoming :
  let this := registerHandler (constructor sample_args) hi_hook in
  threadId sample_incoming = Some (lit "1700000000.000100")
  /\ sends (trace (fst (processMessage accepting this sample_incoming start)))
     = [ChatPostMessage (lit "C1") (Some (lit "1700000000.000200")) None
          (lit "hi")]
  /\ send_thread (ChatPostMessage (lit "C1") (Some (lit "1700000000.000200"))
                    None (lit "hi"))
     <> threadId sample_incoming.
Proof.
  cbv zeta. repeat split; try reflexivity.
  intros H. vm_compute in H. discriminate H.
Qed.

(** C5, amended. Every message or file that [processMessage] sends, the
    reply of the hook and the apology alike, goes to the channel of the
    incoming message and to the thread whose anchor is the incoming
    message itself ([thread_ts] is its [messageId]). *)
Theorem processMessage_replies_under_incoming
    (platform : list event -> call -> option thrown)
    (this : t) (im : IncomingMessage) (w : world) :
  exists evs,
    trace (fst (processMessage platform this im w)) = trace w ++ evs
    /\ Forall (replies_under im) evs.
Proof.
  apply extends_processMessage; simpl; try trivial; try discriminate.
  intros c _ Hc Ht _. split; assumption.
Qed.

(** The cleanup of a [try] statement ends the trace. *)
Lemma try_catch_finally_ends (P : event -> Prop)
    (body : async unit) (handle : thrown -> async unit) (cleanup : async unit)
    (last : event) (w : world) :
  extends P body -> (forall e, extends P (handle e)) ->
  (forall w', trace (fst (cleanup w')) = trace w' ++ [last]) ->
  exists evs,
    trace (fst (try_catch_finally body handle cleanup w))
    = trace w ++ evs ++ [last].
Proof.
  intros Hb Hh Hc. unfold try_catch_finally.
  destruct (Hb w) as [evs [E _]].
  destruct (body w) as [w' [a|e]]; simpl in E.
  - specialize (Hc w'). exists evs.
    destruct (cleanup w') as [w2 [a2|e2]]; simpl in *;
      rewrite Hc, E, app_assoc; reflexivity.
  - destruct (Hh e w') as [evs1 [E1 _]].
    destruct (handle e w') as [w1 r1]; simpl in E1.
    specialize (Hc w1). exists (evs ++ evs1).
    destruct (cleanup w1) as [w2 [a2|e2]]; simpl in *;
      rewrite Hc, E1, E, !app_assoc; reflexivity.
Qed.




(** Whatever the platform does with the reply of a synchronous hook, the
    coordinator goes on as after a delivered reply: success reaction,
    cleanup, and a fulfilled promise. *)
Lemma processMessage_reply_outcome_ignored
    (platform : list event -> call -> option thrown)
    (this : t) (hook : CommandHook) (im : IncomingMessage)
    (content : payload) (w : world) :
  accepts_reactions platform ->
  commandHook this = Some hook ->
  isSync hook = true ->
  handler hook im = Fulfilled content ->
  truthy content = true ->
  truthy_opt (loading (reactions this)) = true ->
  truthy_opt (success (reactions this)) = true ->
  exists (w' : world) (posted : list event),
    processMessage platform this im w = (w', Fulfilled tt)
    /\ trace w'
    = trace w
      ++ [ ConsoleInfo (lit "SLACK_PROCESS_MESSAGE") im;
           Call (ReactionsAdd (channelId im)
                   (emoji (loading (reactions this))) (messageId im));
           Invoke im ]
      ++ posted
      ++ [ Call (ReactionsAdd (channelId im)
                   (emoji (success (reactions this))) (messageId im));
           Call (ReactionsRemove (channelId im)
                   (emoji (loading (reactions this))) (messageId im)) ]
    /\ Forall (fun ev => exists c, ev = Call c /\ is_send c = true) posted.
Proof.
  intros Hp Hh Hsync Hc Ht Hl Hs.
  unfold processMessage. rewrite Hh.
  unfold bind at 1. unfold console_info.
  unfold bind at 1. rewrite (react_add_accepted _ _ _ _ Hp Hl).
  unfold try_catch_finally, protected. rewrite Hsync.
  unfold bind at 1. unfold invoke. rewrite Hc.
  unfold bind at 1. rewrite Ht. unfold when at 1.
  match goal with
  | |- context [floating ?m ?w0] =>
      destruct (extends_floating
                  (fun ev => exists c, ev = Call c /\ is_send c = true) m
                  (extends_postMessage _ platform _
                     (fun c H _ _ => ex_intro _ c (conj eq_refl H))) w0)
        as [posted [E F]];
      pose proof (floating_fulfilled m w0) as R;
      destruct (floating m w0) as [w1 r1]
  end.
  cbn [fst snd] in E, R. subst r1.
  rewrite (react_add_accepted _ _ _ _ Hp Hs).
  unfold cleanup. rewrite (react_remove_accepted _ _ _ _ Hp Hl).
  eexists. exists posted. split; [reflexivity|].
  cbn [trace record]. rewrite E.
  cbn [trace record]. rewrite <- !app_assoc.
  split; [reflexivity | exact F].
Qed.

(** C7. A hook answers ["hi"] and the platform rejects the send of this
    reply. The rejection is caught by nothing: no failed reaction is
    added and no apology is sent, the success reaction is added as if
    the reply had been delivered, and [processMessage] is fulfilled; the
    rejection is left unhandled. *)
Theorem reply_send_fault_not_caught :
  let this := registerHandler (constructor sample_args) hi_hook in
  let im := sample_incoming in
  processMessage offline this im start
  = ({| trace :=
          [ ConsoleInfo (lit "SLACK_PROCESS_MESSAGE") im;
            Call (ReactionsAdd (lit "C1") (lit "thinking_face")
                    (lit "1700000000.000200"));
            Invoke im;
            Call (ChatPostMessage (lit "C1") (Some (lit "1700000000.000200"))
                    None (lit "hi"));
            Call (ReactionsAdd (lit "C1") (lit "white_check_mark")
                    (lit "1700000000.000200"));
            Call (ReactionsRemove (lit "C1") (lit "thinking_face")
                    (lit "1700000000.000200")) ];
        unhandled := [ErrorObject (lit "network")] |},
     Fulfilled tt)
  /\ offline [] (ChatPostMessage (lit "C1") (Some (lit "1700000000.000200"))
                   None (lit "hi"))
     = Some (ErrorObject (lit "network")).
Proof. cbv zeta. split; reflexivity. Qed.

End LifecycleFacts.

(* ================================================================== *)
(** ** The runs of the coordinator *)
(* ================================================================== *)

Module LifecycleRuns.
Import Js JsFacts Schema Platform Mrkdwn SlackQna Spec Runs LifecycleFacts.
Local Open Scope async_scope.

Lemma count_app (f : event -> bool) (a b : list event) :
  count f (a ++ b) = count f a + count f b.
Proof. unfold count. rewrite filter_app, length_app. reflexivity. Qed.

Lemma at_most_ret {A} f (a : A) : at_most f 0 (ret a).
Proof.
  intros w. exists []. cbn. rewrite app_nil_r. split; [reflexivity | apply Nat.le_refl].
Qed.

Lemma at_most_weaken {A} f n n' (m : async A) :
  n <= n' -> at_most f n m -> at_most f n' m.
Proof.
  intros Hn Hm w. destruct (Hm w) as [evs [E C]]. exists evs.
  split; [exact E | lia].
Qed.

Lemma at_most_bind {A B} f a b (m : async A) (k : A -> async B) :
  at_most f a m -> (forall x, at_most f b (k x)) -> at_most f (a + b) (bind m k).
Proof.
  intros Hm Hk w. destruct (Hm w) as [evs [E C]]. unfold bind.
  destruct (m w) as [w' [x|e]]; cbn [fst] in E.
  - destruct (Hk x w') as [evs' [E' C']].
    exists (evs ++ evs'). rewrite E', E, app_assoc, count_app.
    split; [reflexivity | lia].
  - exists evs. split; [exact E | lia].
Qed.

Lemma at_most_when f n (c : bool) (m : async unit) :
  at_most f n m -> at_most f n (when c m).
Proof.
  intros Hm. destruct c; [exact Hm|].
  apply (at_most_weaken f 0); [lia | apply at_most_ret].
Qed.

Lemma at_most_one_event {A} f (ev : event) (m : async A) :
  (forall w, trace (fst (m w)) = trace w ++ [ev]) ->
  at_most f (if f ev then 1 else 0) m.
Proof.
  intros H w. exists [ev]. split; [apply H|].
  unfold count. cbn [filter]. destruct (f ev); cbn; lia.
Qed.

Lemma at_most_floating f n (m : async unit) :
  at_most f n m -> at_most f n (floating m).
Proof.
  intros Hm w. destruct (Hm w) as [evs [E C]]. exists evs.
  unfold floating. destruct (m w) as [w' [x|e]]; cbn [fst trace] in *;
    split; assumption.
Qed.

Lemma at_most_try_catch_finally f a b c
    (body : async unit) (handle : thrown -> async unit) (cleanup : async unit) :
  at_most f a body -> (forall e, at_most f b (handle e)) ->
  at_most f c cleanup ->
  at_most f (a + b + c) (try_catch_finally body handle cleanup).
Proof.
  intros Hb Hh Hc w. unfold try_catch_finally.
  destruct (Hb w) as [evs [E C]].
  destruct (body w) as [w' [x|e]]; cbn [fst] in E.
  - destruct (Hc w') as [evs2 [E2 C2]].
    exists (evs ++ evs2).
    destruct (cleanup w') as [w2 [x2|e2]]; cbn [fst] in *;
      rewrite E2, E, app_assoc, count_app; (split; [reflexivity | lia]).
  - destruct (Hh e w') as [evs1 [E1 C1]].
    destruct (handle e w') as [w1 r1]; cbn [fst] in E1.
    destruct (Hc w1) as [evs2 [E2 C2]].
    exists (evs ++ evs1 ++ evs2).
    destruct (cleanup w1) as [w2 [x2|e2]]; cbn [fst] in *;
      rewrite E2, E1, E, !app_assoc, !count_app;
      (split; [reflexivity | lia]).
Qed.

Section Bounds.

Variable platform : list event -> call -> option thrown.
Variable this : t.
Variable f : event -> bool.

(** What a step costs in events of the kind [f]. *)
Variables (adds removes sent invoked logged : nat).
Hypothesis Hadd : forall ch name ts,
    (if f (Call (ReactionsAdd ch name ts)) then 1 else 0) <= adds.
Hypothesis Hremove : forall ch name ts,
    (if f (Call (ReactionsRemove ch name ts)) then 1 else 0) <= removes.
Hypothesis Hsend : forall c, is_send c = true ->
    (if f (Call c) then 1 else 0) <= sent.
Hypothesis Hinvoke : forall im, (if f (Invoke im) then 1 else 0) <= invoked.
Hypothesis Hlog : forall e, (if f (ConsoleError e) then 1 else 0) <= logged.
Hypothesis Hinfo : forall name im, f (ConsoleInfo name im) = false.

Lemma at_most_perform (c : call) :
  at_most f (if f (Call c) then 1 else 0) (perform platform c).
Proof. apply at_most_one_event. reflexivity. Qed.

Lemma at_most_react_add r im : at_most f adds (react_add platform r im).
Proof.
  unfold react_add. apply at_most_when.
  eapply at_most_weaken; [apply Hadd | apply at_most_perform].
Qed.

Lemma at_most_react_remove r im : at_most f removes (react_remove platform r im).
Proof.
  unfold react_remove. apply at_most_when.
  eapply at_most_weaken; [apply Hremove | apply at_most_perform].
Qed.

Lemma at_most_postMessage message : at_most f sent (postMessage platform message).
Proof.
  unfold postMessage.
  repeat match goal with
         | |- at_most _ _ (if ?b then _ else _) => destruct b
         end;
    try (apply (at_most_weaken f 0); [lia | apply at_most_ret]);
    (eapply at_most_weaken; [apply Hsend | apply at_most_perform]); reflexivity.
Qed.

Lemma at_most_processMessage im :
  at_most f (adds + (invoked + (sent + adds)) + (logged + (adds + sent))
             + removes)
    (processMessage platform this im).
Proof.
  unfold processMessage.
  apply (at_most_weaken f
           (0 + (adds + ((invoked + (sent + adds)) + (logged + (adds + sent))
                         + removes)))); [lia|].
  apply at_most_bind.
  { eapply at_most_weaken;
      [| apply (at_most_one_event f (ConsoleInfo (lit "SLACK_PROCESS_MESSAGE") im));
         reflexivity].
    rewrite Hinfo. lia. }
  intros _. destruct (commandHook this) as [hook|];
    [|apply (at_most_weaken f 0); [lia | apply at_most_ret]].
  apply at_most_bind; [apply at_most_react_add|]. intros _.
  apply at_most_try_catch_finally.
  - unfold protected. destruct (isSync hook).
    + apply at_most_bind.
      { eapply at_most_weaken;
          [apply (Hinvoke im)
          | apply (at_most_one_event f (Invoke im)); reflexivity]. }
      intros content. apply at_most_bind.
      * apply at_most_when, at_most_floating, at_most_postMessage.
      * intros _. apply at_most_react_add.
    + apply (at_most_weaken f (invoked + 0)); [lia|].
      apply at_most_bind.
      { eapply at_most_weaken;
          [apply (Hinvoke im)
          | apply (at_most_one_event f (Invoke im)); reflexivity]. }
      intros _. apply at_most_ret.
  - intros e. unfold on_fault. apply at_most_bind.
    { eapply at_most_weaken;
        [apply (Hlog e)
        | apply (at_most_one_event f (ConsoleError e)); reflexivity]. }
    intros _. apply at_most_bind; [apply at_most_react_add|].
    intros _. apply at_most_postMessage.
  - unfold cleanup. apply at_most_react_remove.
Qed.

End Bounds.

(** X5. Whatever the platform and the handler do, one run of
    [processMessage] calls the handler at most once, sends at most two
    messages (the reply and the apology), adds at most three reactions,
    removes at most one and logs at most one fault. *)
Theorem processMessage_bounds
    (platform : list event -> call -> option thrown)
    (this : t) (im : IncomingMessage) (w : world) :
  exists evs,
    trace (fst (processMessage platform this im w)) = trace w ++ evs
    /\ count is_invoke evs <= 1
    /\ count is_send_event evs <= 2
    /\ count is_add evs <= 3
    /\ count is_remove evs <= 1
    /\ count is_error_log evs <= 1.
Proof.
  assert (Hcount : forall f n,
             at_most f n (processMessage platform this im) ->
             forall evs,
               trace (fst (processMessage platform this im w)) = trace w ++ evs ->
               count f evs <= n).
  { intros f n H evs E. destruct (H w) as [evs' [E' C]].
    rewrite E in E'. apply app_inv_head in E'. subst evs'. exact C. }
  destruct (extends_processMessage platform this (fun _ => True) im)
    with (w := w) as [evs [E _]]; try (intros; exact I).
  exists evs. split; [exact E|].
  repeat split.
  - apply (Hcount is_invoke (0 + (1 + (0 + 0)) + (0 + (0 + 0)) + 0)); [|exact E].
    apply at_most_processMessage; intros; try reflexivity; apply Nat.le_refl.
  - apply (Hcount is_send_event (0 + (0 + (1 + 0)) + (0 + (0 + 1)) + 0));
      [|exact E].
    apply at_most_processMessage; intros; try reflexivity; try apply Nat.le_refl.
    cbn [is_send_event]. destruct (is_send c); lia.
  - apply (Hcount is_add (1 + (0 + (0 + 1)) + (0 + (1 + 0)) + 0)); [|exact E].
    apply at_most_processMessage; intros; try reflexivity; try apply Nat.le_refl.
    destruct c; try discriminate; apply Nat.le_refl.
  - apply (Hcount is_remove (0 + (0 + (0 + 0)) + (0 + (0 + 0)) + 1)); [|exact E].
    apply at_most_processMessage; intros; try reflexivity; try apply Nat.le_refl.
    destruct c; try discriminate; apply Nat.le_refl.
  - apply (Hcount is_error_log (0 + (0 + (0 + 0)) + (1 + (0 + 0)) + 0));
      [|exact E].
    apply at_most_processMessage; intros; try reflexivity; apply Nat.le_refl.
Qed.


(** X6. Every reaction call of [processMessage] is made on the
    incoming message, its channel and its [messageId]; a reaction that is
    added is one of the three of the instance, and the only reaction
    that is ever removed is the loading one. *)
Theorem processMessage_reactions_on_incoming
    (platform : list event -> call -> option thrown)
    (this : t) (im : IncomingMessage) (w : world) :
  exists evs,
    trace (fst (processMessage platform this im w)) = trace w ++ evs
    /\ Forall (reacts_to this im) evs.
Proof.
  assert (Hname : forall r, truthy_opt r = true -> Some (emoji r) = r).
  { intros [s|] H; [reflexivity | discriminate H]. }
  apply extends_processMessage; cbn [reacts_to]; try trivial.
  - intros r Hin Hr. rewrite (Hname r Hr). repeat split; try reflexivity.
    exact Hin.
  - intros Hr. rewrite (Hname _ Hr). repeat split; reflexivity.
  - intros c Hc _ _. destruct c; try discriminate Hc; exact I.
Qed.

(** X7. A message that arrives before a handler is registered is logged
    and dropped: on a new instance [processMessage] writes its log line
    and returns, with no reaction and no message, whatever the platform;
    and so it does on any instance without a hook. *)
Theorem processMessage_before_registerHandler
    (platform : list event -> call -> option thrown)
    (args : SlackQnaArgs) (im : IncomingMessage) (w : world) :
  processMessage platform (constructor args) im w
  = (record (process_log im) w, Fulfilled tt)
  /\ forall this,
       commandHook this = None ->
       processMessage platform this im w
       = (record (process_log im) w, Fulfilled tt).
Proof.
  assert (H : forall this,
             commandHook this = None ->
             processMessage platform this im w
             = (record (process_log im) w, Fulfilled tt)).
  { intros this H. unfold processMessage, bind. rewrite H. reflexivity. }
  split; [apply H; reflexivity | exact H].
Qed.

Section Paths.

Variable platform : list event -> call -> option thrown.
Variable this : t.
Variable hook : CommandHook.
Variable im : IncomingMessage.
Hypothesis Hhook : commandHook this = Some hook.

(** Once the loading step is over, [processMessage] is its [try]
    statement. *)
Lemma processMessage_enters (w w1 : world) :
  react_add platform (loading (reactions this)) im (record (process_log im) w)
  = (w1, Fulfilled tt) ->
  processMessage platform this im w
  = try_catch_finally (protected platform this hook im)
      (on_fault platform this im) (cleanup platform this im) w1.
Proof.
  intros H. unfold processMessage. rewrite Hhook.
  unfold bind at 1. unfold console_info.
  unfold bind at 1. fold (process_log im). rewrite H. reflexivity.
Qed.

End Paths.

(** X8. When the platform rejects the loading reaction,
    [processMessage] is rejected with that fault at once: the call is
    made before the [try], so the handler is not called, nothing is sent
    and no reaction is removed. *)
Theorem processMessage_loading_rejected
    (platform : list event -> call -> option thrown)
    (this : t) (hook : CommandHook) (im : IncomingMessage) (w : world)
    (e : thrown) :
  commandHook this = Some hook ->
  truthy_opt (loading (reactions this)) = true ->
  platform (trace w ++ [process_log im])
    (ReactionsAdd (channelId im) (emoji (loading (reactions this)))
       (messageId im)) = Some e ->
  processMessage platform this im w
  = ({| trace := trace w
                 ++ [process_log im;
                     Call (ReactionsAdd (channelId im)
                             (emoji (loading (reactions this)))
                             (messageId im))];
        unhandled := unhandled w |},
     Rejected e).
Proof.
  intros Hh Hl Hp. unfold processMessage. rewrite Hh.
  unfold bind at 1. unfold console_info.
  unfold bind at 1. unfold react_add, when. rewrite Hl.
  unfold perform. cbn [trace record]. fold (process_log im). rewrite Hp.
  unfold record. cbn [trace unhandled]. rewrite <- app_assoc. reflexivity.
Qed.

Lemma processMessage_loading_rejected_witness :
  let this := registerHandler (constructor sample_args) hi_hook in
  let e := ErrorObject (lit "ratelimited") in
  processMessage (rejects_add (lit "thinking_face") e) this sample_incoming
    start
  = ({| trace := [process_log sample_incoming;
                  Call (ReactionsAdd (lit "C1") (lit "thinking_face")
                          (lit "1700000000.000200"))];
        unhandled := [] |},
     Rejected e).
Proof.
  cbv zeta.
  exact (processMessage_loading_rejected
           (rejects_add (lit "thinking_face")
              (ErrorObject (lit "ratelimited")))
           (registerHandler (constructor sample_args) hi_hook) hi_hook
           sample_incoming start (ErrorObject (lit "ratelimited"))
           eq_refl eq_refl eq_refl).
Defined.


Lemma extends_protected platform this hook im :
  extends (fun _ => True) (protected platform this hook im).
Proof.
  unfold protected. destruct (isSync hook).
  - apply extends_bind; [apply extends_invoke; exact I|intros c].
    apply extends_bind.
    + apply extends_when, extends_floating, extends_postMessage.
      intros; exact I.
    + intros _. apply extends_react_add. intros; exact I.
  - apply extends_bind; [apply extends_invoke; exact I|intros _].
    apply extends_ret.
Qed.

Lemma extends_on_fault platform this im e :
  extends (fun _ => True) (on_fault platform this im e).
Proof.
  unfold on_fault.
  apply extends_bind; [apply extends_console_error; exact I|intros _].
  apply extends_bind; [apply extends_react_add; intros; exact I|].
  intros _. apply extends_postMessage. intros; exact I.
Qed.

(** X9. Once the loading reaction has been added, and when the handler
    and the calls on the client settle, the last thing [processMessage]
    does is to remove it: whether the handler resolves or rejects, and
    whichever of the calls in between the platform rejects. (A handler
    or a call that never settles is not a run of this model: the
    [finally] block is then not reached.) *)
Theorem processMessage_always_cleans_up
    (platform : list event -> call -> option thrown)
    (this : t) (hook : CommandHook) (im : IncomingMessage) (w : world) :
  commandHook this = Some hook ->
  truthy_opt (loading (reactions this)) = true ->
  platform (trace w ++ [process_log im])
    (ReactionsAdd (channelId im) (emoji (loading (reactions this)))
       (messageId im)) = None ->
  exists evs,
    trace (fst (processMessage platform this im w))
    = trace w
      ++ [process_log im;
          Call (ReactionsAdd (channelId im)
                  (emoji (loading (reactions this))) (messageId im))]
      ++ evs
      ++ [Call (ReactionsRemove (channelId im)
                  (emoji (loading (reactions this))) (messageId im))].
Proof.
  intros Hh Hl Hp.
  rewrite (processMessage_enters platform this hook im Hh w
             (record (Call (ReactionsAdd (channelId im)
                              (emoji (loading (reactions this)))
                              (messageId im)))
                (record (process_log im) w))).
  2:{ unfold react_add, when. rewrite Hl. apply perform_accepted. exact Hp. }
  destruct (try_catch_finally_ends (fun _ => True)
              (protected platform this hook im) (on_fault platform this im)
              (cleanup platform this im)
              (Call (ReactionsRemove (channelId im)
                       (emoji (loading (reactions this))) (messageId im)))
              (record (Call (ReactionsAdd (channelId im)
                               (emoji (loading (reactions this)))
                               (messageId im)))
                 (record (process_log im) w)))
    as [evs Hevs].
  - apply extends_protected.
  - intros e. apply extends_on_fault.
  - intros w'. unfold cleanup, react_remove, when. rewrite Hl. reflexivity.
  - exists evs. rewrite Hevs. cbn [trace record]. rewrite <- !app_assoc.
    reflexivity.
Qed.

Lemma processMessage_always_cleans_up_witness :
  let this := registerHandler (constructor sample_args) boom_hook in
  exists evs,
    trace (fst (processMessage offline this sample_incoming start))
    = [process_log sample_incoming;
       Call (ReactionsAdd (lit "C1") (lit "thinking_face")
               (lit "1700000000.000200"))]
      ++ evs
      ++ [Call (ReactionsRemove (lit "C1") (lit "thinking_face")
                  (lit "1700000000.000200"))].
Proof.
  cbv zeta.
  exact (processMessage_always_cleans_up offline
           (registerHandler (constructor sample_args) boom_hook) boom_hook
           sample_incoming start eq_refl eq_refl eq_refl).
Defined.

(** X10. When the platform rejects the removal of the loading
    reaction, [processMessage] is rejected with that fault, whatever
    happened before: a fault of the [finally] block replaces the outcome
    of the run. *)
Theorem processMessage_cleanup_fault_wins
    (platform : list event -> call -> option thrown)
    (this : t) (hook : CommandHook) (im : IncomingMessage) (w : world)
    (e : thrown) :
  commandHook this = Some hook ->
  truthy_opt (loading (reactions this)) = true ->
  platform (trace w ++ [process_log im])
    (ReactionsAdd (channelId im) (emoji (loading (reactions this)))
       (messageId im)) = None ->
  (forall tr, platform tr
     (ReactionsRemove (channelId im) (emoji (loading (reactions this)))
        (messageId im)) = Some e) ->
  snd (processMessage platform this im w) = Rejected e.
Proof.
  intros Hh Hl Hadd Hrem.
  rewrite (processMessage_enters platform this hook im Hh w
             (record (Call (ReactionsAdd (channelId im)
                              (emoji (loading (reactions this)))
                              (messageId im)))
                (record (process_log im) w))).
  2:{ unfold react_add, when. rewrite Hl. apply perform_accepted. exact Hadd. }
  unfold try_catch_finally.
  match goal with
  | |- context [let (w1, r1) := ?x in _] => destruct x as [w1 r1]
  end.
  unfold cleanup, react_remove, when. rewrite Hl. unfold perform.
  rewrite Hrem. reflexivity.
Qed.

Lemma processMessage_cleanup_fault_wins_witness :
  let this := registerHandler (constructor sample_args) hi_hook in
  snd (processMessage (rejects_remove (ErrorObject (lit "gone"))) this
         sample_incoming start)
  = Rejected (ErrorObject (lit "gone")).
Proof.
  cbv zeta.
  exact (processMessage_cleanup_fault_wins
           (rejects_remove (ErrorObject (lit "gone")))
           (registerHandler (constructor sample_args) hi_hook) hi_hook
           sample_incoming start (ErrorObject (lit "gone"))
           eq_refl eq_refl eq_refl (fun _ => eq_refl)).
Defined.


(** The loading step on a platform that accepts the reaction calls. *)
Lemma loading_step platform this im w :
  accepts_reactions platform ->
  exists w1,
    react_add platform (loading (reactions this)) im (record (process_log im) w)
    = (w1, Fulfilled tt)
    /\ trace w1 = trace w ++ [process_log im] ++ added (loading (reactions this)) im
    /\ unhandled w1 = unhandled w.
Proof.
  intros Hp. unfold react_add, when, added.
  destruct (truthy_opt (loading (reactions this))).
  - eexists. split; [apply perform_accepted, Hp; reflexivity|].
    cbn [trace record unhandled]. rewrite <- app_assoc. split; reflexivity.
  - eexists. split; [reflexivity|]. split; reflexivity.
Qed.

Lemma cleanup_step platform this im w :
  accepts_reactions platform ->
  exists w',
    cleanup platform this im w = (w', Fulfilled tt)
    /\ trace w' = trace w ++ removed (loading (reactions this)) im
    /\ unhandled w' = unhandled w.
Proof.
  intros Hp. unfold cleanup, react_remove, when, removed.
  destruct (truthy_opt (loading (reactions this))).
  - eexists. split; [apply perform_accepted, Hp; reflexivity|].
    split; reflexivity.
  - eexists. split; [reflexivity|]. rewrite app_nil_r. split; reflexivity.
Qed.

(** X11. With a hook that is not synchronous, [processMessage]
    awaits the handler and drops what it resolves with: between the
    addition and the removal of the loading reaction the handler is
    called and nothing else happens, no reply and no success reaction. *)
Theorem processMessage_detached_hook
    (platform : list event -> call -> option thrown)
    (this : t) (hook : CommandHook) (im : IncomingMessage)
    (content : payload) (w : world) :
  accepts_reactions platform ->
  commandHook this = Some hook ->
  isSync hook = false ->
  handler hook im = Fulfilled content ->
  exists w',
    processMessage platform this im w = (w', Fulfilled tt)
    /\ trace w'
       = trace w ++ [process_log im]
         ++ added (loading (reactions this)) im
         ++ [Invoke im]
         ++ removed (loading (reactions this)) im
    /\ unhandled w' = unhandled w.
Proof.
  intros Hp Hh Hsync Hc.
  destruct (loading_step platform this im w Hp) as (w1 & E1 & T1 & U1).
  rewrite (processMessage_enters platform this hook im Hh w w1 E1).
  unfold try_catch_finally, protected. rewrite Hsync.
  unfold bind, invoke. rewrite Hc. cbn [ret].
  destruct (cleanup_step platform this im (record (Invoke im) w1) Hp)
    as (w' & E' & T' & U').
  rewrite E'. exists w'. split; [reflexivity|].
  rewrite T', U'. cbn [trace record unhandled]. rewrite T1, U1.
  rewrite <- !app_assoc. split; reflexivity.
Qed.

Lemma processMessage_detached_hook_witness :
  let this := registerHandler (constructor sample_args) detached_hook in
  exists w',
    processMessage accepting this sample_incoming start = (w', Fulfilled tt)
    /\ trace w'
       = [process_log sample_incoming;
          Call (ReactionsAdd (lit "C1") (lit "thinking_face")
                  (lit "1700000000.000200"));
          Invoke sample_incoming;
          Call (ReactionsRemove (lit "C1") (lit "thinking_face")
                  (lit "1700000000.000200"))]
    /\ unhandled w' = [].
Proof.
  cbv zeta.
  exact (processMessage_detached_hook accepting
           (registerHandler (constructor sample_args) detached_hook)
           detached_hook sample_incoming (Str (lit "hi")) start
           (fun _ _ _ => eq_refl) eq_refl eq_refl eq_refl).
Defined.

(** X13. The run when the handler rejects with [e], on a platform
    that accepts the reaction calls: the fault is logged, the failed
    reaction added, the apology sent to the thread of the incoming
    message and the loading reaction removed. [processMessage] settles as
    the send of the apology did: a rejected apology rejects it. *)
Theorem processMessage_fault_outcome
    (platform : list event -> call -> option thrown)
    (this : t) (hook : CommandHook) (im : IncomingMessage)
    (e : thrown) (w : world) :
  accepts_reactions platform ->
  commandHook this = Some hook ->
  handler hook im = Rejected e ->
  let before :=
    trace w ++ [process_log im]
    ++ added (loading (reactions this)) im
    ++ [Invoke im; ConsoleError e]
    ++ added (failed (reactions this)) im in
  trace (fst (processMessage platform this im w))
  = before ++ [Call (apology_call im e)]
    ++ removed (loading (reactions this)) im
  /\ snd (processMessage platform this im w)
     = match platform before (apology_call im e) with
       | None => Fulfilled tt
       | Some e' => Rejected e'
       end.
Proof.
  intros Hp Hh He before.
  assert (Hrun : exists w',
             processMessage platform this im w
             = (w', match platform before (apology_call im e) with
                    | None => Fulfilled tt
                    | Some e' => Rejected e'
                    end)
             /\ trace w' = before ++ [Call (apology_call im e)]
                           ++ removed (loading (reactions this)) im).
  { destruct (loading_step platform this im w Hp) as (w1 & E1 & T1 & U1).
    rewrite (processMessage_enters platform this hook im Hh w w1 E1).
    assert (Hbody : protected platform this hook im w1
                    = (record (Invoke im) w1, Rejected e)).
    { unfold protected, invoke, bind. rewrite He.
      destruct (isSync hook); reflexivity. }
    unfold try_catch_finally. rewrite Hbody.
    unfold on_fault. unfold bind at 1. unfold console_error.
    assert (Hfailed : exists w2,
               react_add platform (failed (reactions this)) im
                 (record (ConsoleError e) (record (Invoke im) w1))
               = (w2, Fulfilled tt)
               /\ trace w2 = before).
    { unfold react_add, when, before, added.
      destruct (truthy_opt (failed (reactions this))).
      - eexists. split; [apply perform_accepted, Hp; reflexivity|].
        cbn [trace record]. rewrite T1, <- !app_assoc. reflexivity.
      - eexists. split; [reflexivity|].
        cbn [trace record]. rewrite T1, <- !app_assoc. reflexivity. }
    destruct Hfailed as (w2 & E2 & T2).
    unfold bind at 1. rewrite E2, post_text.
    fold (apology_call im e). unfold perform. rewrite T2.
    destruct (cleanup_step platform this im
                (record (Call (apology_call im e)) w2) Hp)
      as (w' & E' & T' & _).
    rewrite E'. exists w'.
    split; [destruct (platform before (apology_call im e)); reflexivity|].
    rewrite T'. cbn [trace record]. rewrite T2, <- !app_assoc. reflexivity. }
  destruct Hrun as (w' & -> & T'). split; [exact T' | reflexivity].
Qed.

Lemma processMessage_fault_outcome_witness :
  let this := registerHandler (constructor sample_args) boom_hook in
  snd (processMessage offline this sample_incoming start)
  = Rejected (ErrorObject (lit "network")).
Proof.
  cbv zeta.
  refine (proj2 (processMessage_fault_outcome offline
                   (registerHandler (constructor sample_args) boom_hook)
                   boom_hook sample_incoming (ErrorObject (lit "boom")) start
                   _ eq_refl eq_refl)).
  intros tr c Hc. destruct c; try discriminate Hc; reflexivity.
Defined.


Lemma postMessage_the_call platform message :
  postMessage platform message
  = match the_call message with
    | Some c => perform platform c
    | None => ret tt
    end.
Proof.
  unfold postMessage, the_call.
  repeat match goal with
         | |- context [if ?b then _ else _] => destruct b
         end; reflexivity.
Qed.

(** A reaction step whose call, if it is made, is accepted. *)
Lemma react_add_ok platform r im w :
  (truthy_opt r = true ->
   platform (trace w) (ReactionsAdd (channelId im) (emoji r) (messageId im))
   = None) ->
  exists w',
    react_add platform r im w = (w', Fulfilled tt)
    /\ trace w' = trace w ++ added r im
    /\ unhandled w' = unhandled w.
Proof.
  intros Hp. unfold react_add, when, added.
  destruct (truthy_opt r).
  - eexists. split; [apply perform_accepted, Hp; reflexivity|].
    split; reflexivity.
  - eexists. split; [reflexivity|]. rewrite app_nil_r. split; reflexivity.
Qed.

Lemma react_remove_ok platform r im w :
  (truthy_opt r = true ->
   platform (trace w) (ReactionsRemove (channelId im) (emoji r) (messageId im))
   = None) ->
  exists w',
    react_remove platform r im w = (w', Fulfilled tt)
    /\ trace w' = trace w ++ removed r im
    /\ unhandled w' = unhandled w.
Proof.
  intros Hp. unfold react_remove, when, removed.
  destruct (truthy_opt r).
  - eexists. split; [apply perform_accepted, Hp; reflexivity|].
    split; reflexivity.
  - eexists. split; [reflexivity|]. rewrite app_nil_r. split; reflexivity.
Qed.

(** The reply step: the call is made, its outcome is left alone. *)
Lemma reply_step platform hook im content w :
  exists w',
    when (truthy content)
      (floating (postMessage platform (reply hook im content))) w
    = (w', Fulfilled tt)
    /\ trace w' = trace w ++ events_of (reply_call hook im content)
    /\ unhandled w'
       = unhandled w ++ rejection platform (trace w) (reply_call hook im content).
Proof.
  unfold when, reply_call. destruct (truthy content).
  - rewrite postMessage_the_call. unfold floating.
    destruct (the_call (reply hook im content)) as [c|];
      cbn [events_of rejection].
    + unfold perform. destruct (platform (trace w) c).
      * eexists. split; [reflexivity|]. split; reflexivity.
      * eexists. split; [reflexivity|]. rewrite app_nil_r.
        split; reflexivity.
    + eexists. split; [reflexivity|]. rewrite !app_nil_r. split; reflexivity.
  - eexists. split; [reflexivity|]. cbn [events_of rejection].
    rewrite !app_nil_r. split; reflexivity.
Qed.

Lemma emoji_truthy (r : option js_string) :
  truthy_opt r = true -> Some (emoji r) = r.
Proof. destruct r; [reflexivity | discriminate]. Qed.

(** X12. The run of a synchronous hook whose handler resolves, on a
    platform that accepts the reaction calls: loading reaction, handler,
    the reply when there is content that [postMessage] recognizes,
    success reaction, removal of the loading reaction. The promise is
    fulfilled whatever became of the reply; the rejection of a reply is
    left unhandled. *)
Theorem processMessage_synchronous_hook
    (platform : list event -> call -> option thrown)
    (this : t) (hook : CommandHook) (im : IncomingMessage)
    (content : payload) (w : world) :
  accepts_reactions platform ->
  commandHook this = Some hook ->
  isSync hook = true ->
  handler hook im = Fulfilled content ->
  let before :=
    trace w ++ [process_log im]
    ++ added (loading (reactions this)) im
    ++ [Invoke im] in
  exists w',
    processMessage platform this im w = (w', Fulfilled tt)
    /\ trace w'
       = before
         ++ events_of (reply_call hook im content)
         ++ added (success (reactions this)) im
         ++ removed (loading (reactions this)) im
    /\ unhandled w'
       = unhandled w ++ rejection platform before (reply_call hook im content).
Proof.
  intros Hp Hh Hsync Hc before.
  destruct (loading_step platform this im w Hp) as (w1 & E1 & T1 & U1).
  rewrite (processMessage_enters platform this hook im Hh w w1 E1).
  unfold try_catch_finally, protected. rewrite Hsync.
  unfold bind at 1. unfold invoke. rewrite Hc.
  fold (reply hook im content).
  destruct (reply_step platform hook im content (record (Invoke im) w1))
    as (w2 & E2 & T2 & U2).
  unfold bind at 1. rewrite E2.
  destruct (react_add_ok platform (success (reactions this)) im w2)
    as (w3 & E3 & T3 & U3); [intros _; apply Hp; reflexivity|].
  rewrite E3.
  destruct (cleanup_step platform this im w3 Hp) as (w' & E' & T' & U').
  rewrite E'. exists w'. split; [reflexivity|].
  assert (Hb : trace (record (Invoke im) w1) = before).
  { cbn [trace record]. rewrite T1. unfold before.
    rewrite <- !app_assoc. reflexivity. }
  rewrite Hb in T2, U2. split.
  - rewrite T', T3, T2, <- !app_assoc. reflexivity.
  - rewrite U', U3, U2. cbn [unhandled record]. rewrite U1. reflexivity.
Qed.

Lemma processMessage_synchronous_hook_witness :
  let this := registerHandler (constructor sample_args) hi_hook in
  exists w',
    processMessage offline this sample_incoming start = (w', Fulfilled tt)
    /\ trace w'
       = [process_log sample_incoming;
          Call (ReactionsAdd (lit "C1") (lit "thinking_face")
                  (lit "1700000000.000200"));
          Invoke sample_incoming;
          Call (ChatPostMessage (lit "C1") (Some (lit "1700000000.000200"))
                  None (lit "hi"));
          Call (ReactionsAdd (lit "C1") (lit "white_check_mark")
                  (lit "1700000000.000200"));
          Call (ReactionsRemove (lit "C1") (lit "thinking_face")
                  (lit "1700000000.000200"))]
    /\ unhandled w' = [ErrorObject (lit "network")].
Proof.
  cbv zeta.
  exact (processMessage_synchronous_hook offline
           (registerHandler (constructor sample_args) hi_hook) hi_hook
           sample_incoming (Str (lit "hi")) start
           (fun _ c H => match c return is_reaction c = true -> offline [] c = None
                         with
                         | ReactionsAdd _ _ _ | ReactionsRemove _ _ _ =>
                             fun _ => eq_refl
                         | _ => fun H => match Bool.diff_false_true H with end
                         end H)
           eq_refl eq_refl eq_refl).
Defined.


(** X14. When the handler fails and the platform rejects the failed
    reaction, no apology is sent: [processMessage] removes the loading
    reaction and is rejected with the fault of the reaction call. *)
Theorem processMessage_failed_reaction_rejected
    (platform : list event -> call -> option thrown)
    (this : t) (hook : CommandHook) (im : IncomingMessage)
    (e e' : thrown) (w : world) :
  let failed_add :=
    ReactionsAdd (channelId im) (emoji (failed (reactions this)))
      (messageId im) in
  commandHook this = Some hook ->
  handler hook im = Rejected e ->
  truthy_opt (failed (reactions this)) = true ->
  (forall tr, platform tr failed_add = Some e') ->
  (forall tr,
      platform tr (ReactionsAdd (channelId im)
                     (emoji (loading (reactions this))) (messageId im))
      = None) ->
  (forall tr,
      platform tr (ReactionsRemove (channelId im)
                     (emoji (loading (reactions this))) (messageId im))
      = None) ->
  exists w',
    processMessage platform this im w = (w', Rejected e')
    /\ trace w'
       = trace w ++ [process_log im]
         ++ added (loading (reactions this)) im
         ++ [Invoke im; ConsoleError e; Call failed_add]
         ++ removed (loading (reactions this)) im.
Proof.
  intros failed_add Hh He Hf Hbad Hadd Hrem.
  destruct (react_add_ok platform (loading (reactions this)) im
              (record (process_log im) w))
    as (w1 & E1 & T1 & U1); [intros _; apply Hadd|].
  rewrite (processMessage_enters platform this hook im Hh w w1 E1).
  assert (Hbody : protected platform this hook im w1
                  = (record (Invoke im) w1, Rejected e)).
  { unfold protected, invoke, bind. rewrite He.
    destruct (isSync hook); reflexivity. }
  unfold try_catch_finally. rewrite Hbody.
  unfold on_fault. unfold bind at 1. unfold console_error.
  unfold bind at 1. unfold react_add, when. rewrite Hf.
  unfold perform at 1. fold failed_add. rewrite Hbad.
  destruct (react_remove_ok platform (loading (reactions this)) im
              (record (Call failed_add)
                 (record (ConsoleError e) (record (Invoke im) w1))))
    as (w' & E' & T' & U'); [intros _; apply Hrem|].
  unfold cleanup. rewrite E'. exists w'. split; [reflexivity|].
  rewrite T'. cbn [trace record]. rewrite T1. cbn [trace record].
  rewrite <- !app_assoc. reflexivity.
Qed.

Lemma processMessage_failed_reaction_rejected_witness :
  let this := registerHandler (constructor sample_args) boom_hook in
  exists w',
    processMessage (rejects_add (lit "x") (ErrorObject (lit "ratelimited")))
      this sample_incoming start
    = (w', Rejected (ErrorObject (lit "ratelimited")))
    /\ trace w'
       = [process_log sample_incoming;
          Call (ReactionsAdd (lit "C1") (lit "thinking_face")
                  (lit "1700000000.000200"));
          Invoke sample_incoming;
          ConsoleError (ErrorObject (lit "boom"));
          Call (ReactionsAdd (lit "C1") (lit "x") (lit "1700000000.000200"));
          Call (ReactionsRemove (lit "C1") (lit "thinking_face")
                  (lit "1700000000.000200"))].
Proof.
  cbv zeta.
  exact (processMessage_failed_reaction_rejected
           (rejects_add (lit "x") (ErrorObject (lit "ratelimited")))
           (registerHandler (constructor sample_args) boom_hook) boom_hook
           sample_incoming (ErrorObject (lit "boom"))
           (ErrorObject (lit "ratelimited")) start
           eq_refl eq_refl eq_refl (fun _ => eq_refl) (fun _ => eq_refl)
           (fun _ => eq_refl)).
Defined.

Lemma the_call_is_send (message : OutgoingMessage) (c : call) :
  the_call message = Some c -> is_send c = true.
Proof.
  unfold the_call.
  repeat match goal with
         | |- context [if ?b then _ else _] => destruct b
         end; intros H; try discriminate H; injection H as <-; reflexivity.
Qed.

Lemma sends_added (r : option js_string) (im : IncomingMessage) :
  sends (added r im) = [].
Proof. unfold added. destruct (truthy_opt r); reflexivity. Qed.

Lemma sends_removed (r : option js_string) (im : IncomingMessage) :
  sends (removed r im) = [].
Proof. unfold removed. destruct (truthy_opt r); reflexivity. Qed.

(** X15. When the platform rejects the success reaction, and accepts the
    other reaction calls and the apology, the fault is handled like one
    of the handler: after the reply step it is logged, the failed
    reaction is added and the apology for the fault is sent. The sends
    of the run are the reply, when one is posted (the content is truthy
    and [postMessage] recognizes it), and then the apology: a user who
    got a reply gets the apology as well. [processMessage] is
    fulfilled. *)
Theorem processMessage_success_reaction_rejected
    (platform : list event -> call -> option thrown)
    (this : t) (hook : CommandHook) (im : IncomingMessage)
    (content : payload) (e : thrown) (w : world) :
  let success_add :=
    ReactionsAdd (channelId im) (emoji (success (reactions this)))
      (messageId im) in
  commandHook this = Some hook ->
  isSync hook = true ->
  handler hook im = Fulfilled content ->
  truthy_opt (success (reactions this)) = true ->
  (forall tr, platform tr success_add = Some e) ->
  (forall tr r, In r [loading (reactions this); failed (reactions this)] ->
      platform tr (ReactionsAdd (channelId im) (emoji r) (messageId im))
      = None) ->
  (forall tr,
      platform tr (ReactionsRemove (channelId im)
                     (emoji (loading (reactions this))) (messageId im))
      = None) ->
  (forall tr, platform tr (apology_call im e) = None) ->
  exists w',
    processMessage platform this im w = (w', Fulfilled tt)
    /\ trace w'
       = trace w ++ [process_log im]
         ++ added (loading (reactions this)) im
         ++ [Invoke im]
         ++ events_of (reply_call hook im content)
         ++ [Call success_add; ConsoleError e]
         ++ added (failed (reactions this)) im
         ++ [Call (apology_call im e)]
         ++ removed (loading (reactions this)) im
    /\ sends (trace w')
       = sends (trace w)
         ++ match reply_call hook im content with
            | Some posted => [posted]
            | None => []
            end
         ++ [ChatPostMessage (channelId im) (Some (messageId im)) None
               (lit "Sorry, something went wrong. ("
                ++ match e with ErrorObject msg => msg | OtherValue _ => [] end
                ++ lit ")")].
Proof.
  intros success_add Hh Hsync Hc Hs Hbad Hadd Hrem Hsend.
  assert (Htext : lit "Sorry, something went wrong. ("
                  ++ match e with ErrorObject msg => msg | OtherValue _ => [] end
                  ++ lit ")"
                  = apology e).
  { unfold apology. destruct e as [[|c msg]|o]; reflexivity. }
  rewrite Htext. fold (apology_call im e).
  destruct (react_add_ok platform (loading (reactions this)) im
              (record (process_log im) w))
    as (w1 & E1 & T1 & U1).
  { intros _. apply Hadd. left. reflexivity. }
  rewrite (processMessage_enters platform this hook im Hh w w1 E1).
  unfold try_catch_finally, protected. rewrite Hsync.
  unfold bind at 1. unfold invoke. rewrite Hc.
  fold (reply hook im content).
  destruct (reply_step platform hook im content (record (Invoke im) w1))
    as (w2 & E2 & T2 & U2).
  unfold bind at 1. rewrite E2.
  unfold react_add at 1. unfold when at 1. rewrite Hs.
  unfold perform at 1. fold success_add. rewrite Hbad.
  unfold on_fault. unfold bind at 1. unfold console_error.
  destruct (react_add_ok platform (failed (reactions this)) im
              (record (ConsoleError e) (record (Call success_add) w2)))
    as (w3 & E3 & T3 & U3).
  { intros _. apply Hadd. right. left. reflexivity. }
  unfold bind at 1. rewrite E3, post_text. fold (apology_call im e).
  unfold perform at 1. rewrite Hsend.
  destruct (react_remove_ok platform (loading (reactions this)) im
              (record (Call (apology_call im e)) w3))
    as (w' & E' & T' & U'); [intros _; apply Hrem|].
  unfold cleanup. rewrite E'. exists w'. split; [reflexivity|].
  assert (Htrace : trace w'
                   = trace w ++ [process_log im]
                     ++ added (loading (reactions this)) im
                     ++ [Invoke im]
                     ++ events_of (reply_call hook im content)
                     ++ [Call success_add; ConsoleError e]
                     ++ added (failed (reactions this)) im
                     ++ [Call (apology_call im e)]
                     ++ removed (loading (reactions this)) im).
  { rewrite T'. cbn [trace record]. rewrite T3. cbn [trace record].
    rewrite T2. cbn [trace record]. rewrite T1. cbn [trace record].
    rewrite <- !app_assoc. reflexivity. }
  split; [exact Htrace|].
  rewrite Htrace, !sends_app, !sends_added, sends_removed.
  assert (Hreply : sends (events_of (reply_call hook im content))
                   = match reply_call hook im content with
                     | Some posted => [posted]
                     | None => []
                     end).
  { unfold reply_call.
    destruct (truthy content); [|reflexivity].
    destruct (the_call (reply hook im content)) as [c|] eqn:Ec; [|reflexivity].
    unfold sends. cbn [events_of calls filter].
    rewrite (the_call_is_send _ _ Ec). reflexivity. }
  rewrite Hreply. cbn. rewrite ?app_nil_r. reflexivity.
Qed.

Lemma processMessage_success_reaction_rejected_witness :
  let this := registerHandler (constructor sample_args) hi_hook in
  let e := ErrorObject (lit "ratelimited") in
  exists w',
    processMessage (rejects_add (lit "white_check_mark") e)
      this sample_incoming start
    = (w', Fulfilled tt)
    /\ trace w'
       = [process_log sample_incoming;
          Call (ReactionsAdd (lit "C1") (lit "thinking_face")
                  (lit "1700000000.000200"));
          Invoke sample_incoming;
          Call (ChatPostMessage (lit "C1") (Some (lit "1700000000.000200"))
                  None (lit "hi"));
          Call (ReactionsAdd (lit "C1") (lit "white_check_mark")
                  (lit "1700000000.000200"));
          ConsoleError e;
          Call (ReactionsAdd (lit "C1") (lit "x") (lit "1700000000.000200"));
          Call (ChatPostMessage (lit "C1") (Some (lit "1700000000.000200"))
                  None (lit "Sorry, something went wrong. (ratelimited)"));
          Call (ReactionsRemove (lit "C1") (lit "thinking_face")
                  (lit "1700000000.000200"))]
    /\ sends (trace w')
       = [ChatPostMessage (lit "C1") (Some (lit "1700000000.000200"))
            None (lit "hi");
          ChatPostMessage (lit "C1") (Some (lit "1700000000.000200"))
            None (lit "Sorry, something went wrong. (ratelimited)")].
Proof.
  cbv zeta.
  refine (processMessage_success_reaction_rejected
            (rejects_add (lit "white_check_mark")
               (ErrorObject (lit "ratelimited")))
            (registerHandler (constructor sample_args) hi_hook) hi_hook
            sample_incoming (Str (lit "hi")) (ErrorObject (lit "ratelimited"))
            start eq_refl eq_refl eq_refl eq_refl (fun _ => eq_refl) _
            (fun _ => eq_refl) (fun _ => eq_refl)).
  intros tr r [<-|[<-|[]]]; reflexivity.
Defined.

(** X4. A new instance has no hook, the bot user of its arguments,
    and three reactions that are all set and truthy: for each of them a
    non-empty name given in the arguments is kept, and an absent or empty
    one is replaced by its default (['thinking_face'],
    ['white_check_mark'], ['x']). A reaction cannot be turned off through
    the constructor. *)
Theorem constructor_reactions (args : SlackQnaArgs) :
  let this := constructor args in
  commandHook this = None
  /\ botUserId this = args_botUserId args
  /\ (truthy_opt (loading (reactions this)) = true
      /\ truthy_opt (success (reactions this)) = true
      /\ truthy_opt (failed (reactions this)) = true)
  /\ (forall field default given,
         In (field, default)
            [(loading, lit "thinking_face");
             (success, lit "white_check_mark");
             (failed, lit "x")] ->
         (optional field (args_reactions args) = Some given ->
          given <> [] -> field (reactions this) = Some given)
         /\ (truthy_opt (optional field (args_reactions args)) = false ->
             field (reactions this) = Some default)).
Proof.
  cbv zeta. split; [reflexivity|]. split; [reflexivity|].
  split; [apply constructor_reactions_truthy|].
  intros field default given Hin.
  assert (Hor : forall o d,
             (o = Some given -> given <> [] -> or_default o d = given)
             /\ (truthy_opt o = false -> or_default o d = d)).
  { intros o d. split.
    - intros -> Hne. destruct given; [contradiction | reflexivity].
    - unfold or_default, truthy_opt. destruct o as [s|]; [|reflexivity].
      intros ->. reflexivity. }
  destruct Hin as [H|[H|[H|[]]]]; injection H as <- <-;
    cbn [constructor reactions loading success failed];
    (split; [intros H1 H2; rewrite (proj1 (Hor _ _) H1 H2)
            | intros H1; rewrite (proj2 (Hor _ _) H1)]); reflexivity.
Qed.

End LifecycleRuns.

(* ================================================================== *)
(** ** The listener *)
(* ================================================================== *)

Module ListenerFacts.
Import Js JsFacts Schema Platform SlackQna Spec Listener.

Lemma starts_with_app (t b : js_string) : starts_with (t ++ b) t = true.
Proof.
  induction t as [|c t IH]; [destruct b; reflexivity|].
  cbn [app starts_with]. rewrite N.eqb_refl. exact IH.
Qed.

Lemma starts_with_inv (t : js_string) :
  forall s, starts_with s t = true -> s = t ++ skipn (length t) s.
Proof.
  induction t as [|d t IH]; intros s H; [reflexivity|].
  destruct s as [|c s]; [discriminate H|].
  cbn [starts_with] in H. apply andb_true_iff in H as [E H].
  apply N.eqb_eq in E. subst d. cbn [app length skipn]. f_equal.
  exact (IH s H).
Qed.

(** [includes] tells whether the text occurs. *)
Lemma includes_iff (s t : js_string) :
  includes s t = true <-> exists a b, s = a ++ t ++ b.
Proof.
  split.
  - induction s as [|c s IH]; cbn [includes]; intros H.
    + rewrite orb_false_r in H. exists [], (skipn (length t) []).
      exact (starts_with_inv t [] H).
    + apply orb_true_iff in H as [H|H].
      * exists [], (skipn (length t) (c :: s)). exact (starts_with_inv t _ H).
      * destruct (IH H) as (a & b & ->). exists (c :: a), b. reflexivity.
  - intros (a & b & ->). induction a as [|c a IH].
    + cbn [app]. destruct (t ++ b) eqn:E; cbn [includes]; rewrite <- E;
        rewrite starts_with_app; reflexivity.
    + cbn [app includes]. rewrite IH. apply orb_true_r.
Qed.

(** What [replace] does when the text occurs: the occurrence it replaces
    is the first. *)
Lemma replace_first_spec (t r : js_string) :
  forall s,
    includes s t = true ->
    exists a b,
      s = a ++ t ++ b
      /\ (forall a' b', s = a' ++ t ++ b' -> length a <= length a')
      /\ replace_first s t r = a ++ r ++ b.
Proof.
  assert (Hhere : forall s,
             starts_with s t = true ->
             exists a b,
               s = a ++ t ++ b
               /\ (forall a' b', s = a' ++ t ++ b' -> length a <= length a')
               /\ (if starts_with s t then r ++ skipn (length t) s
                   else s) = a ++ r ++ b).
  { intros s H. exists [], (skipn (length t) s).
    split; [exact (starts_with_inv t s H)|].
    split; [intros; apply Nat.le_0_l|]. rewrite H. reflexivity. }
  induction s as [|c s IH]; intros H.
  - cbn [includes] in H. rewrite orb_false_r in H.
    destruct (Hhere [] H) as (a & b & H1 & H2 & H3).
    exists a, b. split; [exact H1|]. split; [exact H2|]. exact H3.
  - cbn [includes] in H.
    destruct (starts_with (c :: s) t) eqn:E.
    + destruct (Hhere (c :: s) E) as (a & b & H1 & H2 & H3).
      exists a, b. split; [exact H1|]. split; [exact H2|].
      cbn [replace_first]. rewrite E in *. exact H3.
    + cbn [orb] in H. destruct (IH H) as (a & b & H1 & H2 & H3).
      exists (c :: a), b. split; [rewrite H1; reflexivity|]. split.
      * intros a' b' Hab. destruct a' as [|c' a'].
        -- cbn [app] in Hab. rewrite Hab, starts_with_app in E.
           discriminate E.
        -- injection Hab as _ Hab. cbn [length].
           apply le_n_S. exact (H2 a' b' Hab).
      * cbn [replace_first]. rewrite E, H3. reflexivity.
Qed.

(** X21. For a mention whose text holds the tag [<@botUserId>], the
    callback hands [processMessage] the text of the event as [raw] and,
    as [message], the text without the first occurrence of the tag,
    trimmed: what comes before the first occurrence and what comes after
    it, later occurrences of the tag included. *)
Theorem on_mention_removes_first_tag
    (this : SlackQna.t) (event : AppMentionEvent.t) (a0 b0 : js_string) :
  AppMentionEvent.text event = a0 ++ tag_of this ++ b0 ->
  exists a b,
    AppMentionEvent.text event = a ++ tag_of this ++ b
    /\ (forall a' b',
           AppMentionEvent.text event = a' ++ tag_of this ++ b' ->
           length a <= length a')
    /\ on_mention this event
       = Processed (SLACK_RECEIVED_MENTION event)
           {| messageId := AppMentionEvent.ts event;
              channelId := AppMentionEvent.channel event;
              threadId := AppMentionEvent.thread_ts event;
              raw := AppMentionEvent.text event;
              message := trim (a ++ b) |}.
Proof.
  intros Ht.
  assert (Hin : includes (AppMentionEvent.text event) (tag_of this) = true)
    by exact (proj2 (includes_iff _ _)
                (ex_intro _ a0 (ex_intro _ b0 Ht))).
  destruct (replace_first_spec (tag_of this) [] _ Hin)
    as (a & b & Hab & Hmin & Hr).
  exists a, b. split; [exact Hab|]. split; [exact Hmin|].
  unfold on_mention. cbv zeta. fold (tag_of this).
  rewrite Hin, Hr. reflexivity.
Qed.

Lemma on_mention_removes_first_tag_witness :
  (exists a b,
      AppMentionEvent.text sample_mention
      = a ++ tag_of (constructor sample_args) ++ b
      /\ (forall a' b',
             AppMentionEvent.text sample_mention
             = a' ++ tag_of (constructor sample_args) ++ b' ->
             length a <= length a')
      /\ on_mention (constructor sample_args) sample_mention
         = Processed (SLACK_RECEIVED_MENTION sample_mention)
             {| messageId := lit "1700000000.000200";
                channelId := lit "C1";
                threadId := None;
                raw := lit "<@U2> hey <@U1>  what is up? <@U1> ";
                message := trim (a ++ b) |})
  /\ on_mention (constructor sample_args) sample_mention
     = Processed (SLACK_RECEIVED_MENTION sample_mention)
         {| messageId := lit "1700000000.000200";
            channelId := lit "C1";
            threadId := None;
            raw := lit "<@U2> hey <@U1>  what is up? <@U1> ";
            message := lit "<@U2> hey   what is up? <@U1>" |}.
Proof.
  split; [|reflexivity].
  exact (on_mention_removes_first_tag (constructor sample_args) sample_mention
           (lit "<@U2> hey ") (lit "  what is up? <@U1> ") eq_refl).
Defined.

(** X22. The mention callback ignores an event, logging nothing and
    processing nothing, exactly when the tag of the bot does not occur in
    its text. *)
Theorem on_mention_ignored_iff
    (this : SlackQna.t) (event : AppMentionEvent.t) :
  on_mention this event = Ignored
  <-> forall a b, AppMentionEvent.text event <> a ++ tag_of this ++ b.
Proof.
  unfold on_mention. cbv zeta. fold (tag_of this).
  destruct (includes (AppMentionEvent.text event) (tag_of this)) eqn:E;
    cbn [negb].
  - split; [discriminate|]. intros H.
    destruct (proj1 (includes_iff _ _) E) as (a & b & Hab).
    destruct (H a b Hab).
  - split; [|reflexivity]. intros _ a b Hab.
    rewrite (proj2 (includes_iff _ _) (ex_intro _ a (ex_intro _ b Hab))) in E.
    discriminate E.
Qed.



End ListenerFacts.
